(** * Phoenix trading bot: execution / risk / position lifecycle engine

    A shallow embedding of the parts of the bot that the specification
    talks about, followed by the properties checked against it.

    Conventions of the embedding.
    - Python floats are idealised as exact rationals ([Q]); rounding done by
      the program itself ([round], [int]) is written out.
    - Wall-clock readings ([time.time()], [datetime.now()]) are explicit
      arguments of the operations that read the clock.
    - Python dictionaries keyed by symbol are [gmap string _].
    - A Python exception is a value [Raise e] of the [result] type.
    - Logging and message formatting have no effect on the modelled state and
      are left out. *)

From Stdlib Require Import QArith Qminmax Qround Lqa Lia ZArith Sorted.
From stdpp Require Import gmap strings list.

Open Scope Q_scope.

(** ** Python values and helpers *)

Module Py.

Inductive exn : Type :=
  | ZeroDivisionError
  | TypeError
  | IndexError
  | ApiError.

Inductive result (A : Type) : Type :=
  | Ok (a : A)
  | Raise (e : exn).
Arguments Ok {A} a.
Arguments Raise {A} e.

Definition Qleb (x y : Q) : bool := Qle_bool x y.
Definition Qltb (x y : Q) : bool := negb (Qle_bool y x).
Definition Qeqb (x y : Q) : bool := Qeq_bool x y.

(** Float division: a zero divisor raises. *)
Definition div (x y : Q) : result Q :=
  if Qeqb y 0 then Raise ZeroDivisionError else Ok (x / y).

(** [x or d] on an optional number: [None] and [0] are falsy. *)
Definition or_else (x : option Q) (d : option Q) : option Q :=
  match x with
  | Some v => if Qeqb v 0 then d else Some v
  | None => d
  end.

(** [round(x)] to the nearest integer, ties to the even neighbour. *)
Definition round_half_even (y : Q) : Z :=
  let f := Qfloor y in
  let r := y - inject_Z f in
  if Qltb r (1#2) then f
  else if Qltb (1#2) r then (f + 1)%Z
  else if Z.even f then f else (f + 1)%Z.

(** [round(x, n)]. The exact value is rounded; the code rounds the double
    nearest to it, which can go the other way when the exact value lies
    half-way between two results. *)
Definition round (x : Q) (n : nat) : Q :=
  let s := inject_Z (10 ^ Z.of_nat n) in
  inject_Z (round_half_even (x * s)) / s.

(** [max(a, b)] and [min(a, b)]: the first argument wins a tie. *)
Definition max (a b : Q) : Q := if Qltb a b then b else a.
Definition min (a b : Q) : Q := if Qltb b a then b else a.

(** Truthiness of an optional number: [None] and [0] are falsy. *)
Definition truthy (x : option Q) : option Q := or_else x None.

(** [int(x)]: truncation towards zero. *)
Definition int (x : Q) : Z := if Qleb 0 x then Qfloor x else Qceiling x.

End Py.

Import Py.

Notation "x <=? y" := (Qleb x y) (at level 70, no associativity) : Q_scope.
Notation "x <? y" := (Qltb x y) (at level 70, no associativity) : Q_scope.
Notation "x =? y" := (Qeqb x y) (at level 70, no associativity) : Q_scope.

(** ** bot/core/position_manager.py *)

Module PositionManager.

(** One tier of the take-profit ladder: [{id, name, price, portion, executed}]. *)
Record TpLevel : Type := mkTpLevel {
  lvl_id : Z;
  lvl_name : string;
  lvl_price : Q;
  lvl_portion : Q;
  lvl_executed : bool;
}.

(** The trailing-stop record: [{enabled, trigger, offset, highest_price}].
    [None] is Python's [None]. *)
Record Trailing : Type := mkTrailing {
  tr_enabled : bool;
  tr_trigger : option Q;
  tr_offset : option Q;
  tr_highest_price : option Q;
}.

Record DcaFill : Type := mkDcaFill {
  fill_qty : Q;
  fill_price : Q;
  fill_timestamp : string;
}.

(** The position dictionary built by [open_position]. *)
Record Position : Type := mkPosition {
  symbol : string;
  qty : Q;
  entry_price : Q;
  opened_at : string;
  pf_weight : Q;
  tp : option Q;
  sl : option Q;
  strat_reason : string;
  strength : Q;
  ai_tp : Q;
  ai_sl : Q;
  ai_confidence : Q;
  ai_reason : string;
  dca_stage : Z;
  dca_history : list DcaFill;
  initial_qty : Q;
  tp_levels : list TpLevel;
  trailing : option Trailing;
  position_type : string;
  holding_period : string;
  conf_mult : Q;
  time_zone : string;
  time_mult : Q;
  tp_mult : Q;
  dynamic_mult : Q;
  entry_stage : Z;
  entry_ratio : Q;
  dca_interval : Q;
  trend : string;
  atr_grade : string;
}.

Definition set_qty (v : Q) (p : Position) : Position :=
  mkPosition (symbol p) v (entry_price p) (opened_at p) (pf_weight p) (tp p)
    (sl p) (strat_reason p) (strength p) (ai_tp p) (ai_sl p) (ai_confidence p)
    (ai_reason p) (dca_stage p) (dca_history p) (initial_qty p) (tp_levels p)
    (trailing p) (position_type p) (holding_period p) (conf_mult p)
    (time_zone p) (time_mult p) (tp_mult p) (dynamic_mult p) (entry_stage p)
    (entry_ratio p) (dca_interval p) (trend p) (atr_grade p).

Definition set_entry_price (v : Q) (p : Position) : Position :=
  mkPosition (symbol p) (qty p) v (opened_at p) (pf_weight p) (tp p)
    (sl p) (strat_reason p) (strength p) (ai_tp p) (ai_sl p) (ai_confidence p)
    (ai_reason p) (dca_stage p) (dca_history p) (initial_qty p) (tp_levels p)
    (trailing p) (position_type p) (holding_period p) (conf_mult p)
    (time_zone p) (time_mult p) (tp_mult p) (dynamic_mult p) (entry_stage p)
    (entry_ratio p) (dca_interval p) (trend p) (atr_grade p).

Definition set_dca (stage : Z) (hist : list DcaFill) (p : Position) : Position :=
  mkPosition (symbol p) (qty p) (entry_price p) (opened_at p) (pf_weight p) (tp p)
    (sl p) (strat_reason p) (strength p) (ai_tp p) (ai_sl p) (ai_confidence p)
    (ai_reason p) stage hist (initial_qty p) (tp_levels p)
    (trailing p) (position_type p) (holding_period p) (conf_mult p)
    (time_zone p) (time_mult p) (tp_mult p) (dynamic_mult p) (entry_stage p)
    (entry_ratio p) (dca_interval p) (trend p) (atr_grade p).

Definition set_tp_levels (v : list TpLevel) (p : Position) : Position :=
  mkPosition (symbol p) (qty p) (entry_price p) (opened_at p) (pf_weight p) (tp p)
    (sl p) (strat_reason p) (strength p) (ai_tp p) (ai_sl p) (ai_confidence p)
    (ai_reason p) (dca_stage p) (dca_history p) (initial_qty p) v
    (trailing p) (position_type p) (holding_period p) (conf_mult p)
    (time_zone p) (time_mult p) (tp_mult p) (dynamic_mult p) (entry_stage p)
    (entry_ratio p) (dca_interval p) (trend p) (atr_grade p).

Definition set_trailing (v : option Trailing) (p : Position) : Position :=
  mkPosition (symbol p) (qty p) (entry_price p) (opened_at p) (pf_weight p) (tp p)
    (sl p) (strat_reason p) (strength p) (ai_tp p) (ai_sl p) (ai_confidence p)
    (ai_reason p) (dca_stage p) (dca_history p) (initial_qty p) (tp_levels p)
    v (position_type p) (holding_period p) (conf_mult p)
    (time_zone p) (time_mult p) (tp_mult p) (dynamic_mult p) (entry_stage p)
    (entry_ratio p) (dca_interval p) (trend p) (atr_grade p).

(** The in-memory store, [self.positions]. *)
Abbreviation Store := (gmap string Position).

(** Keyword arguments of [open_position] that have defaults. *)
Record OpenArgs : Type := mkOpenArgs {
  a_strat_tp : option Q;
  a_strat_sl : option Q;
  a_strat_reason : string;
  a_strength : Q;
  a_trailing : option Trailing;
  a_tp_levels : option (list TpLevel);
  a_position_type : string;
  a_holding_period : string;
  a_conf_mult : Q;
  a_time_zone : string;
  a_time_mult : Q;
  a_tp_mult : Q;
  a_dynamic_mult : Q;
  a_entry_stage : Z;
  a_entry_ratio : Q;
  a_dca_interval : Q;
  a_trend : string;
  a_atr_grade : string;
}.

Definition default_args : OpenArgs :=
  mkOpenArgs None None "" 0 None None "scalp" "" 1 "" 1 1 1 1%Z 0.4 (-0.05)
    "neutral" "mid".

Definition has_position (positions : Store) (sym : string) : bool :=
  bool_decide (is_Some (positions !! sym)).

Definition get_position (positions : Store) (sym : string) : option Position :=
  positions !! sym.

(** The record [new_pos] that [open_position] builds. *)
Definition new_pos (sym : string) (q price : Q) (pf_w a_tp a_sl a_conf : Q)
    (a_reason : string) (args : OpenArgs) (now : string) : Position :=
  let trailing :=
    match a_trailing args with
    | None => mkTrailing false None None (Some price)
    | Some t => t
    end in
  let tp_levels :=
    match a_tp_levels args with
    | None => []
    | Some l => l
    end in
  mkPosition sym q price now pf_w (a_strat_tp args) (a_strat_sl args)
    (a_strat_reason args) (a_strength args) a_tp a_sl a_conf a_reason
    0%Z [] q tp_levels (Some trailing)
    (a_position_type args) (a_holding_period args) (a_conf_mult args)
    (a_time_zone args) (a_time_mult args) (a_tp_mult args)
    (a_dynamic_mult args) (a_entry_stage args) (a_entry_ratio args)
    (a_dca_interval args) (a_trend args) (a_atr_grade args).

(** [open_position]: stores the new record under [symbol] and returns [True]. *)
Definition open_position (positions : Store) (sym : string) (q price : Q)
    (pf_w a_tp a_sl a_conf : Q) (a_reason : string) (args : OpenArgs)
    (now : string) : bool * Store :=
  (true, <[sym := new_pos sym q price pf_w a_tp a_sl a_conf a_reason args now]> positions).

(** [add_dca]: averaging-in. The division raises before anything is stored
    when the new total quantity is zero. *)
Definition add_dca (positions : Store) (sym : string) (q price : Q)
    (now : string) : result bool * Store :=
  match positions !! sym with
  | None => (Ok false, positions)
  | Some pos =>
      let old_qty := qty pos in
      let old_entry := entry_price pos in
      let new_total_qty := old_qty + q in
      match div (old_qty * old_entry + q * price) new_total_qty with
      | Raise e => (Raise e, positions)
      | Ok new_entry =>
          let pos' :=
            set_dca (dca_stage pos + 1)%Z
                    (dca_history pos ++ [mkDcaFill q price now])
              (set_entry_price new_entry (set_qty new_total_qty pos)) in
          (Ok true, <[sym := pos']> positions)
      end
  end.

(** [update_position]: wholesale replacement of an existing record. *)
Definition update_position (positions : Store) (sym : string)
    (new_pos : Position) : bool * Store :=
  match positions !! sym with
  | None => (false, positions)
  | Some _ => (true, <[sym := new_pos]> positions)
  end.

(** [close_position]: computes the P&L, then deletes the record. The P&L
    percentage divides by the entry price. *)
Definition close_position (positions : Store) (sym : string) (exit_price : Q)
    : result bool * Store :=
  match positions !! sym with
  | None => (Ok false, positions)
  | Some pos =>
      let entry := entry_price pos in
      let pnl := (exit_price - entry) * qty pos in
      match div (exit_price - entry) entry with
      | Raise e => (Raise e, positions)
      | Ok r =>
          let pnl_pct := r * 100 in
          (Ok true, delete sym positions)
      end
  end.

(** An initial fill followed by DCA fills [(qty, price)], as a fold of
    [add_dca] over the store. *)
Fixpoint add_dcas (positions : Store) (sym : string) (fills : list (Q * Q))
    (now : string) : Store :=
  match fills with
  | [] => positions
  | (q, p) :: rest => add_dcas (snd (add_dca positions sym q p now)) sym rest now
  end.

(** Total quantity and total notional of a list of fills. *)
Definition fills_qty (fills : list (Q * Q)) : Q :=
  foldr (fun f acc => fst f + acc) 0 fills.
Definition fills_notional (fills : list (Q * Q)) : Q :=
  foldr (fun f acc => fst f * snd f + acc) 0 fills.

(** The fill-volume-weighted average price. *)
Definition vwap (fills : list (Q * Q)) : Q :=
  fills_notional fills / fills_qty fills.

End PositionManager.

(** ** bot/api/rate_limiter.py *)

Module RateLimiter.

Record RateLimitStats : Type := mkStats {
  total_calls : nat;
  blocked_calls : nat;
  rate_limit_hits : nat;
  wait_time_total : Q;
}.

(** [max_calls] is a number of calls; [calls] is the deque of recorded
    timestamps, oldest first. *)
Record t : Type := mkRateLimiter {
  max_calls : nat;
  per_seconds : Q;
  calls : list Q;
  stats : RateLimitStats;
}.

(** [RateLimiter(max_calls, per_seconds)] *)
Definition init (max_calls : nat) (per_seconds : Q) : t :=
  mkRateLimiter max_calls per_seconds [] (mkStats 0 0 0 0).

(** The loop of [_cleanup_old_calls]: pop from the left while the head is
    older than the cutoff. *)
Fixpoint popleft_while (cutoff : Q) (calls : list Q) : list Q :=
  match calls with
  | [] => []
  | c :: rest => if c <? cutoff then popleft_while cutoff rest else calls
  end.

Definition _cleanup_old_calls (self : t) (now : Q) : t :=
  let cutoff := now - per_seconds self in
  mkRateLimiter (max_calls self) (per_seconds self)
    (popleft_while cutoff (calls self)) (stats self).

(** The block of [acquire] that runs under [self.lock], at clock reading
    [now]: purge, then either record the call ([true]) or count a hit. *)
Definition locked_block (self : t) (now : Q) : bool * t :=
  let self := _cleanup_old_calls self now in
  let st := stats self in
  if (length (calls self) <? max_calls self)%nat then
    (true,
     mkRateLimiter (max_calls self) (per_seconds self) (calls self ++ [now])
       (mkStats (S (total_calls st)) (blocked_calls st) (rate_limit_hits st)
          (wait_time_total st)))
  else
    (false,
     mkRateLimiter (max_calls self) (per_seconds self) (calls self)
       (mkStats (total_calls st) (blocked_calls st) (S (rate_limit_hits st))
          (wait_time_total st))).

Definition count_blocked (self : t) : t :=
  let st := stats self in
  mkRateLimiter (max_calls self) (per_seconds self) (calls self)
    (mkStats (total_calls st) (S (blocked_calls st)) (rate_limit_hits st)
       (wait_time_total st)).

Definition add_wait_time (w : Q) (self : t) : t :=
  let st := stats self in
  mkRateLimiter (max_calls self) (per_seconds self) (calls self)
    (mkStats (total_calls st) (blocked_calls st) (rate_limit_hits st)
       (wait_time_total st + w)).

(** [acquire(wait=False)] at clock reading [now]. *)
Definition acquire_nowait (self : t) (now : Q) : bool * t :=
  let '(granted, self) := locked_block self now in
  if granted then (true, self) else (false, count_blocked self).

(** What a call does before its retry: it is finished, or it has computed
    how long to sleep. *)
Inductive phase : Type :=
  | Done (r : bool)
  | Sleep (seconds : Q).

(** The first part of [acquire(wait)]: the locked block at reading [now],
    then (outside the lock) the wait time from [self.calls[0]] at reading
    [now2]. [self.calls[0]] on an empty deque raises. *)
Definition acquire_begin (self : t) (wait : bool) (now now2 : Q)
    : result phase * t :=
  let '(granted, self) := locked_block self now in
  if granted then (Ok (Done true), self)
  else if negb wait then (Ok (Done false), count_blocked self)
  else
    match calls self with
    | [] => (Raise IndexError, self)
    | oldest :: _ =>
        let wait_time := oldest + per_seconds self - now2 in
        if 0 <? wait_time
        then (Ok (Sleep (wait_time + 0.1)), add_wait_time wait_time self)
        else (Ok (Sleep 0), self)
    end.

(** [acquire(wait)]. The clock reads [now] under the lock and [now + d1]
    when the wait time is computed; [time.sleep] lasts the requested time
    and the retry reads the clock [d2] later. The third component is the
    clock reading at which the call returns. *)
Definition acquire (self : t) (wait : bool) (now d1 d2 : Q)
    : result bool * t * Q :=
  match acquire_begin self wait now (now + d1) with
  | (Raise e, self) => (Raise e, self, now + d1)
  | (Ok (Done r), self) => (Ok r, self, now)
  | (Ok (Sleep s), self) =>
      let now3 := now + d1 + s + d2 in
      let '(r, self) := acquire_nowait self now3 in
      (Ok r, self, now3)
  end.

(** [get_remaining] *)
Definition get_remaining (self : t) (now : Q) : Z * t :=
  let self := _cleanup_old_calls self now in
  ((Z.of_nat (max_calls self) - Z.of_nat (length (calls self)))%Z, self).

(** One [acquire] call of a run: the time elapsed since the previous call
    returned and the two delays inside the call. *)
Record Call : Type := mkCall {
  c_wait : bool;
  c_idle : Q;
  c_d1 : Q;
  c_d2 : Q;
}.

Definition timing_ok (c : Call) : Prop :=
  0 <= c_idle c /\ 0 <= c_d1 c /\ 0 <= c_d2 c.

(** A run of [acquire] calls on one limiter, from clock reading [clock].
    [log] collects the clock readings at which calls were granted. *)
Fixpoint run (self : t) (clock : Q) (log : list Q) (cs : list Call)
    : t * Q * list Q :=
  match cs with
  | [] => (self, clock, log)
  | c :: rest =>
      let '(r, self', clock') :=
        acquire self (c_wait c) (clock + c_idle c) (c_d1 c) (c_d2 c) in
      let log' :=
        match r with
        | Ok true => log ++ [clock']
        | _ => log
        end in
      run self' clock' log' rest
  end.

(** Number of grants with time in the closed interval [[t - w, t]]. *)
Definition grants_in_window (log : list Q) (w t : Q) : nat :=
  length (List.filter (fun g => (t - w <=? g) && (g <=? t)) log).

(** What every reachable limiter satisfies at clock reading [clock], with
    [log] the grant times so far: the deque is the tail of the log, all that
    was purged is older than the window, and no window holds more than
    [mc] grants. *)
Definition window_inv (mc : nat) (W : Q) (self : t) (clock : Q) (log : list Q)
    : Prop :=
  max_calls self = mc /\
  per_seconds self = W /\
  (exists pre, log = pre ++ calls self /\ Forall (fun g => g < clock - W) pre) /\
  Forall (fun g => g <= clock) log /\
  (length (calls self) <= mc)%nat /\
  (forall t, (grants_in_window log W t <= mc)%nat).

End RateLimiter.

(** ** bot/core/circuit_breaker.py *)

Module CircuitBreaker.

(** The reason recorded by [_trip] (a formatted message in the source). *)
Inductive reason : Type :=
  | ConsecutiveLosses (n : Z)
  | DailyLoss (pct limit : Q)
  | ApiFailures (n : Z).

(** Messages handed to [alert_callback]. *)
Inductive alert : Type :=
  | TripAlert (r : reason)
  | ResetAlert (auto : bool).

(** Clock readings are seconds of local time; [trip_time] is [None] or the
    reading taken by [_trip]. [alerts] collects what the callback received. *)
Record t : Type := mkBreaker {
  max_consecutive_losses : Z;
  max_daily_loss_pct : Q;
  max_api_failures : Z;
  cooldown_minutes : Q;
  consecutive_losses : Z;
  daily_pnl : Q;
  daily_pnl_pct : Q;
  api_failures : Z;
  is_tripped : bool;
  trip_reason : option reason;
  trip_time : option Q;
  last_reset_date : Z;
  alert_callback : bool;
  alerts : list alert;
}.

(** [datetime.now().date()], as a day number. *)
Definition date (now : Q) : Z := Qfloor (now / 86400).

(** [CircuitBreaker(config)] created at clock reading [now]. *)
Definition init (max_losses : Z) (max_loss_pct : Q) (max_failures : Z)
    (cooldown : Q) (now : Q) : t :=
  mkBreaker max_losses max_loss_pct max_failures cooldown
    0%Z 0 0 0%Z false None None (date now) false [].

Definition default (now : Q) : t := init 5 3.0 10 30 now.

Definition set_alert_callback (self : t) : t :=
  mkBreaker (max_consecutive_losses self) (max_daily_loss_pct self)
    (max_api_failures self) (cooldown_minutes self) (consecutive_losses self)
    (daily_pnl self) (daily_pnl_pct self) (api_failures self) (is_tripped self)
    (trip_reason self) (trip_time self) (last_reset_date self) true (alerts self).

Definition send_alert (a : alert) (self : t) : list alert :=
  if alert_callback self then alerts self ++ [a] else alerts self.

Definition _daily_reset_check (self : t) (now : Q) : t :=
  let today := date now in
  if (last_reset_date self <? today)%Z then
    mkBreaker (max_consecutive_losses self) (max_daily_loss_pct self)
      (max_api_failures self) (cooldown_minutes self) (consecutive_losses self)
      0 0 0%Z (is_tripped self) (trip_reason self) (trip_time self) today
      (alert_callback self) (alerts self)
  else self.

(** [_trip] reads the clock again for [trip_time]; within one call of the
    breaker the readings are taken to be the same [now]. *)
Definition _trip (self : t) (r : reason) (now : Q) : t :=
  mkBreaker (max_consecutive_losses self) (max_daily_loss_pct self)
    (max_api_failures self) (cooldown_minutes self) (consecutive_losses self)
    (daily_pnl self) (daily_pnl_pct self) (api_failures self)
    true (Some r) (Some now) (last_reset_date self)
    (alert_callback self) (send_alert (TripAlert r) self).

Definition _check_conditions (self : t) (now : Q) : t :=
  if is_tripped self then self
  else if (max_consecutive_losses self <=? consecutive_losses self)%Z then
    _trip self (ConsecutiveLosses (consecutive_losses self)) now
  else if daily_pnl_pct self <=? - max_daily_loss_pct self then
    _trip self (DailyLoss (daily_pnl_pct self) (max_daily_loss_pct self)) now
  else if (max_api_failures self <=? api_failures self)%Z then
    _trip self (ApiFailures (api_failures self)) now
  else self.

Definition record_trade (self : t) (pnl pnl_pct : Q) (now : Q) : t :=
  let self := _daily_reset_check self now in
  let losses :=
    if pnl <? 0 then (consecutive_losses self + 1)%Z else 0%Z in
  let self :=
    mkBreaker (max_consecutive_losses self) (max_daily_loss_pct self)
      (max_api_failures self) (cooldown_minutes self) losses
      (daily_pnl self + pnl) (daily_pnl_pct self + pnl_pct) (api_failures self)
      (is_tripped self) (trip_reason self) (trip_time self)
      (last_reset_date self) (alert_callback self) (alerts self) in
  _check_conditions self now.

Definition set_api_failures (n : Z) (self : t) : t :=
  mkBreaker (max_consecutive_losses self) (max_daily_loss_pct self)
    (max_api_failures self) (cooldown_minutes self) (consecutive_losses self)
    (daily_pnl self) (daily_pnl_pct self) n
    (is_tripped self) (trip_reason self) (trip_time self)
    (last_reset_date self) (alert_callback self) (alerts self).

Definition record_api_failure (self : t) (now : Q) : t :=
  let self := _daily_reset_check self now in
  let self := set_api_failures (api_failures self + 1)%Z self in
  _check_conditions self now.

Definition record_api_success (self : t) : t :=
  if (0 <? api_failures self)%Z
  then set_api_failures (Z.max 0 (api_failures self - 1)) self
  else self.

Definition _reset_internal (self : t) (auto : bool) : t :=
  mkBreaker (max_consecutive_losses self) (max_daily_loss_pct self)
    (max_api_failures self) (cooldown_minutes self) 0%Z
    (daily_pnl self) (daily_pnl_pct self) 0%Z
    false None None (last_reset_date self)
    (alert_callback self) (send_alert (ResetAlert auto) self).

Definition can_trade (self : t) (now : Q) : bool * t :=
  if negb (is_tripped self) then (true, self)
  else
    match trip_time self with
    | Some tripped_at =>
        if 0 <? cooldown_minutes self then
          let elapsed := (now - tripped_at) / 60 in
          if cooldown_minutes self <=? elapsed
          then (true, _reset_internal self true)
          else (false, self)
        else (false, self)
    | None => (false, self)
    end.

Definition reset (self : t) (manual : bool) : bool * t :=
  if negb (is_tripped self) then (false, self)
  else (true, _reset_internal self (negb manual)).

(** Calls that other threads may make on the breaker while it is tripped. *)
Inductive event : Type :=
  | RecordTrade (pnl pnl_pct : Q)
  | RecordApiFailure
  | RecordApiSuccess
  | CanTrade.

Definition step (self : t) (e : event) (now : Q) : t :=
  match e with
  | RecordTrade pnl pnl_pct => record_trade self pnl pnl_pct now
  | RecordApiFailure => record_api_failure self now
  | RecordApiSuccess => record_api_success self
  | CanTrade => snd (can_trade self now)
  end.

Fixpoint steps (self : t) (es : list (event * Q)) : t :=
  match es with
  | [] => self
  | (e, now) :: rest => steps (step self e now) rest
  end.

(** What re-arming leaves behind, relative to the state before. *)
Definition rearmed (before after : t) : Prop :=
  is_tripped after = false /\
  trip_reason after = None /\
  trip_time after = None /\
  consecutive_losses after = 0%Z /\
  api_failures after = 0%Z /\
  daily_pnl after = daily_pnl before /\
  daily_pnl_pct after = daily_pnl_pct before.

(** The trip state and the cooldown setting. *)
Definition tripped_at (self : t) (t0 cooldown : Q) : Prop :=
  is_tripped self = true /\ trip_time self = Some t0 /\
  cooldown_minutes self = cooldown.

(** An event that happens before the cooldown has run out (or under a
    cooldown setting that never runs out). *)
Definition before_expiry (t0 cooldown : Q) (en : event * Q) : Prop :=
  (snd en - t0) / 60 < cooldown \/ cooldown <= 0.

End CircuitBreaker.

(** ** bot/utils/cache.py *)

Module Cache.

Section CacheManager.

(** [V] is the type of cached values other than [None]; a factory runs in
    an outside world [World] that it may change. *)
Context {V World : Type}.

Record CacheEntry : Type := mkEntry {
  value : option V;
  expires_at : Q;
  created_at : Q;
  hits : nat;
}.

Record Stats : Type := mkStats {
  s_hits : nat;
  s_misses : nat;
  s_sets : nat;
  s_deletes : nat;
  s_expirations : nat;
}.

Record t : Type := mkCache {
  default_ttl : Q;
  name : string;
  _cache : gmap string CacheEntry;
  _stats : Stats;
}.

Definition init (default_ttl : Q) (name : string) : t :=
  mkCache default_ttl name ∅ (mkStats 0 0 0 0 0).

Definition with_cache (c : gmap string CacheEntry) (st : Stats) (self : t) : t :=
  mkCache (default_ttl self) (name self) c st.

(** [get(key)] at clock reading [now]. *)
Definition get (self : t) (key : string) (now : Q) : option V * t :=
  let st := _stats self in
  match _cache self !! key with
  | None =>
      (None,
       with_cache (_cache self)
         (mkStats (s_hits st) (S (s_misses st)) (s_sets st) (s_deletes st)
            (s_expirations st)) self)
  | Some entry =>
      if expires_at entry <? now then
        (None,
         with_cache (delete key (_cache self))
           (mkStats (s_hits st) (S (s_misses st)) (s_sets st) (s_deletes st)
              (S (s_expirations st))) self)
      else
        (value entry,
         with_cache
           (<[key := mkEntry (value entry) (expires_at entry) (created_at entry)
                       (S (hits entry))]> (_cache self))
           (mkStats (S (s_hits st)) (s_misses st) (s_sets st) (s_deletes st)
              (s_expirations st)) self)
  end.

(** [set(key, value, ttl)] at clock reading [now]. *)
Definition set (self : t) (key : string) (v : option V) (ttl : option Q)
    (now : Q) : t :=
  let st := _stats self in
  let ttl := match ttl with Some x => x | None => default_ttl self end in
  with_cache (<[key := mkEntry v (now + ttl) now 0]> (_cache self))
    (mkStats (s_hits st) (s_misses st) (S (s_sets st)) (s_deletes st)
       (s_expirations st)) self.

(** [delete(key)] *)
Definition delete (self : t) (key : string) : bool * t :=
  let st := _stats self in
  match _cache self !! key with
  | Some _ =>
      (true,
       with_cache (base.delete key (_cache self))
         (mkStats (s_hits st) (s_misses st) (s_sets st) (S (s_deletes st))
            (s_expirations st)) self)
  | None => (false, self)
  end.

(** [get_or_set(key, factory, ttl)]: the lookup reads the clock at [now],
    the store (if any) at [now2]. The result carries the world left by the
    factory, which is the given one when the factory was not called. *)
Definition get_or_set (self : t) (key : string)
    (factory : World -> option V * World) (ttl : option Q) (now now2 : Q)
    (w : World) : option V * t * World :=
  match get self key now with
  | (Some v, self) => (Some v, self, w)
  | (None, self) =>
      let '(v, w) := factory w in
      match v with
      | Some _ => (v, set self key v ttl now2, w)
      | None => (None, self, w)
      end
  end.

(** [exists(key)] *)
Definition exists_ (self : t) (key : string) (now : Q) : bool * t :=
  let '(v, self) := get self key now in
  (match v with Some _ => true | None => false end, self).

End CacheManager.

Arguments CacheEntry : clear implicits.
Arguments t : clear implicits.

End Cache.

(** ** config.py and bot/core/risk_manager.py *)

Module Config.

(** The settings read from the environment that the modelled code uses. *)
Record t : Type := mkConfig {
  SEMI_MODE : bool;                (* MODE == "SEMI" *)
  BASE_CAPITAL : Q;
  USE_REALTIME_CAPITAL : bool;
  CAPITAL_SAFETY_MARGIN : Q;
  MIN_ORDER_AMOUNT : Z;
  POSITION_WEIGHT_CAP : Q;
  MAX_DCA_COUNT : Z;
  AGGRESSIVE_MODE : bool;
  BASE_TRADE_RISK_RATIO : Q;
}.

(** The values used when the environment sets nothing. *)
Definition default : t :=
  mkConfig true 100000 true 0.95 5000 0.55 2 false 0.08.

End Config.

Module RiskManager.

Import PositionManager.

(** What the collaborators answer during one call: the KRW balance
    ([None]: the balance request raises), last prices, and the market risk
    level of [global_risk] when one is attached. *)
Record Market : Type := mkMarket {
  balance : option (Q * Q);          (* KRW total, KRW free *)
  last_price : string -> option Q;
  risk_value : option Q;
}.

Section WithConfig.

Variable cfg : Config.t.
Variable positions : Store.
Variable mkt : Market.

Definition aggressive : bool := Config.AGGRESSIVE_MODE cfg.

(** [_fetch_price] followed by the caller's [if price:] test. *)
Definition _fetch_price (sym : string) : option Q :=
  truthy (last_price mkt sym).

Definition calculate_positions_value : Q :=
  map_fold (fun sym pos total =>
              match _fetch_price sym with
              | Some price => total + qty pos * price
              | None => total
              end) 0 positions.

Definition get_total_capital : Q :=
  if negb (Config.USE_REALTIME_CAPITAL cfg) then Config.BASE_CAPITAL cfg
  else
    match balance mkt with
    | None => Config.BASE_CAPITAL cfg
    | Some (krw_total, _) =>
        let coin_value := calculate_positions_value in
        let total := krw_total + coin_value in
        let capital := total * Config.CAPITAL_SAFETY_MARGIN cfg in
        Py.max capital (inject_Z (Config.MIN_ORDER_AMOUNT cfg) * 10)
    end.

Definition get_available_krw : result Q :=
  match balance mkt with
  | None => Raise ApiError
  | Some (_, free) => Ok free
  end.

Record WeightCheck : Type := mkWeightCheck {
  allowed : bool;
  current_weight : Q;
  new_weight : option Q;
  max_allowed_krw : Q;
}.

(** The market value of the holding that [check_position_weight_cap] uses. *)
Definition current_value (sym : string) : Q :=
  match get_position positions sym with
  | Some pos =>
      match _fetch_price sym with
      | Some price => qty pos * price
      | None => 0
      end
  | None => 0
  end.

Definition check_position_weight_cap (sym : string) (additional_krw : Q)
    : WeightCheck :=
  let total_capital := get_total_capital in
  if total_capital <=? 0 then mkWeightCheck false 0 None 0
  else
    let current_value := current_value sym in
    let current_weight := current_value / total_capital in
    let new_weight := (current_value + additional_krw) / total_capital in
    let max_weight := Config.POSITION_WEIGHT_CAP cfg in
    let max_allowed_krw := (max_weight * total_capital) - current_value in
    let max_allowed_krw := Py.max 0 max_allowed_krw in
    let allowed := new_weight <=? max_weight in
    mkWeightCheck allowed current_weight (Some new_weight) max_allowed_krw.

Record DcaCheck : Type := mkDcaCheck {
  dca_allowed : bool;
  current_count : Z;
  remaining : Z;
}.

Definition check_dca_limit (sym : string) : DcaCheck :=
  match get_position positions sym with
  | None => mkDcaCheck true 0 (Config.MAX_DCA_COUNT cfg)
  | Some pos =>
      let current_count := dca_stage pos in
      let remaining := (Config.MAX_DCA_COUNT cfg - current_count)%Z in
      mkDcaCheck (0 <? remaining)%Z current_count (Z.max 0 remaining)
  end.

(** [CONFIDENCE_MULTIPLIERS], sorted by threshold, highest first. *)
Definition CONFIDENCE_MULTIPLIERS : list (Q * Q) :=
  [(0.85, 1.5); (0.70, 1.2); (0.60, 1.0); (0.00, 0.7)].

Fixpoint first_reached (table : list (Q * Q)) (x : Q) : Q :=
  match table with
  | [] => 0.7
  | (threshold, mult) :: rest =>
      if threshold <=? x then mult else first_reached rest x
  end.

Definition _get_confidence_multiplier (ai_confidence : Q) : Q :=
  first_reached CONFIDENCE_MULTIPLIERS ai_confidence.

(** [get_trade_amount]. [btc_mode] and [time_config], when given, are
    represented by their [position_mult]. *)
Definition get_trade_amount (sym : string) (pf_weight : Q) (is_dca : bool)
    (btc_mode time_config : option Q) (ai_confidence : Q) : result Q :=
  let total_capital := get_total_capital in
  match get_available_krw with
  | Raise e => Raise e
  | Ok free_krw =>
      (* 1) base target *)
      let target := total_capital * pf_weight in
      (* 2) aggressive boost *)
      let target := if aggressive then target * 1.4 else target in
      (* 3) market risk level *)
      let target :=
        match risk_value mkt with
        | Some risk_level =>
            if 0.7 <? risk_level then target * 0.4
            else if 0.5 <? risk_level then target * 0.7
            else if aggressive then target * 1.3
            else target
        | None => target
        end in
      (* 4) BTC mode: a multiplier <= 0 vetoes the trade *)
      let vetoed :=
        match btc_mode with Some m => m <=? 0 | None => false end in
      if vetoed then Ok 0
      else
        let target :=
          match btc_mode with Some m => target * m | None => target end in
        (* 5) time of day *)
        let target :=
          match time_config with
          | Some m => if m =? 1 then target else target * m
          | None => target
          end in
        (* 6) confidence tier *)
        let conf_mult := _get_confidence_multiplier ai_confidence in
        let target := if conf_mult =? 1 then target else target * conf_mult in
        (* 7) weight cap *)
        let weight_check := check_position_weight_cap sym target in
        let target :=
          if negb (allowed weight_check) then max_allowed_krw weight_check
          else target in
        (* 8) DCA count *)
        if is_dca && negb (dca_allowed (check_dca_limit sym)) then Ok 0
        else
          (* 9) free balance *)
          let final_amt := Py.min target (free_krw * 0.85) in
          if final_amt <? inject_Z (Config.MIN_ORDER_AMOUNT cfg) then Ok 0
          else Ok (Py.max 0 final_amt)
  end.

End WithConfig.

End RiskManager.

(** ** bot/core/execution_engine.py *)

Module ExecutionEngine.

Import PositionManager.

(** *** Collaborators *)

(** A raw field of [order["info"]], as the exchange sends it: a number, or
    a string [s] together with what [float(s)] gives for it ([None] when
    [float] raises, as it does on the empty string). *)
Inductive Raw : Type :=
  | RNum (v : Q)
  | RStr (s : string) (parsed : option Q).

(** Truthiness of a raw field: [None], [0] and the empty string are falsy;
    every other string is truthy, whatever number it spells. *)
Definition raw_truthy (r : option Raw) : bool :=
  match r with
  | None => false
  | Some (RNum v) => negb (v =? 0)
  | Some (RStr s _) => negb (String.eqb s "")
  end.

(** [a or b] on raw fields. *)
Definition raw_or (a b : option Raw) : option Raw :=
  if raw_truthy a then a else b.

(** [if isinstance(x, str): try: x = float(x) except: x = None] *)
Definition raw_float (r : option Raw) : option Q :=
  match r with
  | None => None
  | Some (RNum v) => Some v
  | Some (RStr _ parsed) => parsed
  end.

(** [a or b] on optional strings: [None] and the empty string are falsy. *)
Definition str_or (a b : option string) : option string :=
  match a with
  | Some s => if String.eqb s "" then b else Some s
  | None => b
  end.

(** The fields of an exchange order that [_extract_fill_info] reads: the
    numbers of the unified order, and the raw fields of [order["info"]]. *)
Record Order : Type := mkOrder {
  o_id : option string;
  o_order_id : option string;
  o_average : option Q;
  o_price : option Q;
  o_filled : option Q;
  o_amount : option Q;
  info_status : option string;
  info_average : option Raw;
  info_price : option Raw;
  info_units : option Raw;
  info_filled : option Raw;
}.

(** What the collaborators answer while one engine call runs.
    - [pf]: the price feed, when attached, and its [get_price];
    - [fetch_ticker]: the ticker's ["last"], or an exception;
    - [fetch_balance]: the total held per coin, or an exception;
    - [create_limit_sell]: an exception, an empty answer or an order;
    - [telegram_bot]: absent, or whether sending a request succeeds. *)
Record Exchange : Type := mkExchange {
  pf : option (string -> option Q);
  fetch_ticker : string -> result (option Q);
  fetch_balance : result (string -> option Q);
  create_limit_sell : string -> Q -> result (option Order);
  telegram_bot : option bool;
  trade_logger : bool;
}.

Record SlippageRecord : Type := mkSlippage {
  slip_symbol : string;
  slip_side : string;
  slip_expected_price : Q;
  slip_actual_price : Q;
  slip_qty : Q;
  slip_order_id : option string;
}.

(** The engine together with the collaborators it mutates: the position
    store and SL holds of [self.pm], the pending-approval set, the loss
    streak of [self.rm], and what was sent outwards (every call of
    [api.create_limit_sell], approval requests, error alerts, logged
    exits). *)
Record Engine : Type := mkEngine {
  pm : Store;
  sl_hold_until : gmap string Q;
  sl_pending_symbols : gset string;
  loss_streak : Z;
  sell_orders : list (string * Q);
  slippage_history : list SlippageRecord;
  approval_requests : list (string * string);
  error_alerts : list (string * string);
  exit_log : list (string * Q * string);
}.

Definition with_pm (v : Store) (e : Engine) : Engine :=
  mkEngine v (sl_hold_until e) (sl_pending_symbols e) (loss_streak e)
    (sell_orders e) (slippage_history e) (approval_requests e)
    (error_alerts e) (exit_log e).

Definition with_sl_hold (v : gmap string Q) (e : Engine) : Engine :=
  mkEngine (pm e) v (sl_pending_symbols e) (loss_streak e)
    (sell_orders e) (slippage_history e) (approval_requests e)
    (error_alerts e) (exit_log e).

Definition with_pending (v : gset string) (e : Engine) : Engine :=
  mkEngine (pm e) (sl_hold_until e) v (loss_streak e)
    (sell_orders e) (slippage_history e) (approval_requests e)
    (error_alerts e) (exit_log e).

Definition with_loss_streak (v : Z) (e : Engine) : Engine :=
  mkEngine (pm e) (sl_hold_until e) (sl_pending_symbols e) v
    (sell_orders e) (slippage_history e) (approval_requests e)
    (error_alerts e) (exit_log e).

Definition add_sell_order (sym : string) (q : Q) (e : Engine) : Engine :=
  mkEngine (pm e) (sl_hold_until e) (sl_pending_symbols e) (loss_streak e)
    (sell_orders e ++ [(sym, q)]) (slippage_history e) (approval_requests e)
    (error_alerts e) (exit_log e).

Definition add_slippage (r : SlippageRecord) (e : Engine) : Engine :=
  mkEngine (pm e) (sl_hold_until e) (sl_pending_symbols e) (loss_streak e)
    (sell_orders e) (slippage_history e ++ [r]) (approval_requests e)
    (error_alerts e) (exit_log e).

Definition add_approval_request (sym sell_type : string) (e : Engine) : Engine :=
  mkEngine (pm e) (sl_hold_until e) (sl_pending_symbols e) (loss_streak e)
    (sell_orders e) (slippage_history e)
    (approval_requests e ++ [(sym, sell_type)])
    (error_alerts e) (exit_log e).

(** [_send_error_alert(error_type, symbol, ...)] *)
Definition _send_error_alert (error_type sym : string) (e : Engine) : Engine :=
  mkEngine (pm e) (sl_hold_until e) (sl_pending_symbols e) (loss_streak e)
    (sell_orders e) (slippage_history e) (approval_requests e)
    (error_alerts e ++ [(error_type, sym)]) (exit_log e).

Definition log_exit (sym : string) (price : Q) (reason : string) (e : Engine)
    : Engine :=
  mkEngine (pm e) (sl_hold_until e) (sl_pending_symbols e) (loss_streak e)
    (sell_orders e) (slippage_history e) (approval_requests e)
    (error_alerts e) (exit_log e ++ [(sym, price, reason)]).

(** *** Pending stop-loss approvals *)

Definition _add_sl_pending (sym : string) (e : Engine) : Engine :=
  with_pending (sl_pending_symbols e ∪ {[sym]}) e.

Definition _remove_sl_pending (sym : string) (e : Engine) : Engine :=
  with_pending (sl_pending_symbols e ∖ {[sym]}) e.

Definition _is_sl_pending (sym : string) (e : Engine) : bool :=
  bool_decide (sym ∈ sl_pending_symbols e).

(** [pm.is_sl_held(symbol)] at clock reading [now]. *)
Definition is_sl_held (sym : string) (now : Q) (e : Engine) : bool * Engine :=
  match sl_hold_until e !! sym with
  | None => (false, e)
  | Some hold_until =>
      if hold_until <=? now
      then (false, with_sl_hold (delete sym (sl_hold_until e)) e)
      else (true, e)
  end.

(** [rm.register_trade_result(profit)] *)
Definition register_trade_result (profit : Q) (e : Engine) : Engine :=
  if profit <? 0 then with_loss_streak (loss_streak e + 1)%Z e
  else with_loss_streak 0%Z e.

(** *** Helpers *)

(** [_safe_float(value, default)] on an optional number. *)
Definition _safe_float (value : option Q) (default : Q) : Q :=
  match value with
  | None => default
  | Some v => v
  end.

(** [s.replace(old, "")]: remove the occurrences of [old], left to right. *)
Fixpoint remove_all_aux (fuel : nat) (old s : string) : string :=
  match fuel with
  | O => s
  | S fuel =>
      match s with
      | EmptyString => EmptyString
      | String c rest =>
          if String.prefix old s && negb (String.eqb old "")
          then remove_all_aux fuel old
                 (String.substring (String.length old)
                    (String.length s - String.length old) s)
          else String c (remove_all_aux fuel old rest)
      end
  end.

Definition remove_all (old s : string) : string :=
  remove_all_aux (String.length s) old s.

Definition upper_char (c : Ascii.ascii) : Ascii.ascii :=
  let n := Ascii.nat_of_ascii c in
  if (97 <=? n)%nat && (n <=? 122)%nat then Ascii.ascii_of_nat (n - 32) else c.

Fixpoint upper (s : string) : string :=
  match s with
  | EmptyString => EmptyString
  | String c rest => String (upper_char c) (upper rest)
  end.

(** [symbol.replace("/KRW", "").replace("-KRW", "").upper()] *)
Definition coin_of (sym : string) : string :=
  upper (remove_all "-KRW" (remove_all "/KRW" sym)).

Definition LOW_PRICE_COINS : list string :=
  ["PEPE"; "SHIB"; "BONK"; "FLOKI"; "LUNC"; "BTT"; "WIN"; "SPELL"].
Definition HIGH_PRICE_COINS : list string := ["BTC"; "ETH"].

Definition mem (s : string) (l : list string) : bool :=
  existsb (String.eqb s) l.

Definition _get_qty_precision (sym : string) : nat :=
  let coin := coin_of sym in
  if mem coin LOW_PRICE_COINS then 0%nat
  else if mem coin HIGH_PRICE_COINS then 8%nat
  else 4%nat.

(** [_format_qty(symbol, qty)]: [float(int(qty))] at precision 0, else
    [float(int(qty * factor)) / factor]. The product is taken exactly
    here; in the code it is a double, rounded before [int] cuts it off, so
    a quantity within one rounding step of a grid point can land on the
    neighbouring grid point. *)
Definition _format_qty (sym : string) (q : Q) : Q :=
  let precision := _get_qty_precision sym in
  match precision with
  | O => inject_Z (Py.int q)
  | _ =>
      let factor := inject_Z (10 ^ Z.of_nat precision) in
      inject_Z (Py.int (q * factor)) / factor
  end.

(** [_calculate_dynamic_tp_multiplier]. Of the AI decision it reads the
    [tp_mult] of a non-empty [btc_mode] and the confidence. *)
Record AiDecision : Type := mkAiDecision {
  btc_tp_mult : option Q;
  confidence : Q;
}.

Definition _calculate_dynamic_tp_multiplier (ai_decision : option AiDecision) : Q :=
  match ai_decision with
  | None => 1.0
  | Some d =>
      let tp_mult := 1.0 in
      let tp_mult :=
        match btc_tp_mult d with Some m => tp_mult * m | None => tp_mult end in
      let tp_mult :=
        if 0.85 <=? confidence d then tp_mult * 1.1
        else if 0.70 <=? confidence d then tp_mult * 1.05
        else tp_mult in
      Py.min tp_mult 1.5
  end.

(** [levels_conf]: id, name, multiple of the ratio, portion. *)
Definition levels_conf : list (Z * string * Q * Q) :=
  [(1%Z, "TP1", 0.6, 0.5); (2%Z, "TP2", 1.0, 0.3); (3%Z, "TP3", 1.6, 0.2)].

Definition adjusted_ratio (base_ratio : option Q) (ai_decision : option AiDecision) : Q :=
  let base_ratio :=
    match base_ratio with
    | None => 0.02
    | Some r => if r <=? 0 then 0.02 else r
    end in
  let tp_multiplier := _calculate_dynamic_tp_multiplier ai_decision in
  Py.min (base_ratio * tp_multiplier) 0.15.

(** [_build_tp_levels(entry_price, base_ratio, ai_decision)] *)
Definition _build_tp_levels (entry_price : Q) (base_ratio : option Q)
    (ai_decision : option AiDecision) : list TpLevel :=
  let adjusted_ratio := adjusted_ratio base_ratio ai_decision in
  map (fun c =>
         match c with
         | (id, name, mult, portion) =>
             let target_price := entry_price * (1.0 + adjusted_ratio * mult) in
             mkTpLevel id name (Py.round target_price 2) portion false
         end) levels_conf.

(** [sorted(levels, key=id)] as the list of positions in [levels], in
    sorted order; equal ids keep their order. *)
Fixpoint insert_by_id (levels : list TpLevel) (i : nat) (sorted : list nat)
    : list nat :=
  match sorted with
  | [] => [i]
  | j :: rest =>
      let id_of k := match levels !! k with Some l => lvl_id l | None => 0%Z end in
      if (id_of i <? id_of j)%Z then i :: sorted
      else j :: insert_by_id levels i rest
  end.

Definition sorted_by_id (levels : list TpLevel) : list nat :=
  foldl (fun acc i => insert_by_id levels i acc) [] (seq 0 (length levels)).

Definition set_executed (l : TpLevel) : TpLevel :=
  mkTpLevel (lvl_id l) (lvl_name l) (lvl_price l) (lvl_portion l) true.

Section WithExchange.

Variable cfg : Config.t.
Variable ex : Exchange.

(** [_get_price]: the price feed first, then the ticker; only a positive
    price is returned. *)
Definition _get_price (sym : string) : option Q :=
  let from_feed :=
    match pf ex with
    | Some get_price =>
        match truthy (get_price sym) with
        | Some price => if 0 <? price then Some price else None
        | None => None
        end
    | None => None
    end in
  match from_feed with
  | Some price => Some price
  | None =>
      match fetch_ticker ex sym with
      | Ok last =>
          match truthy last with
          | Some price => if 0 <? price then Some price else None
          | None => None
          end
      | Raise _ => None
      end
  end.

(** [_get_actual_balance]: the exchange's total for the coin; [0.0] when it
    is missing or when the balance request fails. *)
Definition _get_actual_balance (sym : string) : Q :=
  let coin := coin_of sym in
  match fetch_balance ex with
  | Ok balance =>
      match truthy (balance coin) with
      | Some total => total
      | None => 0
      end
  | Raise _ => 0
  end.

Definition nonpositive (x : option Q) : bool :=
  match truthy x with
  | Some v => v <=? 0
  | None => true
  end.

(** [_extract_fill_info(order, expected_price, expected_qty)] for a
    non-empty order. The numbers of the unified order come first; when
    they are missing or zero the raw [info] fields are read, and a string
    among them is converted with [float]. Both branches on
    [info["status"]] are the same. *)
Definition _extract_fill_info (order : Order) (expected_price expected_qty : Q)
    : Q * Q * option string :=
  let order_id := str_or (o_id order) (o_order_id order) in
  let actual_price := or_else (o_average order) (o_price order) in
  let actual_qty := or_else (o_filled order) (o_amount order) in
  let actual_price :=
    match truthy actual_price with
    | Some p => Some p
    | None => raw_float (raw_or (info_average order) (info_price order))
    end in
  let actual_qty :=
    match truthy actual_qty with
    | Some q => Some q
    | None => raw_float (raw_or (info_units order) (info_filled order))
    end in
  let actual_price :=
    if nonpositive actual_price then expected_price
    else _safe_float actual_price expected_price in
  let actual_qty :=
    if nonpositive actual_qty then expected_qty
    else _safe_float actual_qty expected_qty in
  (actual_price, actual_qty, order_id).

(** [slippage_tracker.record]: nothing is recorded for a non-positive
    expected price. *)
Definition record_slippage (sym side : string) (expected_price actual_price q : Q)
    (order_id : option string) (e : Engine) : Engine :=
  if expected_price <=? 0 then e
  else add_slippage (mkSlippage sym side expected_price actual_price q order_id) e.

(** [_request_sell_approval] at clock reading [now]. *)
Definition _request_sell_approval (e : Engine) (sym : string) (pos : Position)
    (current_price : Q) (reason sell_type : string) (now : Q) : bool * Engine :=
  if _is_sl_pending sym e then (true, e)
  else
    let '(held, e) :=
      if String.eqb sell_type "sl" then is_sl_held sym now e else (false, e) in
    if held then (true, e)
    else
      match telegram_bot ex with
      | None => (false, _send_error_alert "매도 보류" sym e)
      | Some sent =>
          let e := _add_sl_pending sym e in
          if sent then (true, add_approval_request sym sell_type e)
          else
            (false,
             _send_error_alert "매도 승인 실패" sym
               (_remove_sl_pending sym e))
      end.

(** The profit percentage used by the approval test of [market_sell]. *)
Definition pnl_pct (pos : Position) (price : Q) : Q :=
  let entry := _safe_float (Some (entry_price pos)) price in
  let entry := if entry <=? 0 then price else entry in
  ((price - entry) / Py.max entry 1) * 100.

(** [market_sell(symbol, pos, reason, ratio, skip_approval)] at clock
    reading [now]. Any exception inside is caught: the call reports an
    error and returns [False]. *)
Definition market_sell (e : Engine) (sym : string) (pos : Position)
    (reason : string) (ratio : Q) (skip_approval : bool) (now : Q)
    : bool * Engine :=
  match _get_price sym with
  | None => (false, _send_error_alert "매도 실패" sym e)
  | Some expected_price =>
      if expected_price <=? 0
      then (false, _send_error_alert "매도 실패" sym e)
      else if Config.SEMI_MODE cfg && negb skip_approval
              && (pnl_pct pos expected_price <? 0)
      then _request_sell_approval e sym pos expected_price reason "signal" now
      else
        let stored_qty := qty pos in
        let actual_qty := _get_actual_balance sym in
        if actual_qty <=? 0 then
          let e := _remove_sl_pending sym e in
          match close_position (pm e) sym expected_price with
          | (Raise _, _) => (false, _send_error_alert "매도 오류" sym e)
          | (Ok _, positions) => (true, with_pm positions e)
          end
        else
          let sell_qty :=
            if 1 <=? ratio then actual_qty * 0.9995 else actual_qty * ratio in
          let sell_qty := _format_qty sym sell_qty in
          if sell_qty <=? 0 then (false, e)
          else
            let e := add_sell_order sym sell_qty e in
            match create_limit_sell ex sym sell_qty with
            | Raise _ => (false, _send_error_alert "매도 실패" sym e)
            | Ok None => (false, _send_error_alert "매도 실패" sym e)
            | Ok (Some order) =>
                let '(actual_price, actual_qty_filled, order_id) :=
                  _extract_fill_info order expected_price sell_qty in
                let e :=
                  record_slippage sym "sell" expected_price actual_price
                    actual_qty_filled order_id e in
                let entry := _safe_float (Some (entry_price pos)) actual_price in
                let entry := if entry <=? 0 then actual_price else entry in
                let profit := (actual_price - entry) * actual_qty_filled in
                let e := register_trade_result profit e in
                let e :=
                  if trade_logger ex
                  then log_exit sym actual_price
                         (if String.eqb reason "" then "매도 체결" else reason) e
                  else e in
                let e := _remove_sl_pending sym e in
                match close_position (pm e) sym actual_price with
                | (Raise _, _) => (false, _send_error_alert "매도 오류" sym e)
                | (Ok _, positions) => (true, with_pm positions e)
                end
            end
  end.

(** The variables of the loop of [_handle_tp_levels]. The tier objects are
    shared between [pos["tp_levels"]] and the sorted list, so the loop
    updates them in place, by position. *)
Record TpLoop : Type := mkTpLoop {
  l_levels : list TpLevel;
  l_qty : Q;
  l_trailing : option Trailing;
  l_changed : bool;
  l_engine : Engine;
}.

Inductive tp_exit : Type :=
  | FullClose      (* the last tier was reached: [market_sell] follows *)
  | LoopEnd.       (* [break] or end of the list *)

(** The [for i, lvl in enumerate(levels)] loop; [order] lists the tiers
    still to visit, [i] is the index of its head in the sorted list of
    length [n]. *)
Fixpoint tp_loop (sym : string) (price initial_qty : Q) (n i : nat)
    (order : list nat) (s : TpLoop) : tp_exit * TpLoop :=
  match order with
  | [] => (LoopEnd, s)
  | k :: rest =>
      match l_levels s !! k with
      | None => tp_loop sym price initial_qty n (S i) rest s
      | Some lvl =>
          if lvl_executed lvl then tp_loop sym price initial_qty n (S i) rest s
          else
            let target := _safe_float (Some (lvl_price lvl)) 0 in
            let portion := _safe_float (Some (lvl_portion lvl)) 0 in
            if (target <=? 0) || (portion <=? 0)
            then tp_loop sym price initial_qty n (S i) rest s
            else if price <? target then (LoopEnd, s)
            else if (i =? n - 1)%nat then (FullClose, s)
            else
              let sell_qty := Py.round (initial_qty * portion) 6 in
              let sell_qty := if l_qty s <? sell_qty then l_qty s else sell_qty in
              if sell_qty <=? 0 then
                tp_loop sym price initial_qty n (S i) rest
                  (mkTpLoop (<[k := set_executed lvl]> (l_levels s)) (l_qty s)
                     (l_trailing s) (l_changed s) (l_engine s))
              else
                let e := add_sell_order sym sell_qty (l_engine s) in
                match create_limit_sell ex sym sell_qty with
                | Raise _ =>
                    (LoopEnd,
                     mkTpLoop (l_levels s) (l_qty s) (l_trailing s) (l_changed s) e)
                | Ok _ =>
                    let qty := l_qty s - sell_qty in
                    let tr :=
                      match l_trailing s with
                      | None => None
                      | Some tr =>
                          let enabled :=
                            if (lvl_id lvl =? 1)%Z then true else tr_enabled tr in
                          let highest := _safe_float (tr_highest_price tr) price in
                          Some (mkTrailing enabled (tr_trigger tr) (tr_offset tr)
                                  (Some (Py.max highest price)))
                      end in
                    let s' :=
                      mkTpLoop (<[k := set_executed lvl]> (l_levels s)) qty tr true e in
                    if qty <=? 0 then (LoopEnd, s')
                    else tp_loop sym price initial_qty n (S i) rest s'
                end
      end
  end.

(** [_handle_tp_levels(symbol, pos, price)] at clock reading [now]. Returns
    the flag, the position dictionary as the call leaves it, and the
    engine. *)
Definition _handle_tp_levels (e : Engine) (sym : string) (pos : Position)
    (price : Q) (now : Q) : bool * Position * Engine :=
  let levels := tp_levels pos in
  match levels with
  | [] => (false, pos, e)
  | _ =>
      let qty := _safe_float (Some (qty pos)) 0 in
      let initial_qty := _safe_float (Some (initial_qty pos)) qty in
      if (initial_qty <=? 0) || (qty <=? 0) then (false, pos, e)
      else
        let order := sorted_by_id levels in
        let '(exit, s) :=
          tp_loop sym price initial_qty (length order) 0 order
            (mkTpLoop levels qty (trailing pos) false e) in
        let pos :=
          set_tp_levels (l_levels s)
            (set_trailing (l_trailing s) (set_qty (l_qty s) pos)) in
        match exit with
        | FullClose =>
            let '(_, e) :=
              market_sell (l_engine s) sym pos "TP3 익절" 1.0 true now in
            (true, pos, e)
        | LoopEnd =>
            if l_changed s then
              let sorted_levels :=
                omap (fun k => l_levels s !! k) order in
              let pos := set_tp_levels sorted_levels pos in
              (false, pos,
               with_pm (snd (update_position (pm (l_engine s)) sym pos)) (l_engine s))
            else (false, pos, l_engine s)
        end
  end.

(** [check_trailing_stop(symbol, pos, price)]. Reading [tr["offset"]]
    when it is [None] raises in the subtraction. *)
Definition check_trailing_stop (e : Engine) (sym : string) (pos : Position)
    (price : Q) : result bool * Position * Engine :=
  match trailing pos with
  | None => (Ok false, pos, e)
  | Some tr =>
      if negb (tr_enabled tr) then (Ok false, pos, e)
      else
        let entry_price := _safe_float (Some (entry_price pos)) price in
        let highest := _safe_float (tr_highest_price tr) entry_price in
        let highest := if highest <=? 0 then price else highest in
        if highest <? price then
          let tr :=
            mkTrailing (tr_enabled tr) (tr_trigger tr) (tr_offset tr) (Some price) in
          let pos := set_trailing (Some tr) pos in
          (Ok false, pos, with_pm (snd (update_position (pm e) sym pos)) e)
        else
          match tr_offset tr with
          | None => (Raise TypeError, pos, e)
          | Some offset =>
              let trigger := highest * (1 - offset) in
              (Ok (price <=? trigger), pos, e)
          end
  end.

End WithExchange.


End ExecutionEngine.

(** ** Concrete settings used in the examples *)

Module Scenarios.

Import PositionManager ExecutionEngine.

(** A fixed capital of 1,000,000 with weight cap 0.55 and minimum order
    5,000. *)
Definition cfg : Config.t :=
  Config.mkConfig true 1000000 false 0.95 5000 0.55 2 false 0.08.

(** One BTC bought at 400,000. *)
Definition held : Store :=
  {["BTC/KRW" := new_pos "BTC/KRW" 1 400000 0.3 0.02 0.01 0.8 "" default_args "t0"]}.

(** 500,000 KRW free, every coin quoted at 600,000. *)
Definition mkt : RiskManager.Market :=
  RiskManager.mkMarket (Some (500000, 500000)) (fun _ => Some 600000) None.

(** The ladder 103 / 106 / 110 with the given executed flags. *)
Definition ladder (e1 e2 e3 : bool) : list TpLevel :=
  [mkTpLevel 1 "TP1" 103 0.5 e1; mkTpLevel 2 "TP2" 106 0.3 e2;
   mkTpLevel 3 "TP3" 110 0.2 e3].

(** A BTC/KRW position opened with 100 units at 100, now holding [q]. *)
Definition position (q : Q) (e1 e2 e3 : bool) (armed : bool) (high : Q) : Position :=
  set_qty q
    (new_pos "BTC/KRW" 100 100 0.3 0.02 0.01 0.8 ""
       (mkOpenArgs None None "" 0
          (Some (mkTrailing armed (Some 0.03) (Some 0.015) (Some high)))
          (Some (ladder e1 e2 e3)) "scalp" "" 1 "" 1 1 1 1%Z 0.4 (-0.05)
          "neutral" "mid") "t0").

Definition engine (pos : Position) : Engine :=
  mkEngine {["BTC/KRW" := pos]} ∅ ∅ 0 [] [] [] [] [].

Definition filled : Order :=
  mkOrder (Some "1") None None None None None (Some "0000") None None None None.

(** An exchange that quotes [price], holds [total] of every coin and
    accepts every order. *)
Definition exchange (price total : Q) : Exchange :=
  mkExchange (Some (fun _ => Some price)) (fun _ => Ok None)
    (Ok (fun _ => Some total)) (fun _ _ => Ok (Some filled)) None false.

End Scenarios.

(** ** bot/api/rate_limiter.py: usage and the retry wrapper *)

Module Retry.

(** [get_usage_percent] at clock reading [now]: the share of the window in
    use, [0] for a limiter that allows no call. *)
Definition get_usage_percent (self : RateLimiter.t) (now : Q) : Q * RateLimiter.t :=
  let '(remaining, self) := RateLimiter.get_remaining self now in
  let used := (Z.of_nat (RateLimiter.max_calls self) - remaining)%Z in
  (if (0 <? RateLimiter.max_calls self)%nat
   then inject_Z used / inject_Z (Z.of_nat (RateLimiter.max_calls self)) * 100
   else 0,
   self).

Definition lower_char (c : Ascii.ascii) : Ascii.ascii :=
  let n := Ascii.nat_of_ascii c in
  if (65 <=? n)%nat && (n <=? 90)%nat then Ascii.ascii_of_nat (n + 32) else c.

(** [s.lower()] on ASCII letters. *)
Fixpoint lower (s : string) : string :=
  match s with
  | EmptyString => EmptyString
  | String c rest => String (lower_char c) (lower rest)
  end.

(** [x in s] for strings. *)
Fixpoint contains (x s : string) : bool :=
  String.prefix x s ||
  match s with
  | EmptyString => false
  | String _ rest => contains x rest
  end.

(** The signatures that mark a rate-limit failure. *)
Definition RATE_LIMIT_SIGNS : list string :=
  ["429"; "rate limit"; "too many"; "access too frequent"; "exceeded"].

Definition is_rate_limit (error : string) : bool :=
  let error_str := lower error in
  existsb (fun x => contains x error_str) RATE_LIMIT_SIGNS.

(** What one call of the wrapped function does: return a value or raise
    an exception with the given message. *)
Inductive outcome (A : Type) : Type :=
  | Returned (a : A)
  | Raised (error : string).
Arguments Returned {A} a.
Arguments Raised {A} error.

(** How the wrapper ends: with the function's value, by raising the last
    error, or by [raise None] when the loop never ran. *)
Inductive ending (A : Type) : Type :=
  | Value (a : A)
  | Error (error : string)
  | RaiseNone.
Arguments Value {A} a.
Arguments Error {A} error.
Arguments RaiseNone {A}.

Section Wrapper.

Context {A : Type}.
Variables (max_retries : nat) (base_delay max_delay rate_limit_multiplier : Q).

(** [func attempt] is the outcome of the call made in iteration [attempt]. *)
Variable func : nat -> outcome A.

(** The [for attempt in range(max_retries + 1)] loop with [todo]
    iterations to go; the result carries the sleeps made, in order. *)
Fixpoint retry_loop (todo attempt : nat) (delay : Q) (last_error : option string)
    : ending A * list Q :=
  match todo with
  | O =>
      (match last_error with Some e => Error e | None => RaiseNone end, [])
  | S todo =>
      match func attempt with
      | Returned a => (Value a, [])
      | Raised e =>
          if (attempt <? max_retries)%nat then
            let wait :=
              if is_rate_limit e
              then Py.min (delay * rate_limit_multiplier) max_delay
              else Py.min delay max_delay in
            let '(r, waits) := retry_loop todo (S attempt) (delay * 2) (Some e) in
            (r, wait :: waits)
          else retry_loop todo (S attempt) delay (Some e)
      end
  end.

(** The wrapper built by [retry_with_backoff]. *)
Definition wrapper : ending A * list Q :=
  retry_loop (max_retries + 1) 0 base_delay None.

(** The value of [delay] when iteration [i] starts, if every earlier
    iteration slept. *)
Definition delay_at (i : nat) : Q := Nat.iter i (fun d => d * 2) base_delay.

(** The sleep that follows the failure [e] of iteration [i]. *)
Definition wait_after (i : nat) (e : string) : Q :=
  if is_rate_limit e
  then Py.min (delay_at i * rate_limit_multiplier) max_delay
  else Py.min (delay_at i) max_delay.

End Wrapper.

End Retry.

(** ** bot/api/rate_limiter.py: what the counters count *)

Module RateLimiterStats.

Import RateLimiter.

(** The counters of [after] relative to those of [before] when [granted]
    calls were granted and [refused] calls returned [False] in between. *)
Definition counted (before after : t) (granted refused : nat) : Prop :=
  total_calls (stats after) = (total_calls (stats before) + granted)%nat /\
  blocked_calls (stats after) = (blocked_calls (stats before) + refused)%nat /\
  (rate_limit_hits (stats before) + refused <= rate_limit_hits (stats after))%nat /\
  wait_time_total (stats before) <= wait_time_total (stats after).

Definition granted_of (r : result bool) : nat :=
  match r with Ok true => 1 | _ => 0 end.

Definition refused_of (r : result bool) : nat :=
  match r with Ok false => 1 | _ => 0 end.

End RateLimiterStats.

(** ** bot/utils/cache.py: the remaining operations *)

Module CacheMore.

Section CacheManager.

Context {V : Type}.

Implicit Types self : Cache.t V.

(** [ttl_remaining(key)] at clock reading [now]. *)
Definition ttl_remaining self (key : string) (now : Q) : option Q :=
  match Cache._cache self !! key with
  | None => None
  | Some entry => Some (Py.max 0 (Cache.expires_at entry - now))
  end.

Definition expired (now : Q) (entry : Cache.CacheEntry V) : bool :=
  Cache.expires_at entry <? now.

(** [cleanup_expired()] at clock reading [now]. *)
Definition cleanup_expired self (now : Q) : nat * Cache.t V :=
  let st := Cache._stats self in
  let expired_keys :=
    filter (fun kv => expired now (snd kv) = true) (Cache._cache self) in
  let kept :=
    filter (fun kv => expired now (snd kv) = false) (Cache._cache self) in
  (size expired_keys,
   Cache.with_cache kept
     (Cache.mkStats (Cache.s_hits st) (Cache.s_misses st) (Cache.s_sets st)
        (Cache.s_deletes st) (Cache.s_expirations st + size expired_keys)) self).

End CacheManager.

End CacheMore.

(** ** bot/core/circuit_breaker.py: the remaining cooldown *)

Module BreakerMore.

Import CircuitBreaker.

(** [get_remaining_cooldown()] at clock reading [now], in whole minutes. *)
Definition get_remaining_cooldown (self : t) (now : Q) : Z :=
  if negb (is_tripped self) then 0%Z
  else
    match trip_time self with
    | None => 0%Z
    | Some tripped_at =>
        let elapsed := (now - tripped_at) / 60 in
        let remaining := cooldown_minutes self - elapsed in
        Z.max 0 (Py.int remaining)
    end.

(** None of the three trip conditions of [_check_conditions] holds. *)
Definition within_limits (self : t) : Prop :=
  (consecutive_losses self < max_consecutive_losses self)%Z /\
  - max_daily_loss_pct self < daily_pnl_pct self /\
  (api_failures self < max_api_failures self)%Z.

(** The calls that record something, as opposed to queries. *)
Definition records (e : event) : bool :=
  match e with
  | CanTrade => false
  | _ => true
  end.

End BreakerMore.

(** ** bot/core/position_manager.py: stop-loss holds *)

Module SlHold.

(** [self.sl_hold_until]: symbol to expiry, clock readings in seconds. *)
Abbreviation Holds := (gmap string Q).

(** [set_sl_hold(symbol, hours)] at clock reading [now]: returns the expiry. *)
Definition set_sl_hold (holds : Holds) (sym : string) (hours : Q) (now : Q)
    : Q * Holds :=
  let hold_until := now + hours * 3600 in
  (hold_until, <[sym := hold_until]> holds).

(** [is_sl_held(symbol)] at clock reading [now]: an elapsed hold is deleted. *)
Definition is_sl_held (holds : Holds) (sym : string) (now : Q) : bool * Holds :=
  match holds !! sym with
  | None => (false, holds)
  | Some hold_until =>
      if hold_until <=? now then (false, delete sym holds) else (true, holds)
  end.

(** [clear_sl_hold(symbol)] *)
Definition clear_sl_hold (holds : Holds) (sym : string) : Holds :=
  match holds !! sym with
  | Some _ => delete sym holds
  | None => holds
  end.

(** [get_sl_hold_remaining(symbol)] at clock reading [now]: whole minutes
    left, [None] (and the hold deleted) when none are. *)
Definition get_sl_hold_remaining (holds : Holds) (sym : string) (now : Q)
    : option Z * Holds :=
  match holds !! sym with
  | None => (None, holds)
  | Some hold_until =>
      let remaining := (hold_until - now) / 60 in
      if remaining <=? 0 then (None, delete sym holds)
      else (Some (Py.int remaining), holds)
  end.

End SlHold.

(** ** bot/core/risk_manager.py: the limits kept in the manager's state *)

Module RiskMore.

Import RiskManager.

(** Settings of config.py used by the limit checks. *)
Record Limits : Type := mkLimits {
  DAILY_LOSS_LIMIT : Q;
  DRAWDOWN_LIMIT : Q;
  MAX_OPEN_POSITIONS : Z;
}.

Definition default_limits : Limits := mkLimits 0.05 0.10 2.

(** The manager's own state: day baseline and its date (a day number),
    running peak, loss streak. *)
Record RiskState : Type := mkRiskState {
  daily_start_value : option Q;
  daily_date : option Z;
  peak_value : option Q;
  loss_streak : Z;
}.

Definition init : RiskState := mkRiskState None None None 0.

Inductive status : Type := StatusOk | StatusWarning | StatusBlocked.

(** [register_trade_result(profit_krw)] on the streak counter. *)
Definition register_trade_result (streak : Z) (profit_krw : Q) : Z :=
  if profit_krw <? 0 then (streak + 1)%Z else 0%Z.

Definition register_all (streak : Z) (profits : list Q) : Z :=
  foldl register_trade_result streak profits.

(** The number of losing results at the end of a list of results. *)
Fixpoint trailing_losses (reversed : list Q) : nat :=
  match reversed with
  | [] => O
  | p :: rest => if p <? 0 then S (trailing_losses rest) else O
  end.

Section WithConfig.

Variable cfg : Config.t.
Variable lim : Limits.
Variable positions : PositionManager.Store.
Variable mkt : Market.

(** [get_total_capital() / Config.CAPITAL_SAFETY_MARGIN] *)
Definition equity : result Q :=
  div (get_total_capital cfg positions mkt) (Config.CAPITAL_SAFETY_MARGIN cfg).

(** [check_drawdown()]: status, drawdown in percent, new state. *)
Definition check_drawdown (st : RiskState) : result (status * Q * RiskState) :=
  match equity with
  | Raise e => Raise e
  | Ok current_value =>
      let peak :=
        match peak_value st with
        | None => current_value
        | Some p => if p <? current_value then current_value else p
        end in
      let st :=
        mkRiskState (daily_start_value st) (daily_date st) (Some peak)
          (loss_streak st) in
      if peak <=? 0 then Ok (StatusOk, 0, st)
      else
        let drawdown := (peak - current_value) / peak in
        if DRAWDOWN_LIMIT lim <=? drawdown
        then Ok (StatusBlocked, drawdown * 100, st)
        else if DRAWDOWN_LIMIT lim * 0.7 <=? drawdown
        then Ok (StatusWarning, drawdown * 100, st)
        else Ok (StatusOk, drawdown * 100, st)
  end.

(** [check_loss_streak()] *)
Definition check_loss_streak (st : RiskState) : status :=
  let max_streak := if aggressive cfg then 5%Z else 3%Z in
  if (max_streak <=? loss_streak st)%Z then StatusBlocked else StatusOk.

End WithConfig.

End RiskMore.

(** ** bot/core/execution_engine.py: buying and the per-tick check *)

Module Trading.

Import PositionManager ExecutionEngine.

(** The [ai_decision] argument: [None], an empty dictionary, or a
    dictionary with the entries that the engine reads. [d_ai] holds the
    [tp_mult] of [btc_mode] and the confidence ([0.5] when missing). *)
Record Decision : Type := mkDecision {
  d_ai : AiDecision;
  d_position_mult : option Q;       (* btc_mode["position_mult"] *)
  d_tp_ratio : option Q;
  d_tp : option Q;
  d_sl_ratio : option Q;
  d_sl : option Q;
  d_reason : option string;
  d_position_type : option string;
  d_holding_period : option string;
  d_time_config : option (option string * option Q);  (* zone_name, position_mult *)
}.

Inductive AiArg : Type :=
  | NoDecision
  | EmptyDecision
  | Dict (d : Decision).

(** What [if ai_decision:] lets through. *)
Definition ai_of (a : AiArg) : option AiDecision :=
  match a with
  | Dict d => Some (d_ai d)
  | _ => None
  end.

(** [_calculate_dynamic_position_multiplier] *)
Definition _calculate_dynamic_position_multiplier (ai_decision : AiArg) : Q :=
  match ai_decision with
  | NoDecision | EmptyDecision => 1.0
  | Dict d =>
      let position_mult :=
        match d_position_mult d with Some m => m | None => 1.0 end in
      if position_mult <=? 0 then 0.0
      else
        let confidence := confidence (d_ai d) in
        let conf_mult :=
          if 0.85 <=? confidence then 1.3
          else if 0.75 <=? confidence then 1.15
          else if 0.65 <=? confidence then 1.0
          else if 0.55 <=? confidence then 0.85
          else 0.7 in
        let final_mult := position_mult * conf_mult in
        Py.max 0.5 (Py.min 1.6 final_mult)
  end.

(** The answer of [api.create_limit_buy]: the order's [status] and the
    fields read by [_extract_fill_info]. *)
Record BuyOrder : Type := mkBuyOrder {
  b_status : option string;
  b_fill : Order;
}.

(** The buying side of the exchange while one engine call runs: the free
    KRW of [api.fetch_balance] and the answer to a buy order (an exception,
    an empty answer or an order). *)
Record BuyApi : Type := mkBuyApi {
  krw_free : result Q;
  create_limit_buy : string -> Q -> result (option BuyOrder);
}.

Definition REFUSED : list string :=
  ["canceled"; "cancelled"; "rejected"; "expired"].

(** [dca_levels]: the drop from the entry price that opens each stage. *)
Definition dca_levels (stage : Z) : option Q :=
  if (stage =? 0)%Z then Some 0.02
  else if (stage =? 1)%Z then Some 0.04
  else if (stage =? 2)%Z then Some 0.06
  else if (stage =? 3)%Z then Some 0.09
  else if (stage =? 4)%Z then Some 0.12
  else None.

Section WithExchange.

Variable cfg : Config.t.
Variable ex : Exchange.
Variable api : BuyApi.
Variable mkt : RiskManager.Market.

(** The settings fixed by [__init__] from [AGGRESSIVE_MODE]. *)
Definition aggressive : bool := Config.AGGRESSIVE_MODE cfg.
Definition trailing_trigger : Q := if aggressive then 0.015 else 0.03.
Definition trailing_offset : Q := if aggressive then 0.006 else 0.015.
Definition ai_tp_multiplier : Q := if aggressive then 1.8 else 1.0.
Definition ai_sl_reduction : Q := if aggressive then 0.5 else 1.0.
Definition position_boost : Q := if aggressive then 1.4 else 1.0.
Definition max_dca_stage : Z := if aggressive then 5%Z else 3%Z.

(** The confidence tier stored with the position. *)
Definition stored_conf_mult (ai_conf : Q) : Q :=
  if 0.85 <=? ai_conf then 1.5
  else if 0.70 <=? ai_conf then 1.2
  else if 0.60 <=? ai_conf then 1.0
  else 0.7.

Definition opt {A : Type} (x : option A) (d : A) : A :=
  match x with Some v => v | None => d end.

(** The keyword arguments that [market_buy] passes to [open_position],
    read from a dictionary [d] (the empty one included). *)
Definition open_args (d : option Decision) (ai : option AiDecision)
    (entry_price dynamic_mult : Q) : Q * Q * Q * string * OpenArgs :=
  let get {A : Type} (f : Decision -> option A) : option A :=
    match d with Some d => f d | None => None end in
  let ai_tp :=
    opt (get d_tp_ratio) (opt (get d_tp) 0.02) * ai_tp_multiplier in
  let ai_sl :=
    opt (get d_sl_ratio) (opt (get d_sl) 0.01) * ai_sl_reduction in
  let ai_conf := match d with Some d => confidence (d_ai d) | None => 0.5 end in
  let ai_reason := opt (get d_reason) "" in
  let tp_levels := _build_tp_levels entry_price (Some ai_tp) ai in
  let strat_tp_price := entry_price * (1.0 + ai_tp) in
  let strat_sl_price := entry_price * (1.0 - ai_sl) in
  let trailing :=
    mkTrailing false (Some trailing_trigger) (Some trailing_offset)
      (Some entry_price) in
  let time_config := get d_time_config in
  let time_zone :=
    match time_config with Some (z, _) => opt z "일반" | None => "일반" end in
  let time_mult :=
    match time_config with Some (_, m) => opt m 1.0 | None => 1.0 end in
  (ai_tp, ai_sl, ai_conf, ai_reason,
   mkOpenArgs (Some strat_tp_price) (Some strat_sl_price) "AI 기반 TP/SL"
     ai_conf (Some trailing) (Some tp_levels)
     (opt (get d_position_type) "scalp") (opt (get d_holding_period) "수시간")
     (stored_conf_mult ai_conf) time_zone time_mult
     (_calculate_dynamic_tp_multiplier ai) dynamic_mult
     1%Z 0.4 (-0.05) "neutral" "mid").

(** [market_buy(symbol, krw_amount, ai_decision, pf_weight)] with
    timestamp [now]. The third component lists the buy orders sent to the
    exchange. Any exception inside is caught: the call reports an error and
    returns [False]. *)
Definition market_buy (e : Engine) (sym : string) (krw_amount : Q)
    (ai_decision : AiArg) (pf_weight : Q) (now : string)
    : bool * Engine * list (string * Q) :=
  match krw_free api with
  | Raise _ => (false, _send_error_alert "매수 오류" sym e, [])
  | Ok free_krw =>
      let dynamic_mult := _calculate_dynamic_position_multiplier ai_decision in
      if dynamic_mult <=? 0 then (false, e, [])
      else
        let krw_amount := krw_amount * (position_boost * dynamic_mult) in
        let krw_amount := if free_krw <? krw_amount then free_krw else krw_amount in
        if krw_amount <? inject_Z (Config.MIN_ORDER_AMOUNT cfg) then (false, e, [])
        else
          match _get_price ex sym with
          | None => (false, _send_error_alert "매수 차단" sym e, [])
          | Some expected_price =>
              if expected_price <=? 0
              then (false, _send_error_alert "매수 차단" sym e, [])
              else
                let raw_qty := krw_amount / expected_price in
                let expected_qty := _format_qty sym raw_qty in
                if expected_qty <=? 0
                then (false, _send_error_alert "매수 차단" sym e, [])
                else
                  let sent := [(sym, krw_amount)] in
                  match create_limit_buy api sym krw_amount with
                  | Raise _ => (false, _send_error_alert "매수 오류" sym e, sent)
                  | Ok None => (false, _send_error_alert "매수 실패" sym e, sent)
                  | Ok (Some order) =>
                      let order_status := Retry.lower (opt (b_status order) "") in
                      if mem order_status REFUSED
                      then (false, _send_error_alert "매수 거부" sym e, sent)
                      else
                        let '(actual_price, actual_qty, order_id) :=
                          _extract_fill_info (b_fill order) expected_price expected_qty in
                        if (actual_price <=? 0) || (actual_qty <=? 0)
                        then (false, _send_error_alert "매수 실패" sym e, sent)
                        else
                          let e :=
                            record_slippage sym "buy" expected_price actual_price
                              actual_qty order_id e in
                          let entry_price := actual_price in
                          let qty := actual_qty in
                          let dict :=
                            match ai_decision with
                            | NoDecision => None
                            | EmptyDecision => Some None
                            | Dict d => Some (Some d)
                            end in
                          match dict with
                          | None =>
                              (* [ai_decision.get] on [None] raises *)
                              (false, _send_error_alert "매수 오류" sym e, sent)
                          | Some d =>
                              let '(ai_tp, ai_sl, ai_conf, ai_reason, args) :=
                                open_args d (ai_of ai_decision) entry_price
                                  dynamic_mult in
                              let '(_, positions) :=
                                open_position (pm e) sym qty entry_price pf_weight
                                  ai_tp ai_sl ai_conf ai_reason args now in
                              (true, with_pm positions e, sent)
                          end
                  end
          end
  end.

(** [dca_buy(symbol, pos)] with timestamp [now]. Any exception inside is
    caught and the call returns [False]. *)
Definition dca_buy (e : Engine) (sym : string) (pos : Position) (now : string)
    : bool * Engine * list (string * Q) :=
  let stage := dca_stage pos in
  let entry := _safe_float (Some (entry_price pos)) 0 in
  if entry <=? 0 then (false, e, [])
  else
    let max_dca := Config.MAX_DCA_COUNT cfg in
    if (max_dca <=? stage)%Z then (false, e, [])
    else
      match dca_levels stage with
      | None => (false, e, [])
      | Some level =>
          if (max_dca_stage <=? stage)%Z then (false, e, [])
          else
            match _get_price ex sym with
            | None => (false, e, [])
            | Some price =>
                if price <=? 0 then (false, e, [])
                else
                  let diff := (price - entry) / Py.max entry 1 in
                  if - level <? diff then (false, e, [])
                  else
                    match RiskManager.get_available_krw mkt with
                    | Raise _ => (false, e, [])
                    | Ok avail =>
                        if avail <? inject_Z (Config.MIN_ORDER_AMOUNT cfg)
                        then (false, e, [])
                        else
                          let dca_amount :=
                            avail * Config.BASE_TRADE_RISK_RATIO cfg * position_boost in
                          let sent := [(sym, dca_amount)] in
                          match create_limit_buy api sym dca_amount with
                          | Raise _ => (false, e, sent)
                          | Ok None => (false, e, sent)
                          | Ok (Some _) =>
                              let qty := Py.round (dca_amount / price) 4 in
                              match add_dca (pm e) sym qty price now with
                              | (Raise _, _) => (false, e, sent)
                              | (Ok _, positions) => (true, with_pm positions e, sent)
                              end
                          end
                    end
            end
      end.

(** A stop-loss exit: an approval request in SEMI mode, a sale otherwise. *)
Definition stop_loss_exit (e : Engine) (sym : string) (pos : Position)
    (price : Q) (semi_reason auto_reason : string) (now : Q) : Engine :=
  if Config.SEMI_MODE cfg
  then snd (_request_sell_approval ex e sym pos price semi_reason "sl" now)
  else snd (market_sell cfg ex e sym pos auto_reason 1.0 false now).

(** [_apply_legacy_exit(symbol, pos, price, entry)] at clock reading [now]. *)
Definition _apply_legacy_exit (e : Engine) (sym : string) (pos : Position)
    (price entry : Q) (now : Q) : bool * Engine :=
  if entry <=? 0 then (false, e)
  else
    let diff := (price - entry) / Py.max entry 1 in
    let tp_price := _safe_float (tp pos) 0 in
    let sl_price := _safe_float (sl pos) 0 in
    if (0 <? tp_price) && (tp_price <=? price)
    then (true, snd (market_sell cfg ex e sym pos "TP 익절" 1.0 true now))
    else if (0 <? sl_price) && (price <=? sl_price)
    then (true, stop_loss_exit e sym pos price "레거시 SL 도달" "SL 손절" now)
    else
      let ai_tp := _safe_float (Some (ai_tp pos)) 0 in
      let ai_sl := _safe_float (Some (ai_sl pos)) 0 in
      if (0 <? ai_tp) && (ai_tp <=? diff)
      then (true, snd (market_sell cfg ex e sym pos "AI TP 익절" 1.0 true now))
      else if (0 <? ai_sl) && (diff <=? - ai_sl)
      then (true, stop_loss_exit e sym pos price "AI SL 도달" "AI SL 손절" now)
      else (false, e).

(** The position dictionary handed to the loop body is the object held by
    the store: what the body writes into it is seen in the store as long as
    the symbol is stored. *)
Definition shared (sym : string) (pos : Position) (e : Engine) : Engine :=
  match pm e !! sym with
  | Some _ => with_pm (<[sym := pos]> (pm e)) e
  | None => e
  end.

(** The body of the loop of [check_positions] for one [(symbol, pos)], at
    clock reading [now] (timestamp [stamp]). An exception inside is caught
    and ends the body. *)
Definition check_position (e : Engine) (sym : string) (pos : Position)
    (now : Q) (stamp : string) : Engine * list (string * Q) :=
  match _get_price ex sym with
  | None => (e, [])
  | Some price =>
      if price <=? 0 then (e, [])
      else
        let entry := _safe_float (Some (entry_price pos)) 0 in
        if entry <=? 0 then (e, [])
        else
          let has_levels := match tp_levels pos with [] => false | _ => true end in
          let sl_price := _safe_float (sl pos) 0 in
          let ai_sl := _safe_float (Some (ai_sl pos)) 0 in
          let early : option Engine :=
            if has_levels then
              if (0 <? sl_price) && (price <=? sl_price)
              then Some (stop_loss_exit e sym pos price "SL 도달" "SL 손절" now)
              else if (0 <? ai_sl) && (price <=? entry * (1.0 - ai_sl))
              then Some (stop_loss_exit e sym pos price "AI SL 도달" "AI SL 손절" now)
              else None
            else
              let '(done, e') := _apply_legacy_exit e sym pos price entry now in
              if done then Some e' else None in
          match early with
          | Some e => (e, [])
          | None =>
              let '(closed, pos, e) :=
                if has_levels then _handle_tp_levels cfg ex e sym pos price now
                else (false, pos, e) in
              let e := shared sym pos e in
              if closed then (e, [])
              else
                match check_trailing_stop e sym pos price with
                | (Raise _, pos, e) => (shared sym pos e, [])
                | (Ok true, pos, e) =>
                    (stop_loss_exit (shared sym pos e) sym pos price
                       "트레일링 스탑" "트레일링 스탑" now, [])
                | (Ok false, pos, e) =>
                    let e := shared sym pos e in
                    let '(_, e, sent) := dca_buy e sym pos stamp in
                    (e, sent)
                end
          end
  end.

(** [check_positions()]: the snapshot of the store is walked in the
    dictionary's order, given by [symbols]. *)
Definition check_positions (e : Engine) (symbols : list string) (now : Q)
    (stamp : string) : Engine * list (string * Q) :=
  let positions := pm e in
  foldl (fun acc sym =>
           match positions !! sym with
           | None => acc
           | Some pos =>
               let '(e, sent) := check_position (fst acc) sym pos now stamp in
               (e, snd acc ++ sent)
           end) (e, []) symbols.

(** [execute(symbol, final_signal, ai_decision, pf_weight)] *)
Definition execute (e : Engine) (sym final_signal : string)
    (ai_decision : AiArg) (pf_weight : Q) (now : Q) (stamp : string)
    : bool * Engine * list (string * Q) :=
  if String.eqb final_signal "sell" then
    match get_position (pm e) sym with
    | Some pos =>
        if Config.SEMI_MODE cfg then
          match _get_price ex sym with
          | Some current_price =>
              (_request_sell_approval ex e sym pos current_price
                 "전략 신호 매도" "signal" now, [])
          | None => (false, e, [])
          end
        else (market_sell cfg ex e sym pos "전략 신호 매도" 1.0 false now, [])
    | None => (false, e, [])
    end
  else if String.eqb final_signal "buy" then
    if negb aggressive && has_position (pm e) sym then (false, e, [])
    else
      match RiskManager.get_trade_amount cfg (pm e) mkt sym pf_weight false
              None None 0.5 with
      | Raise _ => (false, e, [])
      | Ok krw => market_buy e sym krw ai_decision pf_weight stamp
      end
  else (false, e, []).

End WithExchange.

End Trading.

(** ** bot/core/position_manager.py: the entries of the DCA history *)

Module PositionStoreMore.

Import PositionManager.

(** The history entry written by [add_dca] for a fill [(qty, price)]. *)
Definition fill_of (now : string) (f : Q * Q) : DcaFill :=
  mkDcaFill (fst f) (snd f) now.

End PositionStoreMore.

(** ** bot/core/execution_engine.py: quantities sent in one sweep *)

Module Orders.

(** The total of a list of order quantities. *)
Definition total (quantities : list Q) : Q := foldr Qplus 0 quantities.

(** The orders for [sym] with the given quantities, as logged. *)
Definition orders_of (sym : string) (quantities : list Q) : list (string * Q) :=
  map (pair sym) quantities.

End Orders.

(** ** Relations between two states of the position store *)

Module StoreRel.

Import PositionManager.

(** [after] differs from [before] at most in the record of [sym], and has
    a record for [sym] only if [before] has one. *)
Definition only_touches (sym : string) (before after : Store) : Prop :=
  (forall k, k <> sym -> after !! k = before !! k) /\
  (is_Some (after !! sym) -> is_Some (before !! sym)).

End StoreRel.

(** ** Settings used in the examples of buying *)

Module TradingScenarios.

Import PositionManager ExecutionEngine Trading.

(** 500,000 KRW free; every buy order is accepted and reports no fill
    numbers. *)
Definition buy_api : BuyApi :=
  mkBuyApi (Ok 500000)
    (fun _ _ => Ok (Some (mkBuyOrder (Some "closed") Scenarios.filled))).

Definition empty_engine : Engine := mkEngine ∅ ∅ ∅ 0 [] [] [] [] [].

End TradingScenarios.

(* ================================================================== *)
(** * Properties *)
(* ================================================================== *)

Section PyFacts.

Lemma Qleb_le (x y : Q) : (x <=? y) = true <-> x <= y.
Proof. apply Qle_bool_iff. Qed.

Lemma Qleb_gt (x y : Q) : (x <=? y) = false <-> y < x.
Proof.
  unfold Qleb. split; intros H.
  - apply Qnot_le_lt. intros Hle. apply Qle_bool_iff in Hle. congruence.
  - destruct (Qle_bool x y) eqn:E; [|reflexivity].
    apply Qle_bool_iff in E. lra.
Qed.

Lemma Qltb_lt (x y : Q) : (x <? y) = true <-> x < y.
Proof.
  unfold Qltb. rewrite negb_true_iff. apply (Qleb_gt y x).
Qed.

Lemma Qltb_ge (x y : Q) : (x <? y) = false <-> y <= x.
Proof.
  unfold Qltb. rewrite negb_false_iff. apply (Qleb_le y x).
Qed.

Lemma Qeqb_eq (x y : Q) : (x =? y) = true <-> x == y.
Proof. apply Qeq_bool_iff. Qed.

Lemma Qeqb_neq (x y : Q) : (x =? y) = false <-> ~ x == y.
Proof.
  unfold Qeqb. split; intros H.
  - intros E. apply Qeq_bool_iff in E. congruence.
  - destruct (Qeq_bool x y) eqn:E; [|reflexivity].
    apply Qeq_bool_iff in E. contradiction.
Qed.

Lemma div_ok (x y : Q) : ~ y == 0 -> div x y = Ok (x / y).
Proof.
  intros H. unfold div. apply Qeqb_neq in H. rewrite H. reflexivity.
Qed.

End PyFacts.

(** ** Position store: averaging-in *)

Section AddDca.

Import PositionManager.

Lemma add_dca_found (positions : Store) (sym : string) (pos : Position)
    (q p : Q) (now : string) :
  positions !! sym = Some pos ->
  ~ qty pos + q == 0 ->
  add_dca positions sym q p now =
    (Ok true,
     <[sym := set_dca (dca_stage pos + 1)%Z
                (dca_history pos ++ [mkDcaFill q p now])
                (set_entry_price ((qty pos * entry_price pos + q * p) / (qty pos + q))
                   (set_qty (qty pos + q) pos))]> positions).
Proof.
  intros Hpos Hnz. unfold add_dca. rewrite Hpos.
  rewrite (div_ok _ _ Hnz). reflexivity.
Qed.

(** Invariant carried along a run of DCA fills: the stored quantity is the
    total filled quantity and quantity times entry price is the total
    notional. *)
Lemma add_dcas_totals (fills : list (Q * Q)) :
  forall (positions : Store) (sym : string) (pos : Position) (now : string),
    positions !! sym = Some pos ->
    0 < qty pos ->
    Forall (fun f => 0 < fst f) fills ->
    exists pos',
      add_dcas positions sym fills now !! sym = Some pos' /\
      qty pos' == qty pos + fills_qty fills /\
      entry_price pos' * qty pos' ==
        entry_price pos * qty pos + fills_notional fills /\
      dca_stage pos' = (dca_stage pos + Z.of_nat (length fills))%Z.
Proof.
  induction fills as [|[q p] rest IH]; intros positions sym pos now Hpos Hq0 Hall.
  - exists pos. simpl. repeat split; try lra; try lia. exact Hpos.
  - inversion Hall as [|f l Hq Hrest]; subst. simpl in Hq.
    assert (Hnz : ~ qty pos + q == 0) by lra.
    simpl add_dcas. rewrite (add_dca_found _ _ _ _ _ _ Hpos Hnz). simpl snd.
    match goal with
    | |- context [add_dcas (<[sym := ?p1]> positions)] =>
        destruct (IH (<[sym := p1]> positions) sym p1 now)
          as (pos' & Hl & Hqty & Hnot & Hst)
    end.
    + apply lookup_insert_eq.
    + simpl. lra.
    + exact Hrest.
    + exists pos'. split; [exact Hl|]. simpl in Hqty, Hnot, Hst.
      split; [|split].
      * rewrite Hqty. unfold fills_qty. simpl. lra.
      * rewrite Hnot. unfold fills_notional. simpl. field. exact Hnz.
      * rewrite Hst. rewrite length_cons. lia.
Qed.

(** C1. A DCA fill of quantity q > 0 at price p on a position holding
    q0 > 0 at entry price p0 stores entry price (q0*p0 + q*p)/(q0+q),
    quantity q0+q and dca_stage + 1; after an initial fill and any run of
    DCA fills the entry price is the volume-weighted average of all fills;
    10 @ 100 followed by 5 @ 70 gives entry price 90 and dca_stage 1. *)
Theorem add_dca_volume_weighted_average :
  (forall (positions : Store) (sym : string) (pos : Position) (q p : Q)
          (now : string),
      positions !! sym = Some pos -> 0 < qty pos -> 0 < q ->
      exists pos',
        add_dca positions sym q p now = (Ok true, <[sym := pos']> positions) /\
        entry_price pos' == (qty pos * entry_price pos + q * p) / (qty pos + q) /\
        qty pos' == qty pos + q /\
        dca_stage pos' = (dca_stage pos + 1)%Z) /\
  (forall (positions : Store) (sym : string) (q0 p0 : Q)
          (pf_w a_tp a_sl a_conf : Q) (a_reason : string) (args : OpenArgs)
          (t0 now : string) (fills : list (Q * Q)),
      0 < q0 -> Forall (fun f => 0 < fst f) fills ->
      exists pos',
        add_dcas
          (snd (open_position positions sym q0 p0 pf_w a_tp a_sl a_conf a_reason args t0))
          sym fills now !! sym = Some pos' /\
        entry_price pos' == vwap ((q0, p0) :: fills) /\
        qty pos' == fills_qty ((q0, p0) :: fills) /\
        dca_stage pos' = Z.of_nat (length fills)) /\
  (forall (positions : Store) (sym : string) (pos : Position) (now : string),
      positions !! sym = Some pos ->
      qty pos == 10 -> entry_price pos == 100 -> dca_stage pos = 0%Z ->
      exists pos',
        add_dca positions sym 5 70 now = (Ok true, <[sym := pos']> positions) /\
        entry_price pos' == 90 /\ dca_stage pos' = 1%Z).
Proof.
  split; [|split].
  - intros positions sym pos q p now Hpos Hq0 Hq.
    assert (Hnz : ~ qty pos + q == 0) by lra.
    eexists. split; [apply (add_dca_found _ _ _ _ _ _ Hpos Hnz)|].
    simpl. repeat split; reflexivity.
  - intros positions sym q0 p0 pf_w a_tp a_sl a_conf a_reason args t0 now fills Hq0 Hall.
    simpl snd.
    match goal with
    | |- context [add_dcas (<[sym := ?p1]> positions)] =>
        destruct (add_dcas_totals fills (<[sym := p1]> positions) sym p1 now)
          as (pos' & Hl & Hqty & Hnot & Hst)
    end.
    + apply lookup_insert_eq.
    + simpl. exact Hq0.
    + exact Hall.
    + exists pos'. split; [exact Hl|]. simpl in Hqty, Hnot, Hst.
      assert (Hsum : fills_qty ((q0, p0) :: fills) == q0 + fills_qty fills)
        by (unfold fills_qty; simpl; lra).
      assert (Hpos' : 0 < qty pos').
      { rewrite Hqty. clear -Hq0 Hall.
        induction Hall as [|[q p] l Hq _ IH]; unfold fills_qty in *; simpl in *; lra. }
      split; [|split].
      * unfold vwap. rewrite Hsum, <- Hqty.
        assert (E : entry_price pos' == entry_price pos' * qty pos' / qty pos')
          by (field; lra).
        rewrite E, Hnot.
        assert (N : p0 * q0 + fills_notional fills == fills_notional ((q0, p0) :: fills))
          by (unfold fills_notional; simpl; lra).
        rewrite N. reflexivity.
      * rewrite Hsum. exact Hqty.
      * rewrite Hst. lia.
  - intros positions sym pos now Hpos Hq He Hst.
    assert (Hnz : ~ qty pos + 5 == 0) by lra.
    eexists. split; [apply (add_dca_found _ _ _ _ _ _ Hpos Hnz)|].
    simpl. split; [|lia].
    rewrite Hq, He. reflexivity.
Qed.

(** The statement above at a concrete store: one position of 10 @ 100. *)
Lemma add_dca_volume_weighted_average_witness :
  exists pos',
    add_dca (snd (open_position ∅ "BTC/KRW" 10 100 0.3 0.02 0.01 0.8 "" default_args "t0"))
      "BTC/KRW" 5 70 "t1"
    = (Ok true,
       <["BTC/KRW" := pos']>
         (snd (open_position ∅ "BTC/KRW" 10 100 0.3 0.02 0.01 0.8 "" default_args "t0"))) /\
    entry_price pos' == 90 /\ dca_stage pos' = 1%Z.
Proof.
  destruct add_dca_volume_weighted_average as (_ & _ & H).
  eapply H.
  - apply lookup_insert_eq.
  - reflexivity.
  - reflexivity.
  - reflexivity.
Defined.

End AddDca.

(** ** Rate limiter: the sliding window *)

Section RateWindow.

Import RateLimiter.

Variables (mc : nat) (W : Q).

Local Abbreviation window_inv := (RateLimiter.window_inv mc W).

Lemma popleft_while_split (cutoff : Q) (l : list Q) :
  exists purged,
    l = purged ++ popleft_while cutoff l /\ Forall (fun c => c < cutoff) purged.
Proof.
  induction l as [|c rest IH]; simpl.
  - exists []. split; [reflexivity|constructor].
  - destruct (c <? cutoff) eqn:E.
    + destruct IH as (purged & Heq & Hall).
      exists (c :: purged). split.
      * simpl. f_equal. exact Heq.
      * constructor; [apply Qltb_lt; exact E|exact Hall].
    + exists []. split; [reflexivity|constructor].
Qed.

Lemma popleft_while_length (cutoff : Q) (l : list Q) :
  (length (popleft_while cutoff l) <= length l)%nat.
Proof.
  induction l as [|c rest IH]; simpl; [lia|].
  destruct (c <? cutoff); simpl; lia.
Qed.

Lemma window_old_empty (pre : list Q) (lo hi bound : Q) :
  Forall (fun g => g < bound) pre -> bound <= lo ->
  List.filter (fun g => (lo <=? g) && (g <=? hi)) pre = [].
Proof.
  intros Hall Hb. induction Hall as [|g l Hg _ IH]; simpl; [reflexivity|].
  assert (E : (lo <=? g) = false) by (apply Qleb_gt; lra).
  rewrite E. simpl. exact IH.
Qed.

Lemma window_count_app (l1 l2 : list Q) (w t : Q) :
  grants_in_window (l1 ++ l2) w t =
  (grants_in_window l1 w t + grants_in_window l2 w t)%nat.
Proof.
  unfold grants_in_window. rewrite List.filter_app, length_app. reflexivity.
Qed.

Lemma window_count_le (l : list Q) (w t : Q) :
  (grants_in_window l w t <= length l)%nat.
Proof. unfold grants_in_window. apply List.filter_length_le. Qed.

Lemma window_inv_later (self : t) (clock clock' : Q) (log : list Q) :
  window_inv self clock log -> clock <= clock' -> window_inv self clock' log.
Proof.
  intros (Hmc & Hw & (pre & Hlog & Hpre) & Hle & Hlen & Hwin) Hc.
  repeat split; try assumption.
  - exists pre. split; [exact Hlog|].
    eapply Forall_impl; [exact Hpre|]. simpl. intros g Hg. lra.
  - eapply Forall_impl; [exact Hle|]. simpl. intros g Hg. lra.
Qed.

Lemma window_inv_stats (self : t) (st : RateLimitStats) (clock : Q) (log : list Q) :
  window_inv self clock log ->
  window_inv (mkRateLimiter (max_calls self) (per_seconds self) (calls self) st)
    clock log.
Proof. intros H. exact H. Qed.

(** The locked block keeps the invariant and logs the reading when it grants. *)
Lemma locked_block_inv (self : t) (clock now : Q) (log : list Q) :
  window_inv self clock log -> clock <= now ->
  window_inv (snd (locked_block self now)) now
    (if fst (locked_block self now) then log ++ [now] else log).
Proof.
  intros (Hmc & Hw & (pre & Hlog & Hpre) & Hle & Hlen & Hwin) Hc.
  unfold locked_block, _cleanup_old_calls. simpl.
  destruct (popleft_while_split (now - per_seconds self) (calls self))
    as (purged & Hsplit & Hpurged).
  set (kept := popleft_while (now - per_seconds self) (calls self)) in *.
  assert (Hpre' : Forall (fun g => g < now - W) (pre ++ purged)).
  { apply Forall_app. split.
    - eapply Forall_impl; [exact Hpre|]. simpl. intros g Hg. lra.
    - rewrite <- Hw. exact Hpurged. }
  assert (Hlog' : log = (pre ++ purged) ++ kept).
  { rewrite Hlog, Hsplit at 1. rewrite app_assoc. reflexivity. }
  assert (Hkept : (length kept <= length (calls self))%nat)
    by apply popleft_while_length.
  destruct (length kept <? max_calls self)%nat eqn:E; simpl.
  - apply Nat.ltb_lt in E.
    repeat split; try assumption.
    + exists (pre ++ purged). split; [|exact Hpre'].
      simpl. rewrite Hlog'. rewrite <- !app_assoc. reflexivity.
    + apply Forall_app. split.
      * eapply Forall_impl; [exact Hle|]. simpl. intros g Hg. lra.
      * constructor; [lra|constructor].
    + simpl. rewrite length_app. simpl. lia.
    + intros t. rewrite window_count_app.
      destruct ((t - W <=? now) && (now <=? t)) eqn:Ein.
      * apply andb_true_iff in Ein. destruct Ein as [E1 E2].
        apply Qleb_le in E1. apply Qleb_le in E2.
        rewrite Hlog', window_count_app.
        unfold grants_in_window at 1.
        rewrite (window_old_empty (pre ++ purged) (t - W) t (now - W) Hpre')
          by lra.
        simpl length.
        pose proof (window_count_le kept W t).
        pose proof (window_count_le [now] W t). simpl in *. lia.
      * unfold grants_in_window at 2. simpl. rewrite Ein. simpl.
        specialize (Hwin t). lia.
  - apply Nat.ltb_ge in E.
    repeat split; try assumption.
    + exists (pre ++ purged). split; assumption.
    + eapply Forall_impl; [exact Hle|]. simpl. intros g Hg. lra.
    + simpl. fold kept. lia.
Qed.

Lemma acquire_nowait_inv (self : t) (clock now : Q) (log : list Q) :
  window_inv self clock log -> clock <= now ->
  window_inv (snd (acquire_nowait self now)) now
    (if fst (acquire_nowait self now) then log ++ [now] else log).
Proof.
  intros Hinv Hc. pose proof (locked_block_inv self clock now log Hinv Hc) as H.
  unfold acquire_nowait. destruct (locked_block self now) as [[|] self']; simpl in *.
  - exact H.
  - apply window_inv_stats. exact H.
Qed.

(** One [acquire] call keeps the invariant. *)
Lemma acquire_inv (self : t) (clock : Q) (log : list Q) (c : Call) :
  window_inv self clock log -> timing_ok c ->
  forall r self' clock',
    acquire self (c_wait c) (clock + c_idle c) (c_d1 c) (c_d2 c) = (r, self', clock') ->
    window_inv self' clock'
      (match r with Ok true => log ++ [clock'] | _ => log end).
Proof.
  intros Hinv (Hidle & Hd1 & Hd2) r self' clock' Hacq.
  unfold acquire, acquire_begin in Hacq.
  set (now := clock + c_idle c) in *.
  assert (Hnow : clock <= now) by (unfold now; lra).
  pose proof (locked_block_inv self clock now log Hinv Hnow) as H1.
  destruct (locked_block self now) as [[|] s1]; simpl in *.
  - inversion Hacq; subst. exact H1.
  - destruct (c_wait c); simpl in Hacq.
    + destruct (calls s1) as [|oldest rest] eqn:Hcalls.
      * inversion Hacq; subst. apply (window_inv_later _ now); [exact H1|lra].
      * destruct (0 <? oldest + per_seconds s1 - (now + c_d1 c)) eqn:Ew.
        -- apply Qltb_lt in Ew.
           set (now3 := now + c_d1 c + (oldest + per_seconds s1 - (now + c_d1 c) + 0.1)
                        + c_d2 c) in *.
           assert (H2 : window_inv (add_wait_time
                          (oldest + per_seconds s1 - (now + c_d1 c)) s1) now log)
             by (apply window_inv_stats; exact H1).
           assert (Hn3 : now <= now3) by (unfold now3; lra).
           pose proof (acquire_nowait_inv _ now now3 log H2 Hn3) as H3.
           destruct (acquire_nowait _ now3) as [[|] s3]; simpl in *;
             inversion Hacq; subst; exact H3.
        -- set (now3 := now + c_d1 c + 0 + c_d2 c) in *.
           assert (Hn3 : now <= now3) by (unfold now3; lra).
           pose proof (acquire_nowait_inv _ now now3 log H1 Hn3) as H3.
           destruct (acquire_nowait s1 now3) as [[|] s3]; simpl in *;
             inversion Hacq; subst; exact H3.
    + inversion Hacq; subst. apply window_inv_stats. exact H1.
Qed.

Lemma run_inv (cs : list Call) :
  forall (self : t) (clock : Q) (log : list Q),
    window_inv self clock log -> Forall timing_ok cs ->
    forall self' clock' log',
      run self clock log cs = (self', clock', log') ->
      window_inv self' clock' log'.
Proof.
  induction cs as [|c rest IH]; intros self clock log Hinv Hall self' clock' log' Hrun.
  - simpl in Hrun. inversion Hrun; subst. exact Hinv.
  - inversion Hall as [|c0 l Hc Hrest]; subst.
    simpl in Hrun.
    destruct (acquire self (c_wait c) (clock + c_idle c) (c_d1 c) (c_d2 c))
      as [[r s1] clock1] eqn:Hacq.
    eapply IH; [|exact Hrest|exact Hrun].
    exact (acquire_inv self clock log c Hinv Hc r s1 clock1 Hacq).
Qed.

Lemma init_inv (clock : Q) : window_inv (init mc W) clock [].
Proof.
  unfold window_inv, init. simpl.
  split; [reflexivity|]. split; [reflexivity|]. split.
  { exists []. split; [reflexivity|constructor]. }
  split; [constructor|]. split; [lia|].
  intros t. unfold grants_in_window. simpl. lia.
Qed.

End RateWindow.

(** C2. Along every run of acquire() calls on a limiter created with
    max_calls and window_seconds, no closed interval [t - window_seconds, t]
    contains more than max_calls grant times, and the deque of recorded
    timestamps never holds more than max_calls entries. *)
Theorem sliding_window_never_exceeds_max_calls :
  forall (mc : nat) (W clock0 : Q) (cs : list RateLimiter.Call)
         (self : RateLimiter.t) (clock : Q) (log : list Q),
    Forall RateLimiter.timing_ok cs ->
    RateLimiter.run (RateLimiter.init mc W) clock0 [] cs = (self, clock, log) ->
    (forall t, (RateLimiter.grants_in_window log W t <= mc)%nat) /\
    (length (RateLimiter.calls self) <= mc)%nat.
Proof.
  intros mc W clock0 cs self clock log Hall Hrun.
  pose proof (run_inv mc W cs _ clock0 [] (init_inv mc W clock0) Hall _ _ _ Hrun)
    as (_ & _ & _ & _ & Hlen & Hwin).
  split; assumption.
Qed.

(** The statement above for max_calls = 3 and a 60 s window: three
    immediate calls and a fourth that waits. *)
Lemma sliding_window_never_exceeds_max_calls_witness :
  let call := RateLimiter.mkCall true 0 0 0 in
  let r := RateLimiter.run (RateLimiter.init 3 60) 0 [] [call; call; call; call] in
  (forall t, (RateLimiter.grants_in_window (snd r) 60 t <= 3)%nat) /\
  (length (RateLimiter.calls (fst (fst r))) <= 3)%nat.
Proof.
  intros call r.
  apply (sliding_window_never_exceeds_max_calls 3 60 0 [call; call; call; call]
           (fst (fst r)) (snd (fst r)) (snd r)).
  - repeat constructor; simpl; lra.
  - unfold r.
    destruct (RateLimiter.run (RateLimiter.init 3 60) 0 [] [call; call; call; call])
      as [[self clock] log].
    reflexivity.
Defined.

(** ** Rate limiter: one [acquire] call *)

Section Acquire.

Import RateLimiter.

(** [acquire(wait=False)] is the call the waiting path ends with. *)
Lemma acquire_false_is_nowait (self : t) (now d1 d2 : Q) :
  acquire self false now d1 d2 =
    (Ok (fst (acquire_nowait self now)), snd (acquire_nowait self now), now).
Proof.
  unfold acquire, acquire_begin, acquire_nowait.
  destruct (locked_block self now) as [[|] self']; reflexivity.
Qed.

(** On a deque in time order the purge leaves no timestamp older than the
    cutoff. *)
Lemma popleft_while_purges (cutoff : Q) (l : list Q) :
  StronglySorted Qle l ->
  Forall (fun c => cutoff <= c) (popleft_while cutoff l) /\
  StronglySorted Qle (popleft_while cutoff l).
Proof.
  induction 1 as [|c rest Hs IH Hall]; simpl.
  - split; constructor.
  - destruct (c <? cutoff) eqn:E; [exact IH|].
    apply Qltb_ge in E. split.
    + constructor; [exact E|].
      eapply Forall_impl; [exact Hall|]. simpl. intros x Hx. lra.
    + constructor; assumption.
Qed.

(** With a clock that does not run backwards the locked block keeps the
    deque in time order, and after it every recorded timestamp lies in the
    window [[now - per_seconds, now]]. *)
Lemma locked_block_purges (self : t) (now : Q) :
  0 <= per_seconds self ->
  StronglySorted Qle (calls self) ->
  Forall (fun c => c <= now) (calls self) ->
  let self' := snd (locked_block self now) in
  StronglySorted Qle (calls self') /\
  Forall (fun c => now - per_seconds self <= c /\ c <= now) (calls self').
Proof.
  intros Hw Hs Hle self'.
  destruct (popleft_while_purges (now - per_seconds self) (calls self) Hs)
    as [Hkept Hsorted].
  destruct (popleft_while_split (now - per_seconds self) (calls self))
    as (purged & Hsplit & _).
  assert (Hle' : Forall (fun c => c <= now)
                   (popleft_while (now - per_seconds self) (calls self))).
  { rewrite Hsplit in Hle. apply Forall_app in Hle. tauto. }
  assert (Hboth : Forall (fun c => now - per_seconds self <= c /\ c <= now)
                    (popleft_while (now - per_seconds self) (calls self))).
  { rewrite Forall_forall in *. intros x Hx. split; [apply Hkept|apply Hle']; exact Hx. }
  unfold self', locked_block, _cleanup_old_calls. simpl.
  destruct (length (popleft_while (now - per_seconds self) (calls self))
            <? max_calls self)%nat; simpl.
  - split.
    + clear Hboth Hkept Hsplit.
      induction Hsorted as [|c rest Hs' IH Hall]; simpl.
      * constructor; constructor.
      * inversion Hle' as [|? ? Hc Hrest]; subst.
        constructor; [apply IH; exact Hrest|].
        apply Forall_app. split; [exact Hall|]. constructor; [exact Hc|constructor].
    + apply Forall_app. split; [exact Hboth|].
      constructor; [split; lra|constructor].
  - split; assumption.
Qed.

(** With room in the window the call is granted at once and records the
    clock reading. *)
Lemma acquire_grants_when_room (self : t) (wait : bool) (now d1 d2 : Q) :
  (length (popleft_while (now - per_seconds self) (calls self)) < max_calls self)%nat ->
  exists self',
    acquire self wait now d1 d2 = (Ok true, self', now) /\
    calls self' = popleft_while (now - per_seconds self) (calls self) ++ [now] /\
    total_calls (stats self') = S (total_calls (stats self)).
Proof.
  intros Hroom. apply Nat.ltb_lt in Hroom.
  unfold acquire, acquire_begin, locked_block. simpl. rewrite Hroom.
  eexists. split; [reflexivity|]. simpl. split; reflexivity.
Qed.

(** A full window refuses a call that does not wait and counts it. *)
Lemma acquire_nowait_refuses_when_full (self : t) (now d1 d2 : Q) :
  (max_calls self <= length (popleft_while (now - per_seconds self) (calls self)))%nat ->
  exists self',
    acquire self false now d1 d2 = (Ok false, self', now) /\
    calls self' = popleft_while (now - per_seconds self) (calls self) /\
    blocked_calls (stats self') = S (blocked_calls (stats self)).
Proof.
  intros Hfull. apply Nat.ltb_ge in Hfull.
  unfold acquire, acquire_begin, locked_block. simpl. rewrite Hfull.
  eexists. split; [reflexivity|]. simpl. split; reflexivity.
Qed.

(** A waiting call on a full window is granted after its sleep, provided
    the retry reads the clock strictly after the oldest timestamp has left
    the window. *)
Lemma acquire_wait_succeeds_past_edge (self : t) (now d1 d2 oldest : Q)
    (rest : list Q) :
  popleft_while (now - per_seconds self) (calls self) = oldest :: rest ->
  length (oldest :: rest) = max_calls self ->
  0 <= d1 -> 0 <= d2 ->
  (oldest + per_seconds self - (now + d1) <= 0 ->
   oldest + per_seconds self < now + d1 + d2) ->
  exists self' now3,
    acquire self true now d1 d2 = (Ok true, self', now3) /\
    oldest + per_seconds self < now3 /\
    last (calls self') = Some now3.
Proof.
  intros Hkept Hfull Hd1 Hd2 Hedge.
  unfold acquire, acquire_begin, locked_block. simpl.
  rewrite Hkept. rewrite <- Hfull. rewrite Nat.ltb_irrefl. simpl.
  set (W := per_seconds self) in *.
  destruct (0 <? oldest + W - (now + d1)) eqn:Ew.
  - apply Qltb_lt in Ew.
    set (now3 := now + d1 + (oldest + W - (now + d1) + 0.1) + d2).
    assert (Hpast : oldest < now3 - W) by (unfold now3; lra).
    unfold acquire_nowait, locked_block. simpl. fold W. fold now3.
    assert (Eh : (oldest <? now3 - W) = true) by (apply Qltb_lt; exact Hpast).
    rewrite Eh.
    assert (E : (length (popleft_while (now3 - W) rest) <? S (length rest))%nat = true).
    { apply Nat.ltb_lt. pose proof (popleft_while_length (now3 - W) rest). lia. }
    rewrite E. simpl.
    eexists. exists now3. split; [reflexivity|]. split; [lra|].
    simpl. apply last_snoc.
  - apply Qltb_ge in Ew. specialize (Hedge Ew).
    set (now3 := now + d1 + 0 + d2).
    assert (Hpast : oldest < now3 - W) by (unfold now3; lra).
    unfold acquire_nowait, locked_block. simpl. fold W. fold now3.
    assert (Eh : (oldest <? now3 - W) = true) by (apply Qltb_lt; exact Hpast).
    rewrite Eh.
    assert (E : (length (popleft_while (now3 - W) rest) <? S (length rest))%nat = true).
    { apply Nat.ltb_lt. pose proof (popleft_while_length (now3 - W) rest). lia. }
    rewrite E. simpl.
    eexists. exists now3. split; [reflexivity|]. split; [lra|].
    simpl. apply last_snoc.
Qed.

(** max_calls = 3, window 60 s: three immediate calls are granted, the
    fourth (waiting) sleeps 60.1 s and is granted at clock 60.1. *)
Lemma acquire_scenario_three_then_wait :
  let call := mkCall true 0 0 0 in
  exists self,
    run (init 3 60) 0 [] [call; call; call; call] = (self, 60.1, [0; 0; 0; 60.1]) /\
    calls self = [60.1] /\
    wait_time_total (stats self) = 60.
Proof.
  simpl. eexists. split; [vm_compute; reflexivity|]. split; reflexivity.
Qed.

(** C8 (the code departs from the claim). A waiting call made when the
    oldest recorded timestamp is exactly window_seconds old: the purge
    keeps that timestamp, the computed wait time is 0, so the call does not
    sleep, retries at once without waiting, and returns False, counted as
    blocked; the claim (and the docstring of acquire) has a waiting call
    block and then return True. *)
Theorem acquire_wait_at_window_edge_returns_false :
  let '(r1, self1, _) := acquire (init 1 60) true 0 0 0 in
  let '(r2, self2, clock2) := acquire self1 true 60 0 0 in
  r1 = Ok true /\
  r2 = Ok false /\
  clock2 == 60 /\
  calls self2 = [0] /\
  blocked_calls (stats self2) = 1%nat /\
  wait_time_total (stats self2) == 0.
Proof. vm_compute. repeat split; congruence. Qed.

(** Two threads waiting for the same slot: both find the window full at
    clock 30 and sleep; the retry of the first is granted at 60.1, the
    retry of the second at 60.2 is refused. *)
Lemma acquire_wait_loses_slot_to_other_thread :
  let self0 := mkRateLimiter 1 60 [0] (mkStats 1 0 0 0) in
  let '(a1, self1) := acquire_begin self0 true 30 30 in
  let '(b1, self2) := acquire_begin self1 true 30 30 in
  let '(b2, self3) := acquire_nowait self2 60.1 in
  let '(a2, self4) := acquire_nowait self3 60.2 in
  a1 = Ok (Sleep 30.1) /\ b1 = Ok (Sleep 30.1) /\ b2 = true /\ a2 = false.
Proof. vm_compute. repeat split; reflexivity. Qed.

End Acquire.

(** ** Position store: opening a position *)

Section OpenPosition.

Import PositionManager.

(** C7 (as stated, refuted). A store holding 10 @ 100 for BTC/KRW:
    open_position for the same symbol reports success and the stored record
    is no longer the old one. *)
Lemma open_position_existing_symbol_overwrites :
  ~ (forall (positions : Store) (sym : string) (q price pf_w a_tp a_sl a_conf : Q)
            (a_reason : string) (args : OpenArgs) (now : string),
        is_Some (positions !! sym) ->
        fst (open_position positions sym q price pf_w a_tp a_sl a_conf a_reason args now)
          = false /\
        snd (open_position positions sym q price pf_w a_tp a_sl a_conf a_reason args now)
          !! sym = positions !! sym).
Proof.
  intros H.
  specialize (H {["BTC/KRW" := new_pos "BTC/KRW" 10 100 0.3 0.02 0.01 0.8 ""
                                 default_args "t0"]}
                "BTC/KRW" 1 50 0.3 0.02 0.01 0.8 "" default_args "t1").
  destruct H as [Hret _].
  - rewrite lookup_singleton_eq. eexists. reflexivity.
  - simpl in Hret. discriminate.
Qed.

(** C7 (amended). open_position makes no existence check: in every store,
    also one that already holds the symbol, it reports success and stores
    the freshly built record (given quantity and price, dca_stage 0, no DCA
    history, initial quantity = quantity, trailing stop disabled unless one
    is passed in), replacing any previous record; other symbols are
    untouched. *)
Theorem open_position_always_replaces :
  forall (positions : Store) (sym : string) (q price pf_w a_tp a_sl a_conf : Q)
         (a_reason : string) (args : OpenArgs) (now : string),
    let r := open_position positions sym q price pf_w a_tp a_sl a_conf a_reason args now in
    let pos := new_pos sym q price pf_w a_tp a_sl a_conf a_reason args now in
    fst r = true /\
    snd r !! sym = Some pos /\
    (forall sym', sym' <> sym -> snd r !! sym' = positions !! sym') /\
    qty pos = q /\ entry_price pos = price /\ initial_qty pos = q /\
    dca_stage pos = 0%Z /\ dca_history pos = [] /\
    (a_trailing args = None ->
     trailing pos = Some (mkTrailing false None None (Some price))).
Proof.
  intros positions sym q price pf_w a_tp a_sl a_conf a_reason args now r pos.
  unfold r, pos, open_position. simpl.
  split; [reflexivity|]. split; [apply lookup_insert_eq|].
  split.
  { intros sym' Hne. apply lookup_insert_ne. congruence. }
  repeat split.
  intros Htr. rewrite Htr. reflexivity.
Qed.

End OpenPosition.

(** ** Circuit breaker *)

Section Breaker.

Import CircuitBreaker.

Lemma _trip_tripped_at (self : t) (r : reason) (now : Q) :
  tripped_at (_trip self r now) now (cooldown_minutes self).
Proof. unfold tripped_at, _trip. simpl. repeat split. Qed.

Lemma _daily_reset_check_tripped (self : t) (t0 c now : Q) :
  tripped_at self t0 c -> tripped_at (_daily_reset_check self now) t0 c.
Proof.
  intros H. unfold _daily_reset_check.
  destruct (last_reset_date self <? date now)%Z; [|exact H].
  exact H.
Qed.

Lemma _check_conditions_tripped (self : t) (t0 c now : Q) :
  tripped_at self t0 c -> _check_conditions self now = self.
Proof.
  intros (Htr & _). unfold _check_conditions. rewrite Htr. reflexivity.
Qed.

Lemma can_trade_before_expiry (self : t) (t0 c now : Q) :
  tripped_at self t0 c -> (now - t0) / 60 < c \/ c <= 0 ->
  can_trade self now = (false, self).
Proof.
  intros (Htr & Htt & Hc) Hbefore. unfold can_trade.
  rewrite Htr, Htt, Hc. simpl.
  destruct (0 <? c) eqn:Epos; [|reflexivity].
  apply Qltb_lt in Epos.
  destruct Hbefore as [Hlt|Hle]; [|lra].
  assert (E : (c <=? (now - t0) / 60) = false) by (apply Qleb_gt; exact Hlt).
  rewrite E. reflexivity.
Qed.

(** No recorded event and no early [can_trade] query re-arms the breaker. *)
Lemma step_tripped (self : t) (t0 c : Q) (e : event) (now : Q) :
  tripped_at self t0 c -> before_expiry t0 c (e, now) ->
  tripped_at (step self e now) t0 c.
Proof.
  intros H Hb. destruct e as [pnl pct| | |]; simpl.
  - unfold record_trade.
    pose proof (_daily_reset_check_tripped self t0 c now H) as H1.
    set (s1 := _daily_reset_check self now) in *.
    match goal with
    | |- tripped_at (_check_conditions ?s2 now) _ _ =>
        assert (H2 : tripped_at s2 t0 c) by exact H1;
        rewrite (_check_conditions_tripped s2 t0 c now H2); exact H2
    end.
  - unfold record_api_failure.
    pose proof (_daily_reset_check_tripped self t0 c now H) as H1.
    set (s1 := _daily_reset_check self now) in *.
    match goal with
    | |- tripped_at (_check_conditions ?s2 now) _ _ =>
        assert (H2 : tripped_at s2 t0 c) by exact H1;
        rewrite (_check_conditions_tripped s2 t0 c now H2); exact H2
    end.
  - unfold record_api_success.
    destruct (0 <? api_failures self)%Z; exact H.
  - rewrite (can_trade_before_expiry self t0 c now H Hb). exact H.
Qed.

Lemma steps_tripped (es : list (event * Q)) :
  forall (self : t) (t0 c : Q),
    tripped_at self t0 c -> Forall (before_expiry t0 c) es ->
    tripped_at (steps self es) t0 c.
Proof.
  induction es as [|[e now] rest IH]; intros self t0 c H Hall; simpl.
  - exact H.
  - inversion Hall as [|x l Hb Hrest]; subst.
    apply IH; [|exact Hrest].
    apply step_tripped; assumption.
Qed.

Lemma can_trade_rearmed (self : t) (now : Q) :
  is_tripped self = false -> can_trade self now = (true, self).
Proof. intros H. unfold can_trade. rewrite H. reflexivity. Qed.

(** C6 (as stated, refuted). With cooldown_minutes = 0 the tripped
    breaker still refuses a million seconds after the trip; and after an
    explicit reset the daily P&L figures that caused the trip are still
    there. *)
Lemma breaker_zero_cooldown_stays_tripped_and_reset_keeps_daily_pnl :
  let tripped :=
    record_trade (init 5 3.0 10 0 0) (-4000) (-4) 0 in
  (is_tripped tripped = true /\ trip_time tripped = Some 0 /\
   fst (can_trade tripped 1000000) = false) /\
  (daily_pnl_pct (snd (reset tripped true)) = -4 /\
   daily_pnl (snd (reset tripped true)) = -4000).
Proof. vm_compute. repeat split; reflexivity. Qed.

(** C6 (amended). Once tripped at time t0, every can_trade() call made
    before cooldown_minutes have elapsed returns false, whatever trade
    results and API events are recorded meanwhile (and with
    cooldown_minutes <= 0 it returns false at any time); when
    cooldown_minutes > 0, a can_trade() call made once they have elapsed
    returns true and re-arms the breaker; reset() re-arms a tripped breaker
    at once. Re-arming clears the trip flag, reason and time and sets
    consecutive_losses and api_failures to 0; daily_pnl and daily_pnl_pct
    keep their values. *)
Theorem breaker_tripped_until_cooldown_or_reset :
  forall (self : t) (t0 : Q),
    is_tripped self = true -> trip_time self = Some t0 ->
    (forall (es : list (event * Q)) (now : Q),
        Forall (before_expiry t0 (cooldown_minutes self)) es ->
        before_expiry t0 (cooldown_minutes self) (CanTrade, now) ->
        fst (can_trade (steps self es) now) = false) /\
    (forall now : Q,
        0 < cooldown_minutes self ->
        cooldown_minutes self <= (now - t0) / 60 ->
        fst (can_trade self now) = true /\
        rearmed self (snd (can_trade self now)) /\
        forall later, fst (can_trade (snd (can_trade self now)) later) = true) /\
    (forall manual : bool,
        fst (reset self manual) = true /\
        rearmed self (snd (reset self manual)) /\
        forall later, fst (can_trade (snd (reset self manual)) later) = true).
Proof.
  intros self t0 Htr Htt.
  assert (H : tripped_at self t0 (cooldown_minutes self))
    by (repeat split; assumption).
  split; [|split].
  - intros es now Hall Hnow.
    pose proof (steps_tripped es self t0 _ H Hall) as Hs.
    rewrite (can_trade_before_expiry _ t0 _ now Hs Hnow). reflexivity.
  - intros now Hpos Hel. unfold can_trade. rewrite Htr, Htt. simpl.
    apply Qltb_lt in Hpos. rewrite Hpos.
    apply Qleb_le in Hel. rewrite Hel. simpl.
    split; [reflexivity|]. split; [repeat split|].
    intros later. reflexivity.
  - intros manual. unfold reset. rewrite Htr. simpl.
    split; [reflexivity|]. split; [repeat split|].
    intros later. reflexivity.
Qed.

(** Five losing trades trip the default breaker (30 minutes of cooldown)
    at t = 500 s: a query 10 minutes later is refused, a query 30 minutes
    after the trip is accepted. *)
Lemma breaker_tripped_until_cooldown_or_reset_witness :
  let tripped :=
    steps (init 5 3.0 10 30 0)
      [(RecordTrade (-100) (-0.1), 100); (RecordTrade (-100) (-0.1), 200);
       (RecordTrade (-100) (-0.1), 300); (RecordTrade (-100) (-0.1), 400);
       (RecordTrade (-100) (-0.1), 500)] in
  fst (can_trade (steps tripped [(RecordApiSuccess, 600)]) 1100) = false /\
  fst (can_trade tripped 2300) = true /\
  fst (reset tripped true) = true.
Proof.
  intros tripped.
  destruct (breaker_tripped_until_cooldown_or_reset tripped 500)
    as (Hearly & Hlate & Hreset).
  - reflexivity.
  - reflexivity.
  - split; [|split].
    + refine (Hearly [(RecordApiSuccess, 600)] 1100 _ _).
      * constructor; [|constructor]. left. vm_compute. reflexivity.
      * left. vm_compute. reflexivity.
    + destruct (Hlate 2300) as (Hl & _).
      * vm_compute. reflexivity.
      * vm_compute. discriminate.
      * exact Hl.
    + destruct (Hreset true) as (Hr & _). exact Hr.
Defined.

End Breaker.

(** ** TTL cache: a factory that returns None *)

Section CacheNone.

Import Cache.

Context {V World : Type}.

Implicit Types (self : Cache.t V) (factory : World -> option V * World).

(** A lookup touches no key but its own. *)
Lemma get_other_keys self (key k : string) (now : Q) :
  k <> key -> _cache (snd (get self key now)) !! k = _cache self !! k.
Proof.
  intros Hne. unfold get.
  destruct (_cache self !! key) as [entry|] eqn:E; simpl; [|reflexivity].
  destruct (expires_at entry <? now); simpl.
  - apply lookup_delete_ne. congruence.
  - apply lookup_insert_ne. congruence.
Qed.

(** After a lookup that returned None, the key is absent or holds None. *)
Lemma get_none_key self (key : string) (now : Q) :
  fst (get self key now) = None ->
  _cache (snd (get self key now)) !! key = None \/
  exists e,
    _cache self !! key = Some e /\ value e = None /\
    _cache (snd (get self key now)) !! key =
      Some (mkEntry None (expires_at e) (created_at e) (S (hits e))).
Proof.
  unfold get.
  destruct (_cache self !! key) as [entry|] eqn:E; simpl.
  - destruct (expires_at entry <? now); simpl.
    + intros _. left. apply lookup_delete_eq.
    + intros Hv. right. exists entry. rewrite Hv.
      split; [reflexivity|]. split; [reflexivity|]. apply lookup_insert_eq.
  - intros _. left. exact E.
Qed.

(** A key that is absent or holds None misses at any later time. *)
Lemma get_none_again self (key : string) (now : Q) :
  (_cache self !! key = None \/
   exists e, _cache self !! key = Some e /\ value e = None) ->
  fst (get self key now) = None.
Proof.
  unfold get. intros [E|(e & E & Hv)]; rewrite E; simpl; [reflexivity|].
  destruct (expires_at e <? now); simpl; [reflexivity|exact Hv].
Qed.

(** C10 (as stated, refuted). An expired entry sits under the key; the
    factory returns None; the call returns None and the entry is gone: the
    cache's contents are not what they were. *)
Lemma get_or_set_none_evicts_expired_entry :
  let entry : CacheEntry nat := mkEntry (Some 7%nat) 10 0 0 in
  let self : Cache.t nat := mkCache 60 "price" {["k" := entry]} (mkStats 0 0 1 0 0) in
  let factory := fun w : unit => (None : option nat, w) in
  let r := get_or_set self "k" factory None 20 20 () in
  fst (fst r) = None /\
  _cache self !! "k" = Some entry /\
  _cache (snd (fst r)) !! "k" = None /\
  _cache (snd (fst r)) <> _cache self.
Proof.
  intros entry self factory r.
  assert (H1 : _cache self !! "k" = Some entry) by (vm_compute; reflexivity).
  assert (H2 : _cache (snd (fst r)) !! "k" = None) by (vm_compute; reflexivity).
  split; [reflexivity|]. split; [exact H1|]. split; [exact H2|].
  intros H. rewrite H, H1 in H2. discriminate.
Qed.

(** C10 (amended). When the lookup misses and the factory returns None,
    get_or_set returns None, runs the factory once and performs no set:
    the cache is left as the lookup left it, so every other key is
    untouched, an expired entry under the key has been evicted (a live
    entry holding None only has its hit count incremented), and a cache
    without the key is unchanged; any later get_or_set for that key runs its
    factory again. *)
Theorem get_or_set_none_stores_nothing :
  forall self (key : string) factory (ttl : option Q) (now now2 : Q) (w : World),
    fst (get self key now) = None ->
    fst (factory w) = None ->
    let r := get_or_set self key factory ttl now now2 w in
    let self' := snd (fst r) in
    fst (fst r) = None /\
    snd r = snd (factory w) /\
    self' = snd (get self key now) /\
    s_sets (_stats self') = s_sets (_stats self) /\
    (forall k, k <> key -> _cache self' !! k = _cache self !! k) /\
    (_cache self' !! key = None \/
     exists e,
       _cache self !! key = Some e /\ value e = None /\
       _cache self' !! key =
         Some (mkEntry None (expires_at e) (created_at e) (S (hits e)))) /\
    (_cache self !! key = None -> _cache self' = _cache self) /\
    (forall factory2 (ttl2 : option Q) (t t2 : Q) (w2 : World),
        let r2 := get_or_set self' key factory2 ttl2 t t2 w2 in
        fst (fst r2) = fst (factory2 w2) /\ snd r2 = snd (factory2 w2)).
Proof.
  intros self key factory ttl now now2 w Hmiss Hnone r self'.
  assert (Hr : r = (None, snd (get self key now), snd (factory w))).
  { unfold r, get_or_set.
    destruct (get self key now) as [v s1] eqn:Eg. simpl in Hmiss. subst v.
    destruct (factory w) as [fv w'] eqn:Ef. simpl in Hnone. subst fv.
    reflexivity. }
  assert (Hs : self' = snd (get self key now)) by (unfold self'; rewrite Hr; reflexivity).
  pose proof (get_none_key self key now Hmiss) as Hkey.
  rewrite <- Hs in Hkey.
  split; [rewrite Hr; reflexivity|].
  split; [rewrite Hr; reflexivity|].
  split; [exact Hs|].
  split.
  { rewrite Hs. unfold get.
    destruct (_cache self !! key) as [entry|]; simpl; [|reflexivity].
    destruct (expires_at entry <? now); reflexivity. }
  split.
  { intros k Hne. rewrite Hs. apply get_other_keys. exact Hne. }
  split; [exact Hkey|].
  split.
  { intros Habs. rewrite Hs. unfold get. rewrite Habs. reflexivity. }
  intros factory2 ttl2 t t2 w2 r2.
  assert (Hagain : fst (get self' key t) = None).
  { apply get_none_again. destruct Hkey as [E|(e & _ & _ & E)].
    - left. exact E.
    - right. eexists. split; [exact E|reflexivity]. }
  unfold r2, get_or_set.
  destruct (get self' key t) as [v s2]. simpl in Hagain. subst v.
  destruct (factory2 w2) as [[v2|] w2']; simpl; split; reflexivity.
Qed.

End CacheNone.

(** The statement above on an empty price cache, with a factory that counts
    its calls. *)
Lemma get_or_set_none_stores_nothing_witness :
  let self : Cache.t nat := Cache.init 5 "price" in
  let factory := fun n : nat => (None : option nat, S n) in
  let r := Cache.get_or_set self "BTC/KRW" factory None 100 100 0%nat in
  fst (fst r) = None /\ snd r = 1%nat /\
  Cache._cache (snd (fst r)) = Cache._cache self.
Proof.
  intros self factory r.
  destruct (get_or_set_none_stores_nothing self "BTC/KRW" factory None 100 100 0%nat)
    as (Hv & Hw & _ & _ & _ & _ & Hsame & _).
  - reflexivity.
  - reflexivity.
  - split; [exact Hv|]. split; [exact Hw|]. apply Hsame. reflexivity.
Defined.

(** ** Risk manager: order sizing *)

Section TradeAmount.

Import RiskManager.

Lemma py_max_spec (a b : Q) : Py.max a b == Qmax a b.
Proof.
  unfold Py.max. destruct (a <? b) eqn:E.
  - apply Qltb_lt in E. symmetry. apply Q.max_r. lra.
  - apply Qltb_ge in E. symmetry. apply Q.max_l. exact E.
Qed.

Lemma py_min_le_l (a b : Q) : Py.min a b <= a.
Proof.
  unfold Py.min. destruct (b <? a) eqn:E.
  - apply Qltb_lt in E. lra.
  - lra.
Qed.

Lemma py_min_le_r (a b : Q) : Py.min a b <= b.
Proof.
  unfold Py.min. destruct (b <? a) eqn:E.
  - lra.
  - apply Qltb_ge in E. exact E.
Qed.

Lemma py_max_0_cases (x : Q) :
  (Py.max 0 x = 0 /\ x <= 0) \/ (Py.max 0 x = x /\ 0 < x).
Proof.
  unfold Py.max. destruct (0 <? x) eqn:E.
  - right. apply Qltb_lt in E. split; [reflexivity|exact E].
  - left. apply Qltb_ge in E. split; [reflexivity|exact E].
Qed.

Variable cfg : Config.t.
Variable positions : PositionManager.Store.
Variable mkt : Market.

Local Abbreviation total_capital := (get_total_capital cfg positions mkt).
Local Abbreviation cap := (Config.POSITION_WEIGHT_CAP cfg).
Local Abbreviation min_order := (inject_Z (Config.MIN_ORDER_AMOUNT cfg)).

(** Steps 7 and 9 of [get_trade_amount]: whatever the target, an amount that
    passes the minimum-order test and is not 0 respects the weight cap and
    the free-balance limit. *)
Lemma cap_and_balance_limit (sym : string) (target free_krw r : Q) :
  0 < total_capital ->
  let weight_check := check_position_weight_cap cfg positions mkt sym target in
  let target' :=
    if negb (allowed weight_check) then max_allowed_krw weight_check else target in
  let final_amt := Py.min target' (free_krw * 0.85) in
  (final_amt <? min_order) = false ->
  r = Py.max 0 final_amt ->
  r == 0 \/
  (0 < r /\ min_order <= r /\
   (current_value positions mkt sym + r) / total_capital <= cap /\
   r <= free_krw * 0.85).
Proof.
  intros Hcap weight_check target' final_amt Hmin Hr.
  apply Qltb_ge in Hmin.
  destruct (py_max_0_cases final_amt) as [[E Hle]|[E Hpos]]; rewrite E in Hr.
  - left. rewrite Hr. reflexivity.
  - right. subst r.
    split; [exact Hpos|]. split; [exact Hmin|].
    pose proof (py_min_le_l target' (free_krw * 0.85)) as Hl.
    pose proof (py_min_le_r target' (free_krw * 0.85)) as Hr.
    fold final_amt in Hl, Hr.
    split; [|exact Hr].
    apply Qle_shift_div_r; [exact Hcap|].
    unfold target', weight_check, check_position_weight_cap in Hl.
    assert (Ez : (total_capital <=? 0) = false) by (apply Qleb_gt; exact Hcap).
    rewrite Ez in Hl. simpl in Hl.
    destruct ((current_value positions mkt sym + target) / total_capital <=? cap)
      eqn:Eallowed; simpl in Hl.
    + apply Qleb_le in Eallowed.
      assert (Hw : current_value positions mkt sym + target <= cap * total_capital).
      { apply (Qmult_le_r _ _ total_capital) in Eallowed; [|exact Hcap].
        assert (Hd : (current_value positions mkt sym + target) / total_capital
                     * total_capital
                     == current_value positions mkt sym + target)
          by (field; lra).
        rewrite Hd in Eallowed. exact Eallowed. }
      lra.
    + destruct (py_max_0_cases (cap * total_capital - current_value positions mkt sym))
        as [[E0 H0]|[E1 H1]].
      * rewrite E0 in Hl. lra.
      * rewrite E1 in Hl. lra.
Qed.

(** C5 (amended). With positive total capital, whatever get_trade_amount
    returns is either 0 or a positive amount that is at least the minimum
    order notional, keeps (current symbol value + amount) / total capital
    within the position-weight cap, and does not exceed 85% of the free
    balance. *)
Theorem trade_amount_zero_or_within_cap :
  forall (sym : string) (pf_weight : Q) (is_dca : bool)
         (btc_mode time_config : option Q) (ai_confidence r : Q),
    0 < total_capital ->
    get_trade_amount cfg positions mkt sym pf_weight is_dca btc_mode
      time_config ai_confidence = Ok r ->
    r == 0 \/
    (0 < r /\ min_order <= r /\
     (current_value positions mkt sym + r) / total_capital <= cap /\
     exists krw_total free_krw,
       balance mkt = Some (krw_total, free_krw) /\ r <= free_krw * 0.85).
Proof.
  intros sym pf_weight is_dca btc_mode time_config ai_confidence r Hcap Hget.
  unfold get_trade_amount, get_available_krw in Hget.
  destruct (balance mkt) as [[krw_total free_krw]|] eqn:Ebal; [|discriminate].
  destruct (match btc_mode with Some m => m <=? 0 | None => false end).
  { inversion Hget; subst. left. reflexivity. }
  destruct (is_dca && negb (dca_allowed (check_dca_limit cfg positions sym))).
  { inversion Hget; subst. left. reflexivity. }
  match type of Hget with
  | (if Py.min (if negb (allowed (check_position_weight_cap _ _ _ _ ?tgt)) then _ else _) _
        <? _ then _ else _) = _ =>
      pose proof (cap_and_balance_limit sym tgt free_krw r Hcap) as Htail
  end.
  cbv zeta in Htail.
  match type of Hget with
  | (if ?c then _ else _) = _ => destruct c eqn:Emin
  end.
  { inversion Hget; subst. left. reflexivity. }
  injection Hget as Hr.
  destruct (Htail eq_refl (eq_sym Hr)) as [Hz|(Hp & Hm & Hw & Hf)].
  - left. exact Hz.
  - right. split; [exact Hp|]. split; [exact Hm|]. split; [exact Hw|].
    exists krw_total, free_krw. split; [reflexivity|exact Hf].
Qed.

End TradeAmount.

Section TradeAmountExamples.

Import RiskManager Scenarios.

(** C5 (as stated, refuted). Capital 1,000,000, cap 0.55, and a holding
    that is now worth 600,000 (weight 0.60): the request is answered with 0,
    and (current value + 0) / capital is 0.60, above the cap. *)
Lemma trade_amount_zero_leaves_weight_above_cap :
  get_total_capital cfg held mkt = 1000000 /\
  get_trade_amount cfg held mkt "BTC/KRW" 0.1 false None None 0.5 = Ok 0 /\
  Config.POSITION_WEIGHT_CAP cfg <
    (current_value held mkt "BTC/KRW" + 0) / get_total_capital cfg held mkt.
Proof.
  split; [reflexivity|]. split; [vm_compute; reflexivity|].
  vm_compute. reflexivity.
Qed.

(** The amended statement at a first entry: capital 1,000,000, nothing
    held, weight hint 0.1 at confidence 0.5 gives 70,000. *)
Lemma trade_amount_zero_or_within_cap_witness :
  70000.00 == 0 \/
  (0 < 70000.00 /\ inject_Z (Config.MIN_ORDER_AMOUNT cfg) <= 70000.00 /\
   (current_value ∅ mkt "ETH/KRW" + 70000.00) / get_total_capital cfg ∅ mkt
     <= Config.POSITION_WEIGHT_CAP cfg /\
   exists krw_total free_krw,
     balance mkt = Some (krw_total, free_krw) /\ 70000.00 <= free_krw * 0.85).
Proof.
  apply (trade_amount_zero_or_within_cap cfg ∅ mkt "ETH/KRW" 0.1 false None None 0.5).
  - vm_compute. reflexivity.
  - vm_compute. reflexivity.
Defined.

End TradeAmountExamples.

(** ** Execution engine: trailing stop *)

Section TrailingStop.

Import PositionManager ExecutionEngine.

Lemma set_trailing_get (v : option Trailing) (p : Position) :
  trailing (set_trailing v p) = v.
Proof. reflexivity. Qed.

(** A record that is absent or not enabled never triggers and is left alone. *)
Lemma check_trailing_stop_unarmed (e : Engine) (sym : string) (pos : Position)
    (price : Q) :
  (trailing pos = None \/
   exists tr, trailing pos = Some tr /\ tr_enabled tr = false) ->
  check_trailing_stop e sym pos price = (Ok false, pos, e).
Proof.
  intros [Hn|(tr & Hs & Hd)]; unfold check_trailing_stop.
  - rewrite Hn. reflexivity.
  - rewrite Hs, Hd. reflexivity.
Qed.

(** The stored highest price is kept, or replaced by a strictly larger
    current price. *)
Lemma check_trailing_stop_highest (e : Engine) (sym : string) (pos : Position)
    (price : Q) (tr : Trailing) :
  trailing pos = Some tr -> tr_enabled tr = true ->
  exists tr',
    trailing (snd (fst (check_trailing_stop e sym pos price))) = Some tr' /\
    tr_enabled tr' = true /\
    tr_offset tr' = tr_offset tr /\
    (tr_highest_price tr' = tr_highest_price tr \/
     (tr_highest_price tr' = Some price /\
      forall h, tr_highest_price tr = Some h -> h < price)).
Proof.
  intros Hs He. unfold check_trailing_stop. rewrite Hs, He. simpl negb. cbv iota.
  set (sf := _safe_float (tr_highest_price tr) (_safe_float (Some (entry_price pos)) price)).
  destruct ((if sf <=? 0 then price else sf) <? price) eqn:Enew.
  - simpl. eexists. split; [reflexivity|]. simpl.
    split; [reflexivity|]. split; [reflexivity|]. right. split; [reflexivity|].
    intros h Hh. apply Qltb_lt in Enew.
    unfold sf in Enew. rewrite Hh in Enew. simpl in Enew.
    destruct (h <=? 0) eqn:E0; lra.
  - destruct (tr_offset tr) eqn:Eo; simpl; exists tr;
      (split; [exact Hs|]; split; [exact He|];
       split; [first [reflexivity|exact Eo]|]; left; reflexivity).
Qed.

(** The trigger test of an armed record with a positive stored high. *)
Lemma check_trailing_stop_trigger (e : Engine) (sym : string) (pos : Position)
    (price h o : Q) (tr : Trailing) :
  trailing pos = Some tr -> tr_enabled tr = true ->
  tr_highest_price tr = Some h -> 0 < h -> tr_offset tr = Some o ->
  exists b,
    fst (fst (check_trailing_stop e sym pos price)) = Ok b /\
    (b = true <-> price <= h /\ price <= h * (1 - o)).
Proof.
  intros Hs He Hh Hpos Ho. unfold check_trailing_stop.
  rewrite Hs, He, Hh, Ho. simpl.
  assert (E0 : (h <=? 0) = false) by (apply Qleb_gt; exact Hpos).
  rewrite E0.
  destruct (h <? price) eqn:Enew; simpl.
  - apply Qltb_lt in Enew. exists false. split; [reflexivity|].
    split; [discriminate|]. intros [Hle _]. lra.
  - apply Qltb_ge in Enew. eexists. split; [reflexivity|].
    rewrite Qleb_le. split; [intros H; split; assumption|intros [_ H]; exact H].
Qed.

(** The trailing record across the loop of the sweep: the offset and the
    trigger are never written, an enabled record stays enabled, and the
    highest price is kept or becomes the current price, then strictly
    larger than the stored one. *)
Lemma tp_loop_trailing (ex : Exchange) (sym : string) (price initial_qty : Q)
    (n : nat) (order : list nat) :
  forall (i : nat) (s : TpLoop),
    let s' := snd (tp_loop ex sym price initial_qty n i order s) in
    (l_trailing s = None -> l_trailing s' = None) /\
    (forall tr, l_trailing s = Some tr ->
       exists tr',
         l_trailing s' = Some tr' /\
         tr_offset tr' = tr_offset tr /\
         tr_trigger tr' = tr_trigger tr /\
         (tr_enabled tr = true -> tr_enabled tr' = true) /\
         (tr_highest_price tr' = tr_highest_price tr \/
          (tr_highest_price tr' = Some price /\
           forall h, tr_highest_price tr = Some h -> h < price))).
Proof.
  assert (Hsame : forall s : TpLoop,
    (l_trailing s = None -> l_trailing s = None) /\
    (forall tr, l_trailing s = Some tr ->
       exists tr',
         l_trailing s = Some tr' /\
         tr_offset tr' = tr_offset tr /\
         tr_trigger tr' = tr_trigger tr /\
         (tr_enabled tr = true -> tr_enabled tr' = true) /\
         (tr_highest_price tr' = tr_highest_price tr \/
          (tr_highest_price tr' = Some price /\
           forall h, tr_highest_price tr = Some h -> h < price)))).
  { intros s. split; [intros H; exact H|]. intros tr Htr. exists tr.
    split; [exact Htr|]. split; [reflexivity|]. split; [reflexivity|].
    split; [intros H; exact H|]. left. reflexivity. }
  induction order as [|k rest IH]; intros i s; cbn [tp_loop]; [apply Hsame|].
  destruct (l_levels s !! k) as [lvl|]; [|apply IH].
  destruct (lvl_executed lvl); [apply IH|].
  cbv zeta.
  destruct ((_safe_float (Some (lvl_price lvl)) 0 <=? 0)
            || (_safe_float (Some (lvl_portion lvl)) 0 <=? 0)); [apply IH|].
  destruct (price <? _safe_float (Some (lvl_price lvl)) 0); [apply Hsame|].
  destruct (i =? n - 1)%nat; [apply Hsame|].
  set (rq := Py.round (initial_qty * _safe_float (Some (lvl_portion lvl)) 0) 6).
  set (sell_qty := if l_qty s <? rq then l_qty s else rq).
  destruct (sell_qty <=? 0).
  { match goal with
    | |- context [tp_loop ex sym price initial_qty n (S i) rest ?s1] =>
        exact (IH (S i) s1)
    end. }
  destruct (create_limit_sell ex sym sell_qty) as [o|x]; [|apply (Hsame (mkTpLoop _ _ _ _ _))].
  match goal with
  | |- context [if _ then (LoopEnd, ?s1) else _] => set (s1' := s1)
  end.
  assert (Hstep :
    (l_trailing s = None -> l_trailing s1' = None) /\
    (forall tr, l_trailing s = Some tr ->
       exists tr1,
         l_trailing s1' = Some tr1 /\
         tr_offset tr1 = tr_offset tr /\
         tr_trigger tr1 = tr_trigger tr /\
         (tr_enabled tr = true -> tr_enabled tr1 = true) /\
         (tr_highest_price tr1 = tr_highest_price tr \/
          (tr_highest_price tr1 = Some price /\
           forall h, tr_highest_price tr = Some h -> h < price)))).
  { subst s1'. cbn [l_trailing]. split; [intros ->; reflexivity|].
    intros tr ->. eexists. split; [reflexivity|]. cbn [tr_offset tr_trigger tr_enabled tr_highest_price].
    split; [reflexivity|]. split; [reflexivity|].
    split; [intros ->; destruct (lvl_id lvl =? 1)%Z; reflexivity|].
    unfold _safe_float, Py.max.
    destruct (tr_highest_price tr) as [h|].
    - destruct (h <? price) eqn:E.
      + right. split; [reflexivity|]. intros h' Hh'. inversion Hh'; subst h'.
        apply Qltb_lt in E. exact E.
      + left. reflexivity.
    - destruct (price <? price); right; (split; [reflexivity|]); intros h Hh; discriminate. }
  clearbody s1'.
  assert (Hrest : forall s2 : TpLoop,
    ((l_trailing s1' = None -> l_trailing s2 = None) /\
     (forall tr, l_trailing s1' = Some tr ->
        exists tr',
          l_trailing s2 = Some tr' /\
          tr_offset tr' = tr_offset tr /\
          tr_trigger tr' = tr_trigger tr /\
          (tr_enabled tr = true -> tr_enabled tr' = true) /\
          (tr_highest_price tr' = tr_highest_price tr \/
           (tr_highest_price tr' = Some price /\
            forall h, tr_highest_price tr = Some h -> h < price)))) ->
    (l_trailing s = None -> l_trailing s2 = None) /\
    (forall tr, l_trailing s = Some tr ->
       exists tr',
         l_trailing s2 = Some tr' /\
         tr_offset tr' = tr_offset tr /\
         tr_trigger tr' = tr_trigger tr /\
         (tr_enabled tr = true -> tr_enabled tr' = true) /\
         (tr_highest_price tr' = tr_highest_price tr \/
          (tr_highest_price tr' = Some price /\
           forall h, tr_highest_price tr = Some h -> h < price)))).
  { intros s2 [R1 R2]. destruct Hstep as [S1 S2]. split.
    - intros Hn. apply R1. apply S1. exact Hn.
    - intros tr Htr. destruct (S2 tr Htr) as (tr1 & T1 & T2 & T3 & T4 & T5).
      destruct (R2 tr1 T1) as (tr2 & U1 & U2 & U3 & U4 & U5).
      exists tr2. split; [exact U1|]. split; [congruence|]. split; [congruence|].
      split; [intros He; apply U4; apply T4; exact He|].
      destruct U5 as [U5|[U5 U6]].
      + rewrite U5. exact T5.
      + destruct T5 as [T5|[T5 T6]].
        * right. split; [exact U5|]. intros h Hh. apply U6. rewrite T5. exact Hh.
        * right. split; [exact U5|exact T6]. }
  destruct (l_qty s - sell_qty <=? 0).
  - apply Hrest. apply Hsame.
  - apply Hrest. apply IH.
Qed.

(** The same across one call of [_handle_tp_levels]. *)
Lemma handle_tp_levels_trailing (cfg : Config.t) (ex : Exchange) (e : Engine)
    (sym : string) (pos : Position) (price now : Q) :
  let pos' := snd (fst (_handle_tp_levels cfg ex e sym pos price now)) in
  (trailing pos = None -> trailing pos' = None) /\
  (forall tr, trailing pos = Some tr ->
     exists tr',
       trailing pos' = Some tr' /\
       tr_offset tr' = tr_offset tr /\
       tr_trigger tr' = tr_trigger tr /\
       (tr_enabled tr = true -> tr_enabled tr' = true) /\
       (tr_highest_price tr' = tr_highest_price tr \/
        (tr_highest_price tr' = Some price /\
         forall h, tr_highest_price tr = Some h -> h < price))).
Proof.
  assert (Hsame :
    (trailing pos = None -> trailing pos = None) /\
    (forall tr, trailing pos = Some tr ->
       exists tr',
         trailing pos = Some tr' /\
         tr_offset tr' = tr_offset tr /\
         tr_trigger tr' = tr_trigger tr /\
         (tr_enabled tr = true -> tr_enabled tr' = true) /\
         (tr_highest_price tr' = tr_highest_price tr \/
          (tr_highest_price tr' = Some price /\
           forall h, tr_highest_price tr = Some h -> h < price)))).
  { split; [intros H; exact H|]. intros tr Htr. exists tr.
    split; [exact Htr|]. split; [reflexivity|]. split; [reflexivity|].
    split; [intros H; exact H|]. left. reflexivity. }
  unfold _handle_tp_levels.
  destruct (tp_levels pos) as [|l0 ls]; [exact Hsame|].
  cbv zeta.
  match goal with
  | |- context [if ?c || ?d then _ else _] => destruct (c || d)
  end; [exact Hsame|].
  match goal with
  | |- context [tp_loop ex sym price ?iq ?n 0 ?ord ?s0] =>
      pose proof (tp_loop_trailing ex sym price iq n ord 0%nat s0) as Hloop;
      destruct (tp_loop ex sym price iq n 0 ord s0) as [exit s]
  end.
  cbv zeta in Hloop. cbn [snd l_trailing] in Hloop.
  destruct exit.
  - match goal with
    | |- context [market_sell ?a ?b ?c ?d ?p ?f ?g ?h ?i] =>
        destruct (market_sell a b c d p f g h i)
    end. exact Hloop.
  - destruct (l_changed s); exact Hloop.
Qed.

(** C4. check_trailing_stop returns false, changing nothing, for every
    position whose trailing record is absent or not enabled. The stored
    highest_price is written in two places, and in both it is either kept
    or replaced by the current price when that is strictly larger: by
    check_trailing_stop on an enabled record, and by the take-profit sweep
    after a partial sale (which also arms the record at tier 1, never
    disarms it, and leaves an absent record absent); neither of them
    writes the offset. For an enabled record with highest_price h > 0 and
    offset o the stop triggers exactly when the price is <= h and
    <= h*(1-o); for an offset that is not negative that is exactly when the
    price is <= h*(1-o). The offset that market_buy stores with a new
    position is 0.015, or 0.006 in aggressive mode. *)
Theorem trailing_stop_armed_monotone_trigger :
  forall (cfg : Config.t) (ex : Exchange) (e : Engine) (sym : string)
         (pos : Position) (price now : Q),
    let checked := check_trailing_stop e sym pos price in
    let swept := _handle_tp_levels cfg ex e sym pos price now in
    ((trailing pos = None \/
      exists tr, trailing pos = Some tr /\ tr_enabled tr = false) ->
     checked = (Ok false, pos, e)) /\
    (forall tr,
        trailing pos = Some tr -> tr_enabled tr = true ->
        exists tr',
          trailing (snd (fst checked)) = Some tr' /\
          tr_enabled tr' = true /\
          tr_offset tr' = tr_offset tr /\
          (tr_highest_price tr' = tr_highest_price tr \/
           (tr_highest_price tr' = Some price /\
            forall h, tr_highest_price tr = Some h -> h < price))) /\
    (trailing pos = None -> trailing (snd (fst swept)) = None) /\
    (forall tr,
        trailing pos = Some tr ->
        exists tr',
          trailing (snd (fst swept)) = Some tr' /\
          (tr_enabled tr = true -> tr_enabled tr' = true) /\
          tr_offset tr' = tr_offset tr /\
          (tr_highest_price tr' = tr_highest_price tr \/
           (tr_highest_price tr' = Some price /\
            forall h, tr_highest_price tr = Some h -> h < price))) /\
    (forall tr h o,
        trailing pos = Some tr -> tr_enabled tr = true ->
        tr_highest_price tr = Some h -> 0 < h -> tr_offset tr = Some o ->
        exists b,
          fst (fst checked) = Ok b /\
          (b = true <-> price <= h /\ price <= h * (1 - o)) /\
          (0 <= o -> (b = true <-> price <= h * (1 - o)))) /\
    (forall (d : option Trading.Decision) (ai : option AiDecision)
            (entry_price dynamic_mult : Q),
        exists o,
          a_trailing (snd (Trading.open_args cfg d ai entry_price dynamic_mult)) =
            Some (mkTrailing false (Some (Trading.trailing_trigger cfg)) (Some o)
                    (Some entry_price)) /\
          (o = 0.015 \/ o = 0.006) /\ 0 <= o).
Proof.
  intros cfg ex e sym pos price now checked swept.
  split; [|split; [|split; [|split; [|split]]]].
  - apply check_trailing_stop_unarmed.
  - intros tr Hs He.
    destruct (check_trailing_stop_highest e sym pos price tr Hs He)
      as (tr' & H1 & H2 & H3 & H4).
    exists tr'. repeat split; assumption.
  - apply (handle_tp_levels_trailing cfg ex e sym pos price now).
  - intros tr Hs.
    destruct (handle_tp_levels_trailing cfg ex e sym pos price now) as [_ H].
    destruct (H tr Hs) as (tr' & H1 & H2 & _ & H3 & H4).
    exists tr'. split; [exact H1|]. split; [exact H3|]. split; [exact H2|exact H4].
  - intros tr h o Hs He Hh Hpos Ho.
    destruct (check_trailing_stop_trigger e sym pos price h o tr Hs He Hh Hpos Ho)
      as (b & Hb & Hiff).
    exists b. split; [exact Hb|]. split; [exact Hiff|].
    intros Ho0. rewrite Hiff. split; [intros [_ H]; exact H|].
    intros H. split; [|exact H]. nra.
  - intros d ai entry_price dynamic_mult.
    exists (Trading.trailing_offset cfg). split; [reflexivity|].
    unfold Trading.trailing_offset.
    destruct (Trading.aggressive cfg).
    + split; [right; reflexivity|]. vm_compute. discriminate.
    + split; [left; reflexivity|]. vm_compute. discriminate.
Qed.

(** The statement above for the record the engine writes at entry (offset
    0.015), armed, with highest price 100, at the price 98.5 = 100 * 0.985:
    the stop triggers exactly when 98.5 <= 100 * (1 - 0.015). *)
Lemma trailing_stop_armed_monotone_trigger_witness :
  let tr := mkTrailing true (Some 0.03) (Some 0.015) (Some 100) in
  let pos :=
    set_trailing (Some tr)
      (new_pos "BTC/KRW" 1 90 0.3 0.02 0.01 0.8 "" default_args "t0") in
  let e := mkEngine {["BTC/KRW" := pos]} ∅ ∅ 0 [] [] [] [] [] in
  exists b,
    fst (fst (check_trailing_stop e "BTC/KRW" pos 98.5)) = Ok b /\
    (b = true <-> 98.5 <= 100 * (1 - 0.015)).
Proof.
  intros tr pos e.
  destruct (trailing_stop_armed_monotone_trigger Scenarios.cfg
              (Scenarios.exchange 98.5 1) e "BTC/KRW" pos 98.5 0)
    as (_ & _ & _ & _ & H & _).
  destruct (H tr 100 0.015) as (b & Hb & _ & Hiff).
  - reflexivity.
  - reflexivity.
  - reflexivity.
  - reflexivity.
  - reflexivity.
  - exists b. split; [exact Hb|]. apply Hiff. vm_compute. discriminate.
Defined.

End TrailingStop.

(** ** Execution engine: selling with nothing left on the exchange *)

Section ZeroBalanceSell.

Import PositionManager ExecutionEngine.

Lemma _get_price_positive (ex : Exchange) (sym : string) (price : Q) :
  _get_price ex sym = Some price -> 0 < price.
Proof.
  unfold _get_price.
  assert (Hp : forall x : option Q,
             match truthy x with
             | Some p => if 0 <? p then Some p else None
             | None => None
             end = Some price -> 0 < price).
  { intros x. destruct (truthy x) as [p|]; [|discriminate].
    destruct (0 <? p) eqn:E; [|discriminate].
    intros H. inversion H; subst. apply Qltb_lt. exact E. }
  destruct (pf ex) as [get_price|].
  - destruct (match truthy (get_price sym) with
              | Some p => if 0 <? p then Some p else None
              | None => None
              end) as [p|] eqn:Efeed.
    + intros H. inversion H; subst. apply (Hp _ Efeed).
    + destruct (fetch_ticker ex sym) as [last|]; [apply Hp|discriminate].
  - destruct (fetch_ticker ex sym) as [last|]; [apply Hp|discriminate].
Qed.

(** [close_position] deletes the record when the entry price is not 0. *)
Lemma close_position_deletes (positions : Store) (sym : string) (exit_price : Q) :
  (forall p, positions !! sym = Some p -> ~ entry_price p == 0) ->
  exists r, close_position positions sym exit_price = (Ok r, delete sym positions).
Proof.
  intros Hentry. unfold close_position.
  destruct (positions !! sym) as [p|] eqn:E.
  - rewrite (div_ok _ _ (Hentry p eq_refl)). exists true. reflexivity.
  - exists false. rewrite (delete_id _ _ E). reflexivity.
Qed.

(** C9 (as stated, refuted). The exchange holds nothing of the coin, but
    no price can be obtained (no feed, the ticker request fails):
    market_sell returns False and the stored position stays. The same
    happens in SEMI mode for a losing position whose approval is not
    skipped: the call turns into an approval request. *)
Lemma market_sell_zero_balance_without_price_keeps_position :
  let pos := new_pos "BTC/KRW" 1 100 0.3 0.02 0.01 0.8 "" default_args "t0" in
  let e := mkEngine {["BTC/KRW" := pos]} ∅ {["BTC/KRW"]} 0 [] [] [] [] [] in
  let no_price :=
    mkExchange None (fun _ => Raise ApiError) (Ok (fun _ => Some 0))
      (fun _ _ => Raise ApiError) None false in
  let semi :=
    mkExchange (Some (fun _ => Some 90)) (fun _ => Raise ApiError)
      (Ok (fun _ => Some 0)) (fun _ _ => Raise ApiError) (Some true) false in
  (_get_actual_balance no_price "BTC/KRW" <= 0 /\
   fst (market_sell Config.default no_price e "BTC/KRW" pos "" 1 true 0) = false /\
   pm (snd (market_sell Config.default no_price e "BTC/KRW" pos "" 1 true 0))
     !! "BTC/KRW" = Some pos) /\
  (_get_actual_balance semi "BTC/KRW" <= 0 /\
   pm (snd (market_sell Config.default semi e "BTC/KRW" pos "" 1 false 0))
     !! "BTC/KRW" = Some pos).
Proof.
  intros pos e no_price semi.
  split; [split; [|split]|split].
  - vm_compute. discriminate.
  - vm_compute. reflexivity.
  - vm_compute. reflexivity.
  - vm_compute. discriminate.
  - vm_compute. reflexivity.
Qed.

(** C9 (amended). When market_sell obtains a price, is not diverted to the
    SEMI-mode approval request (approval is skipped, or the mode is not
    SEMI, or the position is not at a loss), and the exchange balance of
    the coin resolves to <= 0 (also when the balance request fails), then,
    for a stored position whose entry price is not 0, it calls
    create_limit_sell not at all, removes the symbol from the pending
    approvals, deletes the stored position and returns True. *)
Theorem market_sell_zero_balance_closes_locally :
  forall (cfg : Config.t) (ex : Exchange) (e : Engine) (sym : string)
         (pos : Position) (reason : string) (ratio : Q) (skip_approval : bool)
         (now price : Q),
    _get_price ex sym = Some price ->
    (Config.SEMI_MODE cfg && negb skip_approval && (pnl_pct pos price <? 0)) = false ->
    _get_actual_balance ex sym <= 0 ->
    (forall p, pm e !! sym = Some p -> ~ entry_price p == 0) ->
    let r := market_sell cfg ex e sym pos reason ratio skip_approval now in
    fst r = true /\
    snd r = with_pm (delete sym (pm e)) (_remove_sl_pending sym e) /\
    sell_orders (snd r) = sell_orders e /\
    (sym ∉ sl_pending_symbols (snd r)) /\
    pm (snd r) !! sym = None.
Proof.
  intros cfg ex e sym pos reason ratio skip_approval now price
    Hprice Hsemi Hbal Hentry r.
  assert (Hr : r = (true, with_pm (delete sym (pm e)) (_remove_sl_pending sym e))).
  { unfold r, market_sell. rewrite Hprice.
    pose proof (_get_price_positive ex sym price Hprice) as Hpos.
    assert (E0 : (price <=? 0) = false) by (apply Qleb_gt; exact Hpos).
    rewrite E0, Hsemi.
    apply Qleb_le in Hbal. rewrite Hbal.
    destruct (close_position_deletes (pm (_remove_sl_pending sym e)) sym price)
      as (b & Hclose); [exact Hentry|].
    rewrite Hclose. reflexivity. }
  rewrite Hr. simpl.
  split; [reflexivity|]. split; [reflexivity|]. split; [reflexivity|].
  split; [|apply lookup_delete_eq].
  intros Hin. apply elem_of_difference in Hin as [_ Hn].
  apply Hn. apply elem_of_singleton. reflexivity.
Qed.

(** The statement above in SEMI mode with approval skipped (the call made
    when the last take-profit tier is reached), the coin gone from the
    exchange. *)
Lemma market_sell_zero_balance_closes_locally_witness :
  let pos := new_pos "BTC/KRW" 1 100 0.3 0.02 0.01 0.8 "" default_args "t0" in
  let e := mkEngine {["BTC/KRW" := pos]} ∅ {["BTC/KRW"]} 0 [] [] [] [] [] in
  let ex :=
    mkExchange (Some (fun _ => Some 90)) (fun _ => Raise ApiError)
      (Ok (fun _ => None)) (fun _ _ => Raise ApiError) None false in
  let r := market_sell Config.default ex e "BTC/KRW" pos "" 1 true 0 in
  fst r = true /\
  snd r = with_pm (delete "BTC/KRW" (pm e)) (_remove_sl_pending "BTC/KRW" e) /\
  sell_orders (snd r) = sell_orders e /\
  ("BTC/KRW" ∉ sl_pending_symbols (snd r)) /\
  pm (snd r) !! "BTC/KRW" = None.
Proof.
  intros pos e ex.
  apply (market_sell_zero_balance_closes_locally Config.default ex e "BTC/KRW"
           pos "" 1 true 0 90).
  - reflexivity.
  - reflexivity.
  - vm_compute. discriminate.
  - intros p Hp. simpl in Hp. rewrite lookup_singleton_eq in Hp.
    inversion Hp; subst. vm_compute. discriminate.
Defined.

End ZeroBalanceSell.

(** ** Rounding *)

Section Rounding.

Lemma round_half_even_bounds (y : Q) :
  (Qfloor y <= round_half_even y <= Qfloor y + 1)%Z.
Proof.
  unfold round_half_even.
  destruct (y - inject_Z (Qfloor y) <? 1 # 2); [lia|].
  destruct ((1 # 2) <? y - inject_Z (Qfloor y)); [lia|].
  destruct (Z.even (Qfloor y)); lia.
Qed.

Lemma round_half_even_mono (x y : Q) :
  x <= y -> (round_half_even x <= round_half_even y)%Z.
Proof.
  intros Hxy.
  pose proof (Qfloor_resp_le x y Hxy) as Hf.
  destruct (Z.eq_dec (Qfloor x) (Qfloor y)) as [Heq|Hne].
  - unfold round_half_even. rewrite <- Heq.
    destruct (x - inject_Z (Qfloor x) <? 1 # 2) eqn:E1.
    + destruct (y - inject_Z (Qfloor x) <? 1 # 2); [lia|].
      destruct ((1 # 2) <? y - inject_Z (Qfloor x)); [lia|].
      destruct (Z.even (Qfloor x)); lia.
    + apply Qltb_ge in E1.
      assert (E1' : (y - inject_Z (Qfloor x) <? 1 # 2) = false)
        by (apply Qltb_ge; lra).
      rewrite E1'.
      destruct ((1 # 2) <? x - inject_Z (Qfloor x)) eqn:E2.
      * apply Qltb_lt in E2.
        assert (E2' : ((1 # 2) <? y - inject_Z (Qfloor x)) = true)
          by (apply Qltb_lt; lra).
        rewrite E2'. lia.
      * destruct ((1 # 2) <? y - inject_Z (Qfloor x)).
        -- destruct (Z.even (Qfloor x)); lia.
        -- lia.
  - pose proof (round_half_even_bounds x). pose proof (round_half_even_bounds y).
    lia.
Qed.

Lemma pow10_pos (n : nat) : 0 < inject_Z (10 ^ Z.of_nat n).
Proof.
  replace 0 with (inject_Z 0) by reflexivity. rewrite <- Zlt_Qlt.
  apply Z.pow_pos_nonneg; lia.
Qed.

(** [round(x, n)] is monotone. *)
Lemma round_mono (x y : Q) (n : nat) : x <= y -> Py.round x n <= Py.round y n.
Proof.
  intros Hxy. unfold Py.round.
  pose proof (pow10_pos n) as Hs.
  set (s := inject_Z (10 ^ Z.of_nat n)) in *.
  assert (Hm : x * s <= y * s) by (apply Qmult_le_compat_r; lra).
  pose proof (round_half_even_mono _ _ Hm) as Hr.
  rewrite Zle_Qle in Hr.
  apply Qle_shift_div_l; [exact Hs|].
  assert (E : inject_Z (round_half_even (x * s)) / s * s
              == inject_Z (round_half_even (x * s))) by (field; lra).
  rewrite E. exact Hr.
Qed.

End Rounding.

(** ** Execution engine: the take-profit ladder at entry *)

Section Ladder.

Import PositionManager ExecutionEngine.

Lemma py_min_nonneg (a b : Q) : 0 <= a -> 0 <= b -> 0 <= Py.min a b.
Proof. intros Ha Hb. unfold Py.min. destruct (b <? a); assumption. Qed.

Lemma tp_multiplier_nonneg (ai_decision : option AiDecision) :
  (forall d m, ai_decision = Some d -> btc_tp_mult d = Some m -> 0 <= m) ->
  0 <= _calculate_dynamic_tp_multiplier ai_decision.
Proof.
  intros Hm. unfold _calculate_dynamic_tp_multiplier.
  destruct ai_decision as [d|]; [|lra].
  assert (H0 : 0 <= match btc_tp_mult d with Some m => 1.0 * m | None => 1.0 end).
  { destruct (btc_tp_mult d) as [m|] eqn:E; [|lra].
    specialize (Hm d m eq_refl E). lra. }
  apply py_min_nonneg; [|lra].
  destruct (0.85 <=? confidence d); [lra|].
  destruct (0.70 <=? confidence d); lra.
Qed.

Lemma adjusted_ratio_nonneg (base_ratio : option Q) (ai_decision : option AiDecision) :
  (forall d m, ai_decision = Some d -> btc_tp_mult d = Some m -> 0 <= m) ->
  0 <= adjusted_ratio base_ratio ai_decision.
Proof.
  intros Hm. unfold adjusted_ratio.
  pose proof (tp_multiplier_nonneg ai_decision Hm) as Ht.
  apply py_min_nonneg; [|lra].
  destruct base_ratio as [r|].
  - destruct (r <=? 0) eqn:E.
    + nra.
    + apply Qleb_gt in E. nra.
  - nra.
Qed.

(** The ladder has the three tiers TP1, TP2, TP3 with portions 0.5, 0.3 and
    0.2, none executed; with a non-negative entry price and TP multiplier
    the rounded targets do not decrease. *)
Lemma build_tp_levels_shape (entry_price : Q) (base_ratio : option Q)
    (ai_decision : option AiDecision) :
  exists p1 p2 p3,
    _build_tp_levels entry_price base_ratio ai_decision =
      [mkTpLevel 1 "TP1" p1 0.5 false; mkTpLevel 2 "TP2" p2 0.3 false;
       mkTpLevel 3 "TP3" p3 0.2 false] /\
    (0 <= entry_price ->
     (forall d m, ai_decision = Some d -> btc_tp_mult d = Some m -> 0 <= m) ->
     p1 <= p2 /\ p2 <= p3).
Proof.
  unfold _build_tp_levels. simpl.
  eexists _, _, _. split; [reflexivity|].
  intros He Hm.
  pose proof (adjusted_ratio_nonneg base_ratio ai_decision Hm) as Ha.
  set (a := adjusted_ratio base_ratio ai_decision) in *.
  split; apply round_mono; nra.
Qed.

End Ladder.

(** ** Execution engine: the take-profit sweep *)

Section TpSweep.

Import PositionManager ExecutionEngine.

Variable cfg : Config.t.
Variable ex : Exchange.














End TpSweep.

(** ** Execution engine: the ladder in examples *)

Section LadderExamples.

Import PositionManager ExecutionEngine Scenarios.

(** Ladder 103 / 106 / 110 on 100 units: at 104 tier 1 sells 50 and arms
    the trailing stop, at 107 tier 2 sells 30, at 111 tier 3 sells what the
    exchange still holds and the position is gone. *)
Lemma tp_ladder_scenario :
  let p0 := position 100 false false false false 100 in
  let r1 := _handle_tp_levels Config.default (exchange 104 100) (engine p0)
              "BTC/KRW" p0 104 0 in
  let p1 := snd (fst r1) in
  let r2 := _handle_tp_levels Config.default (exchange 107 50) (snd r1)
              "BTC/KRW" p1 107 0 in
  let p2 := snd (fst r2) in
  let r3 := _handle_tp_levels Config.default (exchange 111 20) (snd r2)
              "BTC/KRW" p2 111 0 in
  (fst (fst r1) = false /\ qty p1 == 50 /\
   map lvl_executed (tp_levels p1) = [true; false; false] /\
   option_map tr_enabled (trailing p1) = Some true /\
   pm (snd r1) !! "BTC/KRW" = Some p1) /\
  (fst (fst r2) = false /\ qty p2 == 20 /\
   map lvl_executed (tp_levels p2) = [true; true; false] /\
   pm (snd r2) !! "BTC/KRW" = Some p2) /\
  (fst (fst r3) = true /\
   map fst (sell_orders (snd r3)) = ["BTC/KRW"; "BTC/KRW"; "BTC/KRW"] /\
   Forall2 Qeq (map snd (sell_orders (snd r3))) [50; 30; 19.99] /\
   pm (snd r3) !! "BTC/KRW" = None).
Proof.
  intros p0 r1 p1 r2 p2 r3.
  split; [|split].
  - split; [vm_compute; reflexivity|]. split; [vm_compute; reflexivity|].
    split; [vm_compute; reflexivity|]. split; vm_compute; reflexivity.
  - split; [vm_compute; reflexivity|]. split; [vm_compute; reflexivity|].
    split; vm_compute; reflexivity.
  - split; [vm_compute; reflexivity|]. split; [vm_compute; reflexivity|].
    split; [|vm_compute; reflexivity].
    vm_compute. repeat constructor.
Qed.


End LadderExamples.

(** ** Further properties of the modelled code *)

Section RateLimiterUsage.

Import RateLimiter.

Lemma used_share_bounds (used mc : nat) :
  (used <= mc)%nat -> (0 < mc)%nat ->
  0 <= inject_Z (Z.of_nat mc - (Z.of_nat mc - Z.of_nat used)) / inject_Z (Z.of_nat mc) * 100
  /\ inject_Z (Z.of_nat mc - (Z.of_nat mc - Z.of_nat used)) / inject_Z (Z.of_nat mc) * 100 <= 100.
Proof.
  intros Hle Hpos.
  replace (Z.of_nat mc - (Z.of_nat mc - Z.of_nat used))%Z with (Z.of_nat used) by lia.
  assert (Hm : 0 < inject_Z (Z.of_nat mc)).
  { change 0 with (inject_Z 0). rewrite <- Zlt_Qlt. lia. }
  assert (Hu : 0 <= inject_Z (Z.of_nat used)).
  { change 0 with (inject_Z 0). rewrite <- Zle_Qle. lia. }
  assert (Hum : inject_Z (Z.of_nat used) <= inject_Z (Z.of_nat mc)).
  { rewrite <- Zle_Qle. lia. }
  set (u := inject_Z (Z.of_nat used)) in *.
  set (m := inject_Z (Z.of_nat mc)) in *.
  assert (H0 : 0 <= u / m).
  { apply Qle_shift_div_l; lra. }
  assert (H1 : u / m <= 1).
  { apply Qle_shift_div_r; lra. }
  split; lra.
Qed.

(** X1. After any run of [acquire] calls on a fresh limiter,
    [get_remaining], asked at any clock reading, answers a number between 0
    and [max_calls], and [get_usage_percent] a share between 0 and 100,
    which is 0 for a limiter that allows no call. *)
Theorem remaining_and_usage_within_bounds :
  forall (mc : nat) (W clock0 : Q) (cs : list Call) (now : Q),
    Forall timing_ok cs ->
    let self := fst (fst (run (init mc W) clock0 [] cs)) in
    (0 <= fst (get_remaining self now) <= Z.of_nat mc)%Z /\
    0 <= fst (Retry.get_usage_percent self now) <= 100 /\
    (mc = 0%nat -> fst (Retry.get_usage_percent self now) = 0).
Proof.
  intros mc W clock0 cs now Hcs self.
  destruct (run (init mc W) clock0 [] cs) as [[s clock] log] eqn:Hrun.
  pose proof (run_inv mc W cs (init mc W) clock0 [] (init_inv mc W clock0) Hcs
                _ _ _ Hrun) as (Hmc & _ & _ & _ & Hlen & _).
  subst self. cbn [fst].
  pose proof (popleft_while_length (now - per_seconds s) (calls s)) as Hp.
  unfold Retry.get_usage_percent, get_remaining, _cleanup_old_calls.
  cbn [fst snd max_calls calls].
  rewrite Hmc.
  set (used := length (popleft_while (now - per_seconds s) (calls s))) in *.
  assert (Hused : (used <= mc)%nat) by lia.
  split; [lia|].
  destruct (0 <? mc)%nat eqn:Hpos.
  - apply Nat.ltb_lt in Hpos. split.
    + apply used_share_bounds; assumption.
    + intros ->. lia.
  - split; [split; lra|]. reflexivity.
Qed.

Lemma remaining_and_usage_within_bounds_witness :
  let call := mkCall true 0 0 0 in
  let self := fst (fst (run (init 3 60) 0 [] [call; call])) in
  (0 <= fst (get_remaining self 30) <= 3)%Z /\
  0 <= fst (Retry.get_usage_percent self 30) <= 100 /\
  (3%nat = 0%nat -> fst (Retry.get_usage_percent self 30) = 0).
Proof.
  apply (remaining_and_usage_within_bounds 3 60 0
           [mkCall true 0 0 0; mkCall true 0 0 0] 30).
  repeat constructor; simpl; lra.
Defined.

End RateLimiterUsage.

Section RateLimiterStats.

Import RateLimiter RateLimiterStats.

Lemma locked_block_counted (self : t) (now : Q) :
  let r := locked_block self now in
  total_calls (stats (snd r)) =
    (total_calls (stats self) + if fst r then 1 else 0)%nat /\
  blocked_calls (stats (snd r)) = blocked_calls (stats self) /\
  rate_limit_hits (stats (snd r)) =
    (rate_limit_hits (stats self) + if fst r then 0 else 1)%nat /\
  wait_time_total (stats (snd r)) = wait_time_total (stats self).
Proof.
  unfold locked_block, _cleanup_old_calls. cbn [calls max_calls stats per_seconds].
  destruct (_ <? _)%nat; cbn; repeat split; lia.
Qed.

Lemma acquire_nowait_counted (self : t) (now : Q) :
  let r := acquire_nowait self now in
  counted self (snd r) (if fst r then 1 else 0) (if fst r then 0 else 1).
Proof.
  unfold acquire_nowait.
  pose proof (locked_block_counted self now) as H. cbv zeta in H.
  destruct (locked_block self now) as [g s]. cbn [fst snd] in *.
  destruct H as (Ht & Hb & Hh & Hw).
  destruct g; cbn [fst snd]; unfold counted, count_blocked; cbn;
    rewrite ?Ht, ?Hb, ?Hh, ?Hw; repeat split; try lia; lra.
Qed.

Lemma counted_trans (a b c : t) (g1 r1 g2 r2 : nat) :
  counted a b g1 r1 -> counted b c g2 r2 -> counted a c (g1 + g2) (r1 + r2).
Proof.
  intros (A1 & A2 & A3 & A4) (B1 & B2 & B3 & B4).
  unfold counted. repeat split; try lia. lra.
Qed.

Lemma acquire_counted (self : t) (wait : bool) (now d1 d2 : Q) :
  let r := acquire self wait now d1 d2 in
  counted self (snd (fst r)) (granted_of (fst (fst r))) (refused_of (fst (fst r))).
Proof.
  unfold acquire, acquire_begin.
  pose proof (locked_block_counted self now) as H. cbv zeta in H.
  destruct (locked_block self now) as [g s]. cbn [fst snd] in *.
  destruct H as (Ht & Hb & Hh & Hw).
  destruct g.
  - cbn. unfold counted. rewrite Ht, Hb, Hh, Hw. repeat split; try lia; lra.
  - destruct wait; cbn [negb].
    + assert (Hs : counted self s 0 0).
      { unfold counted. rewrite Ht, Hb, Hh, Hw. repeat split; try lia; lra. }
      destruct (calls s) as [|oldest rest] eqn:Hc.
      * cbn. exact Hs.
      * destruct (0 <? oldest + per_seconds s - (now + d1)) eqn:Hwt.
        -- apply Qltb_lt in Hwt.
           set (s1 := add_wait_time _ s).
           assert (Hs1 : counted self s1 0 0).
           { destruct Hs as (A1 & A2 & A3 & A4).
             unfold counted, s1, add_wait_time; cbn.
             repeat split; try lia. lra. }
           pose proof (acquire_nowait_counted s1
                         (now + d1 + (oldest + per_seconds s - (now + d1) + 0.1) + d2)) as Hn.
           cbv zeta in Hn.
           destruct (acquire_nowait s1 _) as [r s2]. cbn [fst snd] in *.
           pose proof (counted_trans _ _ _ _ _ _ _ Hs1 Hn) as Hc2.
           destruct r; exact Hc2.
        -- pose proof (acquire_nowait_counted s (now + d1 + 0 + d2)) as Hn.
           cbv zeta in Hn.
           destruct (acquire_nowait s _) as [r s2]. cbn [fst snd] in *.
           pose proof (counted_trans _ _ _ _ _ _ _ Hs Hn) as Hc2.
           destruct r; exact Hc2.
    + cbn. unfold counted, count_blocked; cbn.
      rewrite Ht, Hb, Hh, Hw. repeat split; try lia; lra.
Qed.

Lemma run_counted (cs : list Call) :
  forall (self : t) (clock : Q) (log : list Q),
    let r := run self clock log cs in
    exists granted refused,
      counted self (fst (fst r)) granted refused /\
      length (snd r) = (length log + granted)%nat /\
      (granted + refused <= length cs)%nat.
Proof.
  induction cs as [|c cs IH]; intros self clock log; cbn [run].
  - exists 0%nat, 0%nat. cbn. unfold counted.
    repeat split; try lia; lra.
  - pose proof (acquire_counted self (c_wait c) (clock + c_idle c) (c_d1 c) (c_d2 c)) as Ha.
    cbv zeta in Ha.
    destruct (acquire self (c_wait c) (clock + c_idle c) (c_d1 c) (c_d2 c))
      as [[r s] clock'].
    cbn [fst snd] in Ha.
    cbv zeta.
    match goal with
    | |- context [run s clock' ?l cs] =>
        destruct (IH s clock' l) as (g & f & Hc & Hl & Hn)
    end.
    exists (granted_of r + g)%nat, (refused_of r + f)%nat.
    split; [eapply counted_trans; eassumption|].
    split.
    + rewrite Hl. destruct r as [[|]|]; cbn; rewrite ?length_app; cbn; lia.
    + destruct r as [[|]|]; cbn in *; lia.
Qed.

(** X2. The counters of a limiter add up over any run of [acquire]
    calls on a fresh limiter: [total_calls] is the number of calls granted,
    [blocked_calls] the number of calls that returned [False]; together
    they do not exceed the number of calls made, every blocked call was
    counted as a rate-limit hit, and the accumulated waiting time is not
    negative. *)
Theorem stats_count_granted_and_blocked_calls :
  forall (mc : nat) (W clock0 : Q) (cs : list Call),
    let r := run (init mc W) clock0 [] cs in
    let st := stats (fst (fst r)) in
    total_calls st = length (snd r) /\
    (total_calls st + blocked_calls st <= length cs)%nat /\
    (blocked_calls st <= rate_limit_hits st)%nat /\
    0 <= wait_time_total st.
Proof.
  intros mc W clock0 cs.
  destruct (run_counted cs (init mc W) clock0 []) as (g & f & Hc & Hl & Hn).
  cbv zeta. destruct Hc as (H1 & H2 & H3 & H4). cbn in H1, H2, H3, H4, Hl.
  rewrite H1, H2, Hl. repeat split; try lia. lra.
Qed.

End RateLimiterStats.

Section RetryBackoff.

Import Retry.

Context {A : Type}.
Variables (max_retries : nat) (base_delay max_delay rate_limit_multiplier : Q).
Variable func : nat -> outcome A.

Local Abbreviation loop := (retry_loop max_retries max_delay rate_limit_multiplier func).
Local Abbreviation wait_after := (wait_after base_delay max_delay rate_limit_multiplier).

Lemma wait_after_le (i : nat) (e : string) : wait_after i e <= max_delay.
Proof. unfold Retry.wait_after. destruct (is_rate_limit e); apply py_min_le_r. Qed.

(** The loop up to the first success: [k] failures, each followed by its
    sleep. *)
Lemma retry_loop_first_success (k : nat) :
  forall (todo attempt : nat) (last_error : option string) (a : A)
         (errors : list string),
    length errors = k ->
    (attempt + k <= max_retries)%nat -> (k < todo)%nat ->
    (forall i e, errors !! i = Some e -> func (attempt + i) = Raised e) ->
    func (attempt + k) = Returned a ->
    loop todo attempt (delay_at base_delay attempt) last_error =
      (Value a, imap (fun i e => wait_after (attempt + i) e) errors).
Proof.
  induction k as [|k IH]; intros todo attempt last_error a errors Hlen Hle Htodo Herr Hok.
  - destruct errors; [|discriminate]. destruct todo as [|todo]; [lia|].
    cbn [retry_loop]. rewrite Nat.add_0_r in Hok. rewrite Hok. reflexivity.
  - destruct errors as [|e errors]; [discriminate|]. injection Hlen as Hlen.
    destruct todo as [|todo]; [lia|].
    cbn [retry_loop].
    pose proof (Herr 0%nat e eq_refl) as H0. rewrite Nat.add_0_r in H0. rewrite H0.
    assert (Hlt : (attempt <? max_retries)%nat = true) by (apply Nat.ltb_lt; lia).
    rewrite Hlt.
    change (delay_at base_delay attempt * 2) with (delay_at base_delay (S attempt)).
    rewrite (IH todo (S attempt) (Some e) a errors Hlen); try lia.
    + cbn [imap]. rewrite Nat.add_0_r. f_equal. f_equal.
      apply imap_ext. intros i x _. cbn. f_equal. lia.
    + intros i x Hi. replace (S attempt + i)%nat with (attempt + S i)%nat by lia.
      apply Herr. exact Hi.
    + replace (S attempt + k)%nat with (attempt + S k)%nat by lia. exact Hok.
Qed.

Lemma delay_at_closed_form (i : nat) :
  delay_at base_delay i == base_delay * inject_Z (2 ^ Z.of_nat i).
Proof.
  induction i as [|i IH].
  - unfold delay_at. cbn [Nat.iter nat_rect].
    change (inject_Z (2 ^ Z.of_nat 0)) with 1. lra.
  - change (delay_at base_delay (S i)) with (delay_at base_delay i * 2).
    rewrite IH. rewrite Nat2Z.inj_succ, Z.pow_succ_r by lia.
    rewrite inject_Z_mult. change (inject_Z 2) with 2. lra.
Qed.

(** The loop never ends without an error to raise once an iteration has
    run or an error is known; it sleeps at most once per retry and never
    longer than [max_delay]. *)
Lemma retry_loop_bounds :
  forall (todo attempt : nat) (delay : Q) (last_error : option string),
    (attempt + todo = max_retries + 1)%nat ->
    (0 < todo)%nat \/ is_Some last_error ->
    let r := loop todo attempt delay last_error in
    fst r <> RaiseNone /\
    (length (snd r) <= max_retries - attempt)%nat /\
    Forall (fun w => w <= max_delay) (snd r) /\
    (forall e, fst r = Error e ->
       (length (snd r) = max_retries - attempt)%nat /\
       ((0 < todo)%nat -> func max_retries = Raised e)).
Proof.
  induction todo as [|todo IH]; intros attempt delay last_error Hsum Hsome.
  - destruct Hsome as [H|[e He]]; [lia|]. subst. cbn.
    split; [discriminate|]. split; [lia|]. split; [constructor|].
    intros e' He'. split; [lia|]. intros H; lia.
  - cbn [retry_loop]. destruct (func attempt) as [a|e] eqn:Hf.
    + cbn. split; [discriminate|]. split; [lia|]. split; [constructor|].
      intros e' He'. discriminate.
    + destruct (attempt <? max_retries)%nat eqn:Hlt.
      * apply Nat.ltb_lt in Hlt.
        assert (Hsum' : (S attempt + todo = max_retries + 1)%nat) by lia.
        specialize (IH (S attempt) (delay * 2) (Some e) Hsum'
                      (or_intror (ex_intro _ e eq_refl))).
        cbv zeta in IH.
        destruct (loop todo (S attempt) (delay * 2) (Some e)) as [r waits].
        cbn [fst snd] in *. destruct IH as (H1 & H2 & H3 & H4).
        split; [exact H1|]. split; [cbn; lia|]. split.
        -- constructor; [|exact H3].
           destruct (is_rate_limit e); apply py_min_le_r.
        -- intros e' He'. destruct (H4 e' He') as (H5 & H6).
           split; [cbn; lia|]. intros _. apply H6. lia.
      * apply Nat.ltb_ge in Hlt.
        assert (todo = 0%nat) by lia. subst todo.
        assert (attempt = max_retries) by lia. subst attempt.
        cbn. split; [discriminate|]. split; [lia|]. split; [constructor|].
        intros e' He'. injection He' as <-. split; [lia|]. intros _. exact Hf.
Qed.

End RetryBackoff.

(** X3. If the wrapped function fails [k <= max_retries] times and
    then returns, the wrapper of [retry_with_backoff] returns that value
    after exactly [k] sleeps; the sleep after failure [i] is
    [min(delay, max_delay)], or [min(delay * rate_limit_multiplier,
    max_delay)] for a rate-limit error, where [delay] is
    [base_delay * 2^i]. *)
Theorem retry_returns_first_success_after_backoff :
  forall (A : Type) (max_retries : nat)
         (base_delay max_delay rate_limit_multiplier : Q)
         (func : nat -> Retry.outcome A) (errors : list string) (a : A),
    (length errors <= max_retries)%nat ->
    (forall i e, errors !! i = Some e -> func i = Retry.Raised e) ->
    func (length errors) = Retry.Returned a ->
    Retry.wrapper max_retries base_delay max_delay rate_limit_multiplier func =
      (Retry.Value a,
       imap (Retry.wait_after base_delay max_delay rate_limit_multiplier) errors) /\
    (forall i, Retry.delay_at base_delay i == base_delay * inject_Z (2 ^ Z.of_nat i)).
Proof.
  intros A max_retries base_delay max_delay mult func errors a Hlen Herr Hok.
  split; [|apply delay_at_closed_form].
  unfold Retry.wrapper.
  change base_delay with (Retry.delay_at base_delay 0) at 1.
  rewrite (retry_loop_first_success max_retries base_delay max_delay mult func
             (length errors) (max_retries + 1) 0 None a errors eq_refl);
    try lia; auto.
Qed.

Lemma retry_returns_first_success_after_backoff_witness :
  Retry.wrapper 3 1 30 2
    (fun i => match i with
              | O => Retry.Raised "HTTP 429 Too Many Requests"
              | S O => Retry.Raised "timeout"
              | _ => Retry.Returned 7%nat
              end) =
    (Retry.Value 7%nat,
     imap (Retry.wait_after 1 30 2) ["HTTP 429 Too Many Requests"; "timeout"]) /\
  (forall i, Retry.delay_at 1 i == 1 * inject_Z (2 ^ Z.of_nat i)).
Proof.
  apply (retry_returns_first_success_after_backoff nat 3 1 30 2 _
           ["HTTP 429 Too Many Requests"; "timeout"] 7%nat).
  - simpl. lia.
  - intros [|[|i]] e H; simpl in H; try discriminate; injection H as <-; reflexivity.
  - reflexivity.
Defined.

(** X4. Whatever the wrapped function does, the wrapper of
    [retry_with_backoff] sleeps at most [max_retries] times and never longer
    than [max_delay] at a time, and it never ends in [raise None]; when it
    raises, it has slept exactly [max_retries] times and the exception is
    the one raised by the last of the [max_retries + 1] calls. *)
Theorem retry_sleeps_bounded_and_raises_last_error :
  forall (A : Type) (max_retries : nat)
         (base_delay max_delay rate_limit_multiplier : Q)
         (func : nat -> Retry.outcome A),
    let r := Retry.wrapper max_retries base_delay max_delay rate_limit_multiplier func in
    fst r <> Retry.RaiseNone /\
    (length (snd r) <= max_retries)%nat /\
    Forall (fun w => w <= max_delay) (snd r) /\
    (forall e, fst r = Retry.Error e ->
       length (snd r) = max_retries /\ func max_retries = Retry.Raised e).
Proof.
  intros A max_retries base_delay max_delay mult func.
  assert (Hsum : (0 + (max_retries + 1) = max_retries + 1)%nat) by lia.
  assert (Hpos : (0 < max_retries + 1)%nat) by lia.
  pose proof (retry_loop_bounds max_retries max_delay mult func
                (max_retries + 1) 0 base_delay None Hsum (or_introl Hpos)) as H.
  cbv zeta in *. unfold Retry.wrapper.
  destruct H as (H1 & H2 & H3 & H4).
  split; [exact H1|]. split; [lia|]. split; [exact H3|].
  intros e He. destruct (H4 e He) as (H5 & H6). split; [lia|]. apply H6. lia.
Qed.

Section CacheRoundTrip.

Context {V World : Type}.

Implicit Types self : Cache.t V.

(** X5. A value stored by [set] is returned by [get] at every clock
    reading up to and including its expiry time [now + ttl] (the default TTL
    when none is given), as a hit that is counted on the entry; at any later
    reading [get] returns [None], removes the entry and counts one
    expiration. [ttl_remaining] reports the time left until that expiry,
    and 0 (never a negative number) once it has passed. *)
Theorem set_then_get_until_expiry :
  forall self (key : string) (v : option V) (ttl : option Q) (now t : Q),
    let ttl' := match ttl with Some x => x | None => Cache.default_ttl self end in
    let self1 := Cache.set self key v ttl now in
    let r := Cache.get self1 key t in
    (t <= now + ttl' ->
     fst r = v /\
     Cache._cache (snd r) !! key = Some (Cache.mkEntry v (now + ttl') now 1) /\
     Cache.s_hits (Cache._stats (snd r)) = S (Cache.s_hits (Cache._stats self))) /\
    (now + ttl' < t ->
     fst r = None /\
     Cache._cache (snd r) !! key = None /\
     Cache.s_expirations (Cache._stats (snd r)) =
       S (Cache.s_expirations (Cache._stats self))) /\
    (forall k, k <> key -> Cache._cache (snd r) !! k = Cache._cache self !! k) /\
    (exists left,
       CacheMore.ttl_remaining self1 key t = Some left /\ 0 <= left /\
       (t <= now + ttl' -> left == now + ttl' - t) /\
       (now + ttl' < t -> left = 0)).
Proof.
  intros self key v ttl now t ttl' self1 r.
  subst r self1. unfold Cache.get, Cache.set, CacheMore.ttl_remaining.
  cbn [Cache._cache Cache.with_cache Cache._stats].
  rewrite lookup_insert_eq. cbn [Cache.expires_at Cache.value Cache.created_at Cache.hits].
  fold ttl'.
  assert (Hleft : exists left,
            Some (Py.max 0 (now + ttl' - t)) = Some left /\ 0 <= left /\
            (t <= now + ttl' -> left == now + ttl' - t) /\
            (now + ttl' < t -> left = 0)).
  { eexists. split; [reflexivity|]. unfold Py.max.
    destruct (0 <? now + ttl' - t) eqn:E.
    - apply Qltb_lt in E. split; [lra|]. split; [intros _; reflexivity|].
      intros H. lra.
    - apply Qltb_ge in E. split; [lra|]. split; [intros H; lra|].
      intros _. reflexivity. }
  destruct (now + ttl' <? t) eqn:E.
  - apply Qltb_lt in E. split; [intros H; lra|]. split.
    + intros _. cbn. rewrite lookup_delete_eq. auto.
    + split; [|exact Hleft].
      intros k Hk. cbn. rewrite lookup_delete_ne, lookup_insert_ne by congruence.
      reflexivity.
  - apply Qltb_ge in E. split.
    + intros _. cbn. rewrite lookup_insert_eq. auto.
    + split; [intros H; lra|]. split; [|exact Hleft].
      intros k Hk. cbn. rewrite !lookup_insert_ne by congruence. reflexivity.
Qed.

Lemma size_filter_split (m : gmap string (Cache.CacheEntry V)) (now : Q) :
  size m =
  (size (filter (fun kv => CacheMore.expired now (snd kv) = true) m) +
   size (filter (fun kv => CacheMore.expired now (snd kv) = false) m))%nat.
Proof.
  rewrite <- map_size_disj_union.
  - f_equal. symmetry. apply map_eq. intros k.
    rewrite lookup_union, !map_lookup_filter.
    destruct (m !! k) as [e|]; cbn; [|reflexivity].
    destruct (CacheMore.expired now e) eqn:E.
    + rewrite option_guard_True, option_guard_False by (cbn; congruence). reflexivity.
    + rewrite option_guard_False, option_guard_True by (cbn; congruence). reflexivity.
  - apply map_disjoint_spec. intros k x y Hx Hy.
    apply map_lookup_filter_Some in Hx, Hy. cbn in *.
    destruct Hx as (Hx & Ex), Hy as (Hy & Ey). congruence.
Qed.

(** X6. [cleanup_expired] removes exactly the entries whose expiry
    time lies before the clock reading and leaves every other entry as it
    was; it returns the number of entries removed and adds it to the
    expiration counter; a second sweep at the same reading removes
    nothing, and no lookup at that reading finds an expired entry. *)
Theorem cleanup_expired_removes_exactly_expired :
  forall self (now : Q),
    let r := CacheMore.cleanup_expired self now in
    (forall k,
       Cache._cache (snd r) !! k =
         match Cache._cache self !! k with
         | Some e => if CacheMore.expired now e then None else Some e
         | None => None
         end) /\
    size (Cache._cache self) = (fst r + size (Cache._cache (snd r)))%nat /\
    Cache.s_expirations (Cache._stats (snd r)) =
      (Cache.s_expirations (Cache._stats self) + fst r)%nat /\
    fst (CacheMore.cleanup_expired (snd r) now) = 0%nat /\
    (forall k,
       Cache.s_expirations (Cache._stats (snd (Cache.get (snd r) k now))) =
       Cache.s_expirations (Cache._stats (snd r))).
Proof.
  intros self now r. subst r. unfold CacheMore.cleanup_expired.
  cbn [fst snd Cache._cache Cache.with_cache Cache._stats Cache.s_expirations].
  assert (Hlook : forall k,
    filter (fun kv => CacheMore.expired now (snd kv) = false) (Cache._cache self) !! k =
      match Cache._cache self !! k with
      | Some e => if CacheMore.expired now e then None else Some e
      | None => None
      end).
  { intros k. rewrite map_lookup_filter.
    destruct (Cache._cache self !! k) as [e|]; cbn; [|reflexivity].
    destruct (CacheMore.expired now e) eqn:E.
    - rewrite option_guard_False by (cbn; congruence). reflexivity.
    - rewrite option_guard_True by (cbn; congruence). reflexivity. }
  split; [exact Hlook|].
  split; [apply size_filter_split|].
  split; [reflexivity|].
  split.
  - apply map_size_empty_iff. apply map_eq. intros k.
    rewrite map_lookup_filter, lookup_empty, Hlook.
    destruct (Cache._cache self !! k) as [e|]; cbn; [|reflexivity].
    destruct (CacheMore.expired now e) eqn:E; cbn; [reflexivity|].
    rewrite option_guard_False by (cbn; congruence). reflexivity.
  - intros k. unfold Cache.get.
    cbn [Cache._cache Cache.with_cache Cache._stats]. rewrite Hlook.
    destruct (Cache._cache self !! k) as [e|]; [|reflexivity].
    unfold CacheMore.expired.
    destruct (Cache.expires_at e <? now) eqn:E; [reflexivity|].
    rewrite E. reflexivity.
Qed.

(** X7. When the lookup of [get_or_set] misses and the factory
    returns a value other than [None], the value is returned and stored with
    the TTL counted from the second clock reading; until that expiry every
    further [get_or_set] for the key returns the stored value without
    running its factory. *)
Theorem get_or_set_caches_factory_value :
  forall self (key : string) (factory : World -> option V * World)
         (ttl : option Q) (now now2 : Q) (w w' : World) (v : V),
    fst (Cache.get self key now) = None ->
    factory w = (Some v, w') ->
    let ttl' := match ttl with Some x => x | None => Cache.default_ttl self end in
    let r := Cache.get_or_set self key factory ttl now now2 w in
    fst (fst r) = Some v /\
    snd r = w' /\
    Cache._cache (snd (fst r)) !! key =
      Some (Cache.mkEntry (Some v) (now2 + ttl') now2 0) /\
    (forall (factory2 : World -> option V * World) (ttl2 : option Q)
            (t t2 : Q) (w2 : World),
        t <= now2 + ttl' ->
        let r2 := Cache.get_or_set (snd (fst r)) key factory2 ttl2 t t2 w2 in
        fst (fst r2) = Some v /\ snd r2 = w2).
Proof.
  intros self key factory ttl now now2 w w' v Hmiss Hf ttl' r.
  subst r. unfold Cache.get_or_set.
  destruct (Cache.get self key now) as [g self1] eqn:Hg.
  cbn [fst] in Hmiss. subst g. rewrite Hf. cbn [fst snd].
  assert (Httl : Cache.default_ttl self1 = Cache.default_ttl self).
  { unfold Cache.get in Hg.
    destruct (Cache._cache self !! key) as [e|];
      [destruct (Cache.expires_at e <? now)|];
      apply (f_equal snd) in Hg; cbn [snd] in Hg; subst self1; reflexivity. }
  assert (Hentry :
    Cache._cache (Cache.set self1 key (Some v) ttl now2) !! key =
      Some (Cache.mkEntry (Some v) (now2 + ttl') now2 0)).
  { unfold Cache.set. cbn [Cache._cache Cache.with_cache].
    rewrite lookup_insert_eq. unfold ttl'. rewrite Httl. reflexivity. }
  split; [reflexivity|]. split; [reflexivity|]. split; [exact Hentry|].
  intros factory2 ttl2 t t2 w2 Ht.
  unfold Cache.get. rewrite Hentry.
  cbn [Cache.expires_at Cache.value].
  assert (E : (now2 + ttl' <? t) = false) by (apply Qltb_ge; exact Ht).
  rewrite E. split; reflexivity.
Qed.

End CacheRoundTrip.

Lemma set_then_get_until_expiry_witness :
  let self1 := Cache.set (Cache.init 5 "price") "BTC/KRW" (Some 7%nat) None 100 in
  fst (Cache.get self1 "BTC/KRW" 105) = Some 7%nat /\
  fst (Cache.get self1 "BTC/KRW" 106) = None.
Proof.
  destruct (set_then_get_until_expiry (Cache.init 5 "price") "BTC/KRW"
              (Some 7%nat) None 100 105) as (H1 & _).
  destruct (set_then_get_until_expiry (Cache.init 5 "price") "BTC/KRW"
              (Some 7%nat) None 100 106) as (_ & H2 & _).
  split.
  - apply H1. vm_compute. discriminate.
  - apply H2. reflexivity.
Defined.

Lemma get_or_set_caches_factory_value_witness :
  let self : Cache.t nat := Cache.init 5 "price" in
  let factory := fun n : nat => (Some 42%nat, S n) in
  let r := Cache.get_or_set self "BTC/KRW" factory None 100 100 0%nat in
  fst (fst r) = Some 42%nat /\ snd r = 1%nat /\
  let r2 := Cache.get_or_set (snd (fst r)) "BTC/KRW" factory None 105 105 1%nat in
  fst (fst r2) = Some 42%nat /\ snd r2 = 1%nat.
Proof.
  destruct (get_or_set_caches_factory_value (Cache.init 5 "price") "BTC/KRW"
              (fun n : nat => (Some 42%nat, S n)) None 100 100 0%nat 1%nat 42%nat
              eq_refl eq_refl) as (H1 & H2 & _ & H4).
  split; [exact H1|]. split; [exact H2|].
  refine (H4 (fun n : nat => (Some 42%nat, S n)) None 105 105 1%nat _).
  vm_compute. discriminate.
Defined.

Section BreakerLimits.

Import CircuitBreaker BreakerMore.

Lemma _check_conditions_enforces (self : t) (now : Q) :
  let s := _check_conditions self now in
  (is_tripped s = true \/ within_limits s) /\
  (is_tripped self = false -> is_tripped s = true ->
   exists r,
     trip_reason s = Some r /\ trip_time s = Some now /\
     alerts s = send_alert (TripAlert r) self).
Proof.
  unfold _check_conditions.
  destruct (is_tripped self) eqn:Ht.
  { split; [left; exact Ht|]. intros H; discriminate. }
  destruct (max_consecutive_losses self <=? consecutive_losses self)%Z eqn:E1.
  { split; [left; reflexivity|]. intros _ _. eexists. cbn. repeat split. }
  destruct (daily_pnl_pct self <=? - max_daily_loss_pct self) eqn:E2.
  { split; [left; reflexivity|]. intros _ _. eexists. cbn. repeat split. }
  destruct (max_api_failures self <=? api_failures self)%Z eqn:E3.
  { split; [left; reflexivity|]. intros _ _. eexists. cbn. repeat split. }
  split.
  - right. unfold within_limits.
    apply Z.leb_gt in E1, E3. apply Qleb_gt in E2. auto.
  - intros _ H. congruence.
Qed.

(** X8. Every call of [record_trade] and of [record_api_failure]
    leaves the breaker either tripped or strictly inside its three limits
    (consecutive losses, daily loss percentage, API failures); when the call
    trips an armed breaker, the trip time is the clock reading of the call
    and the one alert sent carries the recorded reason. *)
Theorem record_leaves_breaker_tripped_or_within_limits :
  forall (self : t) (pnl pnl_pct now : Q) (ev : event),
    ev = RecordTrade pnl pnl_pct \/ ev = RecordApiFailure ->
    let s := step self ev now in
    (is_tripped s = true \/ within_limits s) /\
    (is_tripped self = false -> is_tripped s = true ->
     exists r,
       trip_reason s = Some r /\ trip_time s = Some now /\
       alerts s = send_alert (TripAlert r) self).
Proof.
  intros self pnl pnl_pct now ev Hev s. subst s.
  assert (Hd : is_tripped (_daily_reset_check self now) = is_tripped self /\
               alerts (_daily_reset_check self now) = alerts self /\
               alert_callback (_daily_reset_check self now) = alert_callback self).
  { unfold _daily_reset_check. destruct (_ <? _)%Z; cbn; auto. }
  destruct Hd as (Hd1 & Hd2 & Hd3).
  destruct Hev as [-> | ->]; cbn [step]; unfold record_trade, record_api_failure;
    cbv zeta;
    match goal with
    | |- context [_check_conditions ?s0 now] =>
        pose proof (_check_conditions_enforces s0 now) as (H1 & H2);
        split; [exact H1|];
        intros Ha Hb;
        destruct (H2 ltac:(cbn; congruence) Hb) as (r & R1 & R2 & R3);
        exists r; split; [exact R1|]; split; [exact R2|];
        rewrite R3; unfold send_alert; cbn; rewrite Hd2, Hd3; reflexivity
    end.
Qed.

Lemma record_leaves_breaker_tripped_or_within_limits_witness :
  let s := step (init 1 3.0 10 30 0) (RecordTrade (-100) (-0.1)) 50 in
  (is_tripped s = true \/ within_limits s) /\
  trip_time s = Some 50.
Proof.
  destruct (record_leaves_breaker_tripped_or_within_limits
              (init 1 3.0 10 30 0) (-100) (-0.1) 50 (RecordTrade (-100) (-0.1))
              (or_introl eq_refl)) as (H1 & H2).
  split; [exact H1|].
  destruct (H2 eq_refl eq_refl) as (r & _ & R2 & _). exact R2.
Defined.

Lemma step_keeps_trip_record (self : t) (e : event) (now : Q) :
  is_tripped self = true -> records e = true ->
  is_tripped (step self e now) = true /\
  trip_reason (step self e now) = trip_reason self /\
  trip_time (step self e now) = trip_time self /\
  alerts (step self e now) = alerts self.
Proof.
  intros Ht Hr.
  assert (Hd : is_tripped (_daily_reset_check self now) = true /\
               trip_reason (_daily_reset_check self now) = trip_reason self /\
               trip_time (_daily_reset_check self now) = trip_time self /\
               alerts (_daily_reset_check self now) = alerts self).
  { unfold _daily_reset_check. destruct (_ <? _)%Z; cbn; auto. }
  destruct Hd as (D1 & D2 & D3 & D4).
  destruct e; cbn [step]; try discriminate.
  - unfold record_trade. cbv zeta. unfold _check_conditions.
    cbn [is_tripped]. rewrite D1. cbn. auto.
  - unfold record_api_failure. cbv zeta. unfold _check_conditions, set_api_failures.
    cbn [is_tripped]. rewrite D1. cbn. auto.
  - unfold record_api_success. destruct (0 <? api_failures self)%Z; cbn; auto.
Qed.

(** X9. While the breaker is tripped, recording further trade
    results, API failures or API successes never trips it again: the
    breaker stays tripped, the recorded reason and trip time stay those of
    the original trip (so the cooldown is not extended) and no further
    alert is sent. *)
Theorem tripped_breaker_keeps_first_trip_record :
  forall (es : list (event * Q)) (self : t),
    is_tripped self = true ->
    Forall (fun en => records (fst en) = true) es ->
    is_tripped (steps self es) = true /\
    trip_reason (steps self es) = trip_reason self /\
    trip_time (steps self es) = trip_time self /\
    alerts (steps self es) = alerts self.
Proof.
  induction es as [|[e now] es IH]; intros self Ht Hes; cbn [steps].
  - auto.
  - inversion Hes as [|? ? He Hes']; subst. cbn [fst] in He.
    destruct (step_keeps_trip_record self e now Ht He) as (S1 & S2 & S3 & S4).
    destruct (IH (step self e now) S1 Hes') as (I1 & I2 & I3 & I4).
    rewrite I2, I3, I4. auto.
Qed.

Lemma tripped_breaker_keeps_first_trip_record_witness :
  let tripped := record_trade (set_alert_callback (init 1 3.0 10 30 0)) (-100) (-0.1) 50 in
  let later := steps tripped [(RecordTrade (-500) (-5), 60); (RecordApiFailure, 70)] in
  is_tripped later = true /\
  trip_reason later = trip_reason tripped /\
  trip_time later = trip_time tripped /\
  alerts later = alerts tripped.
Proof.
  apply (tripped_breaker_keeps_first_trip_record
           [(RecordTrade (-500) (-5), 60); (RecordApiFailure, 70)]
           (record_trade (set_alert_callback (init 1 3.0 10 30 0)) (-100) (-0.1) 50)).
  - reflexivity.
  - repeat constructor.
Defined.

(** X10. Re-arming does not clear the daily loss: when a tripped
    breaker whose daily loss percentage is at or beyond the limit is reset
    (by hand or by the cooldown), the next trade recorded on the same day
    with a result that is not a gain trips it again at once. *)
Theorem rearmed_breaker_trips_again_on_same_day :
  forall (self : t) (manual : bool) (pnl pnl_pct now : Q),
    is_tripped self = true ->
    daily_pnl_pct self <= - max_daily_loss_pct self ->
    (date now <= last_reset_date self)%Z ->
    pnl_pct <= 0 ->
    let armed := snd (reset self manual) in
    let after := record_trade armed pnl pnl_pct now in
    fst (can_trade armed now) = true /\
    is_tripped after = true /\
    trip_time after = Some now /\
    fst (can_trade after now) = false /\
    ((1 < max_consecutive_losses self)%Z ->
     trip_reason after =
       Some (DailyLoss (daily_pnl_pct self + pnl_pct) (max_daily_loss_pct self))).
Proof.
  intros self manual pnl pnl_pct now Ht Hloss Hday Hpct armed after.
  subst after armed. unfold reset. rewrite Ht. cbn [negb snd].
  set (armed := _reset_internal self (negb manual)).
  assert (A1 : is_tripped armed = false) by reflexivity.
  assert (A2 : consecutive_losses armed = 0%Z) by reflexivity.
  assert (A3 : daily_pnl_pct armed = daily_pnl_pct self) by reflexivity.
  assert (A4 : max_daily_loss_pct armed = max_daily_loss_pct self) by reflexivity.
  assert (A5 : last_reset_date armed = last_reset_date self) by reflexivity.
  assert (A6 : max_consecutive_losses armed = max_consecutive_losses self)
    by reflexivity.
  split; [unfold can_trade; rewrite A1; reflexivity|].
  assert (Hself : forall s : t, is_tripped s = true -> trip_time s = Some now ->
                    fst (can_trade s now) = false).
  { intros s Hs Htt. unfold can_trade. rewrite Hs, Htt. cbn [negb].
    destruct (0 <? cooldown_minutes s) eqn:Ec; [|reflexivity].
    apply Qltb_lt in Ec.
    assert (El : (cooldown_minutes s <=? (now - now) / 60) = false).
    { apply Qleb_gt. assert (Hz : (now - now) / 60 == 0) by field.
      rewrite Hz. exact Ec. }
    rewrite El. reflexivity. }
  unfold record_trade, _daily_reset_check. cbv zeta.
  assert (Hd : (last_reset_date armed <? date now)%Z = false)
    by (apply Z.ltb_ge; lia).
  rewrite Hd.
  unfold _check_conditions.
  cbn [max_consecutive_losses max_daily_loss_pct max_api_failures cooldown_minutes
       consecutive_losses daily_pnl daily_pnl_pct api_failures is_tripped
       trip_reason trip_time last_reset_date alert_callback alerts].
  rewrite A1, A2, A3, A4, A6.
  assert (E2 : (daily_pnl_pct self + pnl_pct <=? - max_daily_loss_pct self) = true).
  { apply Qleb_le. lra. }
  rewrite E2.
  match goal with
  | |- context [if (max_consecutive_losses self <=? ?l)%Z then _ else _] =>
      destruct (max_consecutive_losses self <=? l)%Z eqn:E1
  end.
  - split; [reflexivity|]. split; [reflexivity|]. split; [apply Hself; reflexivity|].
    intros Hmax. apply Z.leb_le in E1. destruct (pnl <? 0); lia.
  - split; [reflexivity|]. split; [reflexivity|].
    split; [apply Hself; reflexivity|]. intros _. reflexivity.
Qed.

Lemma rearmed_breaker_trips_again_on_same_day_witness :
  let tripped := record_trade (init 5 3.0 10 30 0) (-4000) (-4) 0 in
  let armed := snd (reset tripped true) in
  let after := record_trade armed 0 0 100 in
  fst (can_trade armed 100) = true /\ is_tripped after = true.
Proof.
  destruct (rearmed_breaker_trips_again_on_same_day
              (record_trade (init 5 3.0 10 30 0) (-4000) (-4) 0) true 0 0 100)
    as (H1 & H2 & _).
  - reflexivity.
  - vm_compute. discriminate.
  - vm_compute. discriminate.
  - lra.
  - split; [exact H1 | exact H2].
Defined.

Lemma py_int_pos (x : Q) : (0 < Py.int x)%Z -> 1 <= x.
Proof.
  unfold Py.int. destruct (0 <=? x) eqn:E.
  - intros H. pose proof (Qfloor_le x) as Hf.
    assert (1 <= inject_Z (Qfloor x)).
    { change 1 with (inject_Z 1). rewrite <- Zle_Qle. lia. }
    lra.
  - apply Qleb_gt in E. intros H.
    assert (Hc : (Qceiling x <= 0)%Z).
    { unfold Qceiling. pose proof (Qfloor_le (- x)) as Hf.
      assert ((0 <= Qfloor (- x))%Z); [|lia].
      change 0%Z with (Qfloor 0). apply Qfloor_resp_le. lra. }
    lia.
Qed.

Lemma py_int_nonpos (x : Q) : x <= 0 -> (Py.int x <= 0)%Z.
Proof.
  intros Hx. destruct (Z_lt_le_dec 0 (Py.int x)) as [H|H]; [|exact H].
  apply py_int_pos in H. lra.
Qed.

(** X11. [get_remaining_cooldown] is never negative and is 0 for an
    armed breaker; whenever it reports at least one minute left,
    [can_trade] at the same clock reading refuses and changes nothing; and
    whenever [can_trade] lets a tripped breaker trade again, no cooldown
    is left. *)
Theorem remaining_cooldown_agrees_with_can_trade :
  forall (self : t) (now : Q),
    (0 <= get_remaining_cooldown self now)%Z /\
    (is_tripped self = false -> get_remaining_cooldown self now = 0%Z) /\
    ((0 < get_remaining_cooldown self now)%Z -> can_trade self now = (false, self)) /\
    (fst (can_trade self now) = true -> get_remaining_cooldown self now = 0%Z).
Proof.
  intros self now. unfold get_remaining_cooldown, can_trade.
  destruct (is_tripped self) eqn:Ht; cbn [negb].
  2:{ repeat split; try reflexivity; lia. }
  destruct (trip_time self) as [t0|] eqn:Htt.
  2:{ repeat split; try reflexivity; try lia; try discriminate. }
  split; [lia|]. split; [intros H; discriminate|]. split.
  - intros Hpos.
    assert (Hi : (0 < Py.int (cooldown_minutes self - (now - t0) / 60))%Z) by lia.
    apply py_int_pos in Hi.
    destruct (0 <? cooldown_minutes self); [|reflexivity].
    assert (El : (cooldown_minutes self <=? (now - t0) / 60) = false).
    { apply Qleb_gt. lra. }
    rewrite El. reflexivity.
  - destruct (0 <? cooldown_minutes self); [|intros H; discriminate].
    destruct (cooldown_minutes self <=? (now - t0) / 60) eqn:El;
      [|intros H; discriminate].
    intros _. apply Qleb_le in El.
    assert (Hi : (Py.int (cooldown_minutes self - (now - t0) / 60) <= 0)%Z).
    { apply py_int_nonpos. lra. }
    lia.
Qed.

End BreakerLimits.

Section SlHolds.

Import SlHold.

(** X12. The two queries of a stop-loss hold agree: at any clock
    reading [is_sl_held] answers [True] exactly when
    [get_sl_hold_remaining] answers a number of minutes, which is then the
    whole minutes left and not negative; both leave the table as it is
    while the hold runs and delete the entry once the expiry time is
    reached. A hold set for a positive number of hours runs from the moment
    it is set, and [clear_sl_hold] ends the hold of its symbol and of no
    other. *)
Theorem sl_hold_queries_agree :
  forall (holds : Holds) (sym : string) (now : Q),
    let held := is_sl_held holds sym now in
    let left := get_sl_hold_remaining holds sym now in
    snd held = snd left /\
    (fst held = true <-> is_Some (fst left)) /\
    (forall m, fst left = Some m ->
       (0 <= m)%Z /\ snd left = holds /\
       exists hold_until,
         holds !! sym = Some hold_until /\ now < hold_until /\
         inject_Z m <= (hold_until - now) / 60 < inject_Z m + 1) /\
    (fst held = false -> snd held !! sym = None) /\
    (forall hours, 0 < hours ->
       fst (is_sl_held (snd (set_sl_hold holds sym hours now)) sym now) = true) /\
    is_sl_held (clear_sl_hold holds sym) sym now = (false, clear_sl_hold holds sym) /\
    (forall k, k <> sym -> clear_sl_hold holds sym !! k = holds !! k).
Proof.
  intros holds sym now held left. subst held left.
  assert (Hclear :
    is_sl_held (clear_sl_hold holds sym) sym now = (false, clear_sl_hold holds sym) /\
    (forall k, k <> sym -> clear_sl_hold holds sym !! k = holds !! k)).
  { assert (Hc : clear_sl_hold holds sym !! sym = None).
    { unfold clear_sl_hold. destruct (holds !! sym) eqn:H; [|exact H].
      apply lookup_delete_eq. }
    split.
    - unfold is_sl_held. rewrite Hc. reflexivity.
    - intros k Hk. unfold clear_sl_hold. destruct (holds !! sym); [|reflexivity].
      apply lookup_delete_ne. congruence. }
  revert Hclear. generalize (clear_sl_hold holds sym). intros cleared Hclear.
  unfold is_sl_held, get_sl_hold_remaining.
  destruct (holds !! sym) as [h|] eqn:Hh.
  - assert (Hiff : (h - now) / 60 <= 0 <-> h <= now).
    { split; intros H.
      - assert (E : h - now == (h - now) / 60 * 60) by field. lra.
      - assert (E : h - now == (h - now) / 60 * 60) by field. lra. }
    destruct (h <=? now) eqn:E1.
    + apply Qleb_le in E1.
      assert (E2 : ((h - now) / 60 <=? 0) = true) by (apply Qleb_le; tauto).
      rewrite E2. cbn [fst snd].
      split; [reflexivity|]. split.
      { split; [discriminate|]. intros [x Hx]. discriminate. }
      split; [intros m Hm; discriminate|].
      split; [intros _; apply lookup_delete_eq|].
      split; [|exact Hclear].
      intros hours Hhours. unfold set_sl_hold. cbn [snd].
      rewrite lookup_insert_eq.
      assert (E3 : (now + hours * 3600 <=? now) = false) by (apply Qleb_gt; lra).
      rewrite E3. reflexivity.
    + apply Qleb_gt in E1.
      assert (E2 : ((h - now) / 60 <=? 0) = false) by (apply Qleb_gt; lra).
      rewrite E2. cbn [fst snd].
      split; [reflexivity|]. split.
      { split; [intros _; eexists; reflexivity|reflexivity]. }
      split.
      { intros m Hm. injection Hm as <-.
        assert (Hpos : 0 <= (h - now) / 60) by lra.
        unfold Py.int.
        assert (E3 : (0 <=? (h - now) / 60) = true) by (apply Qleb_le; exact Hpos).
        rewrite E3. split.
        - change 0%Z with (Qfloor 0). apply Qfloor_resp_le. exact Hpos.
        - split; [reflexivity|]. exists h. split; [reflexivity|]. split; [exact E1|].
          split; [apply Qfloor_le|].
          pose proof (Qlt_floor ((h - now) / 60)) as Hl.
          rewrite inject_Z_plus in Hl. exact Hl. }
      split; [discriminate|].
      split; [|exact Hclear].
      intros hours Hhours. unfold set_sl_hold. cbn [snd].
      rewrite lookup_insert_eq.
      assert (E3 : (now + hours * 3600 <=? now) = false) by (apply Qleb_gt; lra).
      rewrite E3. reflexivity.
  - cbn [fst snd]. split; [reflexivity|]. split.
    { split; [discriminate|]. intros [x Hx]. discriminate. }
    split; [intros m Hm; discriminate|].
    split; [intros _; exact Hh|].
    split; [|exact Hclear].
    intros hours Hhours. unfold set_sl_hold. cbn [snd].
    rewrite lookup_insert_eq.
    assert (E3 : (now + hours * 3600 <=? now) = false) by (apply Qleb_gt; lra).
    rewrite E3. reflexivity.
Qed.

End SlHolds.

Section PositionStore.

Import PositionManager.

(** X13. Averaging in moves the entry price towards the fill price
    and never past it: after [add_dca] on a position with a positive
    quantity and a positive fill, the new entry price lies between the old
    entry price and the fill price, strictly inside when the two differ. *)
Theorem add_dca_entry_between_old_entry_and_fill :
  forall (positions : Store) (sym : string) (pos : Position) (q p : Q)
         (now : string),
    positions !! sym = Some pos -> 0 < qty pos -> 0 < q ->
    exists pos',
      add_dca positions sym q p now = (Ok true, <[sym := pos']> positions) /\
      (p <= entry_price pos -> p <= entry_price pos' <= entry_price pos) /\
      (entry_price pos <= p -> entry_price pos <= entry_price pos' <= p) /\
      (p < entry_price pos -> p < entry_price pos' < entry_price pos).
Proof.
  intros positions sym pos q p now Hpos Hq0 Hq.
  rewrite (add_dca_found positions sym pos q p now Hpos) by lra.
  eexists. split; [reflexivity|]. cbn [entry_price set_dca set_entry_price].
  set (q0 := qty pos) in *. set (p0 := entry_price pos) in *.
  assert (Hsum : 0 < q0 + q) by lra.
  assert (E : (q0 * p0 + q * p) / (q0 + q) * (q0 + q) == q0 * p0 + q * p).
  { field. lra. }
  set (a := (q0 * p0 + q * p) / (q0 + q)) in *.
  repeat split; intros; nra.
Qed.

Lemma add_dca_entry_between_old_entry_and_fill_witness :
  let store := snd (open_position ∅ "BTC/KRW" 10 100 0.3 0.02 0.01 0.8 ""
                      default_args "t0") in
  exists pos',
    add_dca store "BTC/KRW" 5 70 "t1" = (Ok true, <["BTC/KRW" := pos']> store) /\
    70 < entry_price pos' < 100.
Proof.
  destruct (add_dca_entry_between_old_entry_and_fill
              (snd (open_position ∅ "BTC/KRW" 10 100 0.3 0.02 0.01 0.8 ""
                      default_args "t0"))
              "BTC/KRW"
              (new_pos "BTC/KRW" 10 100 0.3 0.02 0.01 0.8 "" default_args "t0")
              5 70 "t1")
    as (pos' & H1 & _ & _ & H4).
  - reflexivity.
  - reflexivity.
  - reflexivity.
  - exists pos'. split; [exact H1|]. apply H4. reflexivity.
Defined.

End PositionStore.

Section PositionStore2.

Import PositionManager PositionStoreMore.

Lemma add_dcas_keeps (fills : list (Q * Q)) :
  forall (positions : Store) (sym : string) (pos : Position) (now : string),
    positions !! sym = Some pos ->
    0 < qty pos ->
    Forall (fun f => 0 < fst f) fills ->
    exists pos',
      add_dcas positions sym fills now !! sym = Some pos' /\
      initial_qty pos' = initial_qty pos /\
      tp_levels pos' = tp_levels pos /\
      trailing pos' = trailing pos /\
      tp pos' = tp pos /\ sl pos' = sl pos /\
      dca_history pos' = dca_history pos ++ map (fill_of now) fills /\
      (forall sym', sym' <> sym ->
         add_dcas positions sym fills now !! sym' = positions !! sym').
Proof.
  induction fills as [|[q p] fills IH]; intros positions sym pos now Hpos Hq Hfills.
  - exists pos. cbn. rewrite app_nil_r. repeat split; auto.
  - inversion Hfills as [|? ? Hf Hrest]; subst. cbn [fst] in Hf.
    cbn [add_dcas].
    rewrite (add_dca_found positions sym pos q p now Hpos) by lra.
    cbn [snd].
    match goal with
    | |- context [add_dcas (<[sym := ?p1]> positions)] =>
        destruct (IH (<[sym := p1]> positions) sym p1 now) as
          (pos' & H1 & H2 & H3 & H4 & H5 & H6 & H7 & H8)
    end.
    + apply lookup_insert_eq.
    + cbn. lra.
    + exact Hrest.
    + exists pos'. split; [exact H1|].
      rewrite H2, H3, H4, H5, H6, H7. cbn.
      rewrite <- app_assoc. repeat split; auto.
      intros sym' Hne. rewrite H8 by exact Hne.
      apply lookup_insert_ne. congruence.
Qed.

(** X14. Whatever DCA fills follow [open_position], the record keeps
    the quantity it was opened with as [initial_qty], and its take-profit
    ladder, trailing-stop record and TP/SL prices are those set at the
    opening: [add_dca] rebases none of them on the new entry price. The DCA
    history lists the fills in order, one per stage, and the positions of
    other symbols are not touched. *)
Theorem add_dca_keeps_opening_ladder_and_initial_qty :
  forall (positions : Store) (sym : string) (q0 p0 : Q)
         (pf_w a_tp a_sl a_conf : Q) (a_reason : string) (args : OpenArgs)
         (t0 now : string) (fills : list (Q * Q)),
    0 < q0 -> Forall (fun f => 0 < fst f) fills ->
    let opened := new_pos sym q0 p0 pf_w a_tp a_sl a_conf a_reason args t0 in
    let store :=
      add_dcas
        (snd (open_position positions sym q0 p0 pf_w a_tp a_sl a_conf a_reason args t0))
        sym fills now in
    exists pos',
      store !! sym = Some pos' /\
      initial_qty pos' = q0 /\
      tp_levels pos' = tp_levels opened /\
      trailing pos' = trailing opened /\
      tp pos' = a_strat_tp args /\ sl pos' = a_strat_sl args /\
      dca_history pos' = map (fill_of now) fills /\
      dca_stage pos' = Z.of_nat (length (dca_history pos')) /\
      (forall sym', sym' <> sym -> store !! sym' = positions !! sym').
Proof.
  intros positions sym q0 p0 pf_w a_tp a_sl a_conf a_reason args t0 now fills
         Hq0 Hfills opened store.
  subst store. unfold open_position. cbn [snd]. fold opened.
  destruct (add_dcas_keeps fills (<[sym := opened]> positions) sym opened now)
    as (pos' & H1 & H2 & H3 & H4 & H5 & H6 & H7 & H8).
  { apply lookup_insert_eq. }
  { exact Hq0. }
  { exact Hfills. }
  destruct (add_dcas_totals fills (<[sym := opened]> positions) sym opened now)
    as (pos'' & G1 & _ & _ & G4).
  { apply lookup_insert_eq. }
  { exact Hq0. }
  { exact Hfills. }
  rewrite H1 in G1. injection G1 as <-.
  exists pos'. split; [exact H1|].
  split; [rewrite H2; reflexivity|].
  split; [exact H3|]. split; [exact H4|].
  split; [rewrite H5; reflexivity|]. split; [rewrite H6; reflexivity|].
  split; [rewrite H7; reflexivity|].
  split.
  - rewrite G4, H7. cbn. rewrite length_map. lia.
  - intros sym' Hne. rewrite H8 by exact Hne. apply lookup_insert_ne. congruence.
Qed.

Lemma add_dca_keeps_opening_ladder_and_initial_qty_witness :
  let store :=
    add_dcas
      (snd (open_position ∅ "BTC/KRW" 10 100 0.3 0.02 0.01 0.8 "" default_args "t0"))
      "BTC/KRW" [(5, 70); (5, 60)] "t1" in
  exists pos',
    store !! "BTC/KRW" = Some pos' /\ initial_qty pos' = 10 /\
    dca_stage pos' = 2%Z.
Proof.
  destruct (add_dca_keeps_opening_ladder_and_initial_qty
              ∅ "BTC/KRW" 10 100 0.3 0.02 0.01 0.8 "" default_args "t0" "t1"
              [(5, 70); (5, 60)])
    as (pos' & H1 & H2 & _ & _ & _ & _ & H7 & H8 & _).
  - reflexivity.
  - repeat constructor.
  - exists pos'. split; [exact H1|]. split; [exact H2|].
    rewrite H8, H7. reflexivity.
Defined.

(** X15. [close_position] on a symbol that is not stored returns
    [False] and changes nothing; on a stored position with a non-zero entry
    price it returns [True] and removes exactly that record, so that closing
    right after [open_position] on a symbol that was not held gives back
    the store as it was; on a stored position whose entry price is 0 the
    profit percentage raises [ZeroDivisionError] and the record stays. *)
Theorem close_position_removes_record_unless_entry_price_zero :
  forall (positions : Store) (sym : string) (exit_price : Q),
    (positions !! sym = None ->
     close_position positions sym exit_price = (Ok false, positions)) /\
    (forall pos, positions !! sym = Some pos -> ~ entry_price pos == 0 ->
       close_position positions sym exit_price = (Ok true, delete sym positions)) /\
    (forall pos, positions !! sym = Some pos -> entry_price pos == 0 ->
       close_position positions sym exit_price = (Raise ZeroDivisionError, positions)) /\
    (forall (q price pf_w a_tp a_sl a_conf : Q) (a_reason : string)
            (args : OpenArgs) (now : string),
       positions !! sym = None -> ~ price == 0 ->
       close_position
         (snd (open_position positions sym q price pf_w a_tp a_sl a_conf a_reason
                 args now)) sym exit_price = (Ok true, positions)).
Proof.
  intros positions sym exit_price.
  assert (Hsome : forall (st : Store) pos, st !! sym = Some pos ->
            ~ entry_price pos == 0 ->
            close_position st sym exit_price = (Ok true, delete sym st)).
  { intros st pos Hpos Hne. unfold close_position. rewrite Hpos.
    rewrite div_ok by exact Hne. reflexivity. }
  split; [|split; [|split]].
  - intros Hnone. unfold close_position. rewrite Hnone. reflexivity.
  - apply Hsome.
  - intros pos Hpos Hz. unfold close_position. rewrite Hpos. unfold div.
    apply Qeqb_eq in Hz. rewrite Hz. reflexivity.
  - intros q price pf_w a_tp a_sl a_conf a_reason args now Hnone Hne.
    unfold open_position. cbn [snd].
    erewrite Hsome; [|apply lookup_insert_eq|exact Hne].
    rewrite delete_insert_eq. rewrite delete_id by exact Hnone. reflexivity.
Qed.

End PositionStore2.

Section RiskSizing.

Import PositionManager RiskManager.

(** X16. The confidence tier multiplier takes one of the four values
    0.7, 1.0, 1.2 and 1.5 and never decreases when the confidence grows;
    the tiers start at 0.60, 0.70 and 0.85, each threshold included. *)
Theorem confidence_multiplier_is_monotone_step :
  forall c1 c2 : Q,
    c1 <= c2 ->
    _get_confidence_multiplier c1 <= _get_confidence_multiplier c2 /\
    (c1 < 0.60 -> _get_confidence_multiplier c1 = 0.7) /\
    (0.60 <= c1 -> c1 < 0.70 -> _get_confidence_multiplier c1 = 1.0) /\
    (0.70 <= c1 -> c1 < 0.85 -> _get_confidence_multiplier c1 = 1.2) /\
    (0.85 <= c1 -> _get_confidence_multiplier c1 = 1.5).
Proof.
  intros c1 c2 Hle.
  unfold _get_confidence_multiplier, CONFIDENCE_MULTIPLIERS, first_reached.
  destruct (0.85 <=? c1) eqn:A1; destruct (0.70 <=? c1) eqn:A2;
    destruct (0.60 <=? c1) eqn:A3; destruct (0.00 <=? c1) eqn:A4;
    destruct (0.85 <=? c2) eqn:B1; destruct (0.70 <=? c2) eqn:B2;
    destruct (0.60 <=? c2) eqn:B3; destruct (0.00 <=? c2) eqn:B4;
    rewrite ?Qleb_le, ?Qleb_gt in *;
    repeat split; intros; try reflexivity; try lra.
Qed.

Lemma confidence_multiplier_is_monotone_step_witness :
  _get_confidence_multiplier 0.65 <= _get_confidence_multiplier 0.9 /\
  _get_confidence_multiplier 0.65 = 1.0.
Proof.
  destruct (confidence_multiplier_is_monotone_step 0.65 0.9) as (H1 & _ & H3 & _).
  - vm_compute. discriminate.
  - split; [exact H1|]. apply H3.
    + vm_compute. discriminate.
    + reflexivity.
Defined.

End RiskSizing.

Section TradeAmountVetoes.

Import PositionManager RiskManager.

Variable cfg : Config.t.
Variable positions : Store.
Variable mkt : Market.

Lemma py_max_0_nonneg (x : Q) : 0 <= Py.max 0 x.
Proof. destruct (py_max_0_cases x) as [[-> _]|[-> H]]; lra. Qed.

(** X17. [get_trade_amount] fails exactly when the balance cannot be
    fetched; otherwise the amount is never negative, and it is 0 whenever
    the BTC mode carries a position multiplier that is not positive, and
    whenever the amount is asked for a DCA buy of a position that has used
    up [MAX_DCA_COUNT] stages. *)
Theorem trade_amount_fails_without_balance_and_respects_vetoes :
  forall (sym : string) (pf_weight : Q) (is_dca : bool)
         (btc_mode time_config : option Q) (ai_confidence : Q),
    let r := get_trade_amount cfg positions mkt sym pf_weight is_dca btc_mode
               time_config ai_confidence in
    (balance mkt = None <-> r = Raise ApiError) /\
    (is_Some (balance mkt) <-> exists a, r = Ok a /\ 0 <= a) /\
    (forall m, is_Some (balance mkt) -> btc_mode = Some m -> m <= 0 -> r = Ok 0) /\
    (forall pos, is_Some (balance mkt) -> is_dca = true ->
       positions !! sym = Some pos ->
       (Config.MAX_DCA_COUNT cfg <= dca_stage pos)%Z -> r = Ok 0).
Proof.
  intros sym pf_weight is_dca btc_mode time_config ai_confidence r. subst r.
  unfold get_trade_amount, get_available_krw.
  destruct (balance mkt) as [[krw_total free]|] eqn:Hb.
  2:{ split; [tauto|]. split.
      - split; [intros [x Hx]; discriminate|intros (a & Ha & _); discriminate].
      - split; intros; exfalso; match goal with H : is_Some None |- _ =>
          destruct H; discriminate end. }
  cbv zeta.
  set (vetoed := match btc_mode with Some m => m <=? 0 | None => false end).
  assert (Hok : forall x : result Q, (exists a, x = Ok a /\ 0 <= a) ->
            ((Some (krw_total, free) = None <-> x = Raise ApiError) /\
             (is_Some (Some (krw_total, free)) <-> exists a, x = Ok a /\ 0 <= a))).
  { intros x (a & -> & Ha). split; [split; intros H; discriminate|].
    split; [intros _; exists a; auto|intros _; eexists; reflexivity]. }
  destruct vetoed eqn:Hv.
  { destruct (Hok (Ok 0)) as (K1 & K2); [exists 0; split; [reflexivity|lra]|].
    split; [exact K1|]. split; [exact K2|].
    split; intros; reflexivity. }
  match goal with
  | |- (_ <-> ?x = _) /\ _ =>
      assert (Hnn : exists a, x = Ok a /\ 0 <= a)
  end.
  { repeat match goal with
           | |- context [if ?c then Ok _ else _] => destruct c
           end;
      eexists; (split; [reflexivity|]); try lra; apply py_max_0_nonneg. }
  destruct (Hok _ Hnn) as (K1 & K2).
  split; [exact K1|]. split; [exact K2|].
  split.
  { intros m _ -> Hm. subst vetoed. apply Qleb_le in Hm. congruence. }
  intros pos _ -> Hpos Hmax.
  unfold check_dca_limit, get_position. rewrite Hpos. cbn [dca_allowed].
  assert (E : (0 <? Config.MAX_DCA_COUNT cfg - dca_stage pos)%Z = false)
    by (apply Z.ltb_ge; lia).
  rewrite E. reflexivity.
Qed.

End TradeAmountVetoes.

Lemma trade_amount_fails_without_balance_and_respects_vetoes_witness :
  RiskManager.get_trade_amount Scenarios.cfg ∅ Scenarios.mkt "ETH/KRW" 0.1 false
    (Some 0) None 0.5 = Ok 0.
Proof.
  destruct (trade_amount_fails_without_balance_and_respects_vetoes
              Scenarios.cfg ∅ Scenarios.mkt "ETH/KRW" 0.1 false (Some 0) None 0.5)
    as (_ & _ & H3 & _).
  apply (H3 0).
  - eexists. reflexivity.
  - reflexivity.
  - vm_compute. discriminate.
Defined.

Section RiskLimits.

Import RiskMore.

Variable cfg : Config.t.
Variable lim : Limits.
Variable positions : PositionManager.Store.
Variable mkt : RiskManager.Market.

Local Abbreviation current :=
  (RiskManager.get_total_capital cfg positions mkt / Config.CAPITAL_SAFETY_MARGIN cfg).

(** X18. [check_drawdown] keeps a running peak: after the call the
    stored peak is the larger of the old peak and the current value, so it
    never decreases and is never below the current value; the reported
    drawdown is never negative; and the call blocks exactly when the peak
    is positive and the current value has fallen from it by at least
    [DRAWDOWN_LIMIT]. The day baseline and the loss streak are not
    touched. *)
Theorem check_drawdown_tracks_peak :
  forall (st : RiskState),
    ~ Config.CAPITAL_SAFETY_MARGIN cfg == 0 ->
    exists (s : status) (pct peak : Q) (st' : RiskState),
      check_drawdown cfg lim positions mkt st = Ok (s, pct, st') /\
      peak_value st' = Some peak /\
      current <= peak /\
      (forall p0, peak_value st = Some p0 -> p0 <= peak) /\
      (peak_value st = None -> peak = current) /\
      0 <= pct /\
      (s = StatusBlocked <->
       0 < peak /\ DRAWDOWN_LIMIT lim * peak <= peak - current) /\
      daily_start_value st' = daily_start_value st /\
      daily_date st' = daily_date st /\
      loss_streak st' = loss_streak st.
Proof.
  intros st Hm. unfold check_drawdown, equity. rewrite div_ok by exact Hm.
  cbv zeta.
  set (cur := current).
  set (peak := match peak_value st with
               | None => cur
               | Some p => if p <? cur then cur else p
               end).
  assert (Hcp : cur <= peak).
  { unfold peak. destruct (peak_value st) as [p|]; [|lra].
    destruct (p <? cur) eqn:E; [lra|]. apply Qltb_ge in E. exact E. }
  assert (Hpp : forall p0, peak_value st = Some p0 -> p0 <= peak).
  { intros p0 H0. unfold peak. rewrite H0.
    destruct (p0 <? cur) eqn:E; [|lra]. apply Qltb_lt in E. lra. }
  assert (Hnone : peak_value st = None -> peak = cur).
  { intros H0. unfold peak. rewrite H0. reflexivity. }
  destruct (peak <=? 0) eqn:E0.
  - apply Qleb_le in E0.
    exists StatusOk, 0, peak. eexists. split; [reflexivity|].
    cbn [peak_value daily_start_value daily_date loss_streak].
    repeat split; auto; try lra; try discriminate.
  - apply Qleb_gt in E0.
    assert (Hdd : 0 <= (peak - cur) / peak).
    { apply Qle_shift_div_l; lra. }
    assert (Hiff : forall x, x <= (peak - cur) / peak <-> x * peak <= peak - cur).
    { intros x. split; intros H.
      - assert (E : peak - cur == (peak - cur) / peak * peak) by (field; lra).
        rewrite E. apply Qmult_le_compat_r; lra.
      - apply Qle_shift_div_l; lra. }
    destruct (DRAWDOWN_LIMIT lim <=? (peak - cur) / peak) eqn:E1.
    + apply Qleb_le in E1.
      exists StatusBlocked, ((peak - cur) / peak * 100), peak. eexists.
      split; [reflexivity|].
      cbn [peak_value daily_start_value daily_date loss_streak].
      repeat split; auto; try lra. apply Hiff. exact E1.
    + apply Qleb_gt in E1.
      assert (Hnot : ~ (0 < peak /\ DRAWDOWN_LIMIT lim * peak <= peak - cur)).
      { intros (_ & H). apply Hiff in H. lra. }
      destruct (DRAWDOWN_LIMIT lim * 0.7 <=? (peak - cur) / peak).
      * exists StatusWarning, ((peak - cur) / peak * 100), peak. eexists.
        split; [reflexivity|].
        cbn [peak_value daily_start_value daily_date loss_streak].
        repeat split; auto; try lra; try discriminate; try tauto.
      * exists StatusOk, ((peak - cur) / peak * 100), peak. eexists.
        split; [reflexivity|].
        cbn [peak_value daily_start_value daily_date loss_streak].
        repeat split; auto; try lra; try discriminate; try tauto.
Qed.

End RiskLimits.

Lemma check_drawdown_tracks_peak_witness :
  exists (s : RiskMore.status) (pct peak : Q) (st' : RiskMore.RiskState),
    RiskMore.check_drawdown Scenarios.cfg RiskMore.default_limits ∅ Scenarios.mkt
      (RiskMore.mkRiskState None None (Some 1200000) 0) = Ok (s, pct, st') /\
    RiskMore.peak_value st' = Some peak /\
    1200000 <= peak /\ 0 <= pct.
Proof.
  destruct (check_drawdown_tracks_peak Scenarios.cfg RiskMore.default_limits ∅
              Scenarios.mkt (RiskMore.mkRiskState None None (Some 1200000) 0))
    as (s & pct & peak & st' & H1 & H2 & _ & H4 & _ & H6 & _).
  - vm_compute. discriminate.
  - exists s, pct, peak, st'. split; [exact H1|]. split; [exact H2|].
    split; [apply H4; reflexivity|exact H6].
Defined.

Section LossStreak.

Import RiskMore.

Lemma register_all_app (s : Z) (l1 l2 : list Q) :
  register_all s (l1 ++ l2) = register_all (register_all s l1) l2.
Proof. unfold register_all. apply foldl_app. Qed.

Lemma register_all_trailing (profits : list Q) :
  forall s : Z,
    register_all s profits =
      if (length profits =? trailing_losses (rev profits))%nat
      then (s + Z.of_nat (length profits))%Z
      else Z.of_nat (trailing_losses (rev profits)).
Proof.
  induction profits as [|p profits IH] using rev_ind; intros s.
  - cbn. lia.
  - rewrite register_all_app, rev_app_distr. cbn [rev app trailing_losses].
    unfold register_all at 1. cbn [foldl]. unfold register_trade_result.
    rewrite length_app. cbn [length].
    destruct (p <? 0).
    + rewrite IH.
      replace (length profits + 1 =? S (trailing_losses (rev profits)))%nat
        with (length profits =? trailing_losses (rev profits))%nat.
      2:{ destruct (Nat.eqb_spec (length profits) (trailing_losses (rev profits)));
          symmetry; [apply Nat.eqb_eq|apply Nat.eqb_neq]; lia. }
      destruct (length profits =? trailing_losses (rev profits))%nat; lia.
    + destruct (Nat.eqb_spec (length profits + 1) 0); [lia|]. reflexivity.
Qed.

(** X19. The loss streak counts the losing results at the end of the
    sequence of registered results: one result that is not a loss (a gain
    or exactly 0) clears it. So, starting from a fresh manager,
    [check_loss_streak] blocks exactly when the last 3 results (5 in
    aggressive mode) were all losses. *)
Theorem loss_streak_blocks_after_trailing_losses :
  forall (cfg : Config.t) (profits : list Q) (st : RiskState),
    loss_streak st = register_all (loss_streak init) profits ->
    loss_streak st = Z.of_nat (trailing_losses (rev profits)) /\
    (check_loss_streak cfg st = StatusBlocked <->
     ((if Config.AGGRESSIVE_MODE cfg then 5 else 3) <= trailing_losses (rev profits))%nat).
Proof.
  intros cfg profits st Hst. rewrite register_all_trailing in Hst.
  cbn [loss_streak init] in Hst.
  assert (Hs : loss_streak st = Z.of_nat (trailing_losses (rev profits))).
  { destruct (Nat.eqb_spec (length profits) (trailing_losses (rev profits))); lia. }
  split; [exact Hs|].
  unfold check_loss_streak, RiskManager.aggressive. rewrite Hs.
  destruct (Config.AGGRESSIVE_MODE cfg).
  - destruct (5 <=? Z.of_nat (trailing_losses (rev profits)))%Z eqn:E.
    + apply Z.leb_le in E. split; [intros _; lia|reflexivity].
    + apply Z.leb_gt in E. split; [discriminate|intros H; lia].
  - destruct (3 <=? Z.of_nat (trailing_losses (rev profits)))%Z eqn:E.
    + apply Z.leb_le in E. split; [intros _; lia|reflexivity].
    + apply Z.leb_gt in E. split; [discriminate|intros H; lia].
Qed.

Lemma loss_streak_blocks_after_trailing_losses_witness :
  let st := mkRiskState None None None (register_all 0 [-1; 5; -2; -3; -4]) in
  loss_streak st = 3%Z /\
  check_loss_streak Scenarios.cfg st = StatusBlocked.
Proof.
  destruct (loss_streak_blocks_after_trailing_losses Scenarios.cfg
              [-1; 5; -2; -3; -4]
              (mkRiskState None None None (register_all 0 [-1; 5; -2; -3; -4]))
              eq_refl) as (H1 & H2).
  split; [exact H1|]. apply H2. vm_compute. lia.
Defined.

End LossStreak.

Section Truncation.

Import PositionManager ExecutionEngine.

Lemma py_int_nonneg_bounds (x : Q) :
  0 <= x -> 0 <= inject_Z (Py.int x) /\ inject_Z (Py.int x) <= x /\
            x < inject_Z (Py.int x) + 1.
Proof.
  intros Hx. unfold Py.int.
  assert (E : (0 <=? x) = true) by (apply Qleb_le; exact Hx). rewrite E.
  split; [|split].
  - change 0 with (inject_Z 0). rewrite <- Zle_Qle.
    change 0%Z with (Qfloor 0). apply Qfloor_resp_le. exact Hx.
  - apply Qfloor_le.
  - pose proof (Qlt_floor x) as H. rewrite inject_Z_plus in H. exact H.
Qed.

Lemma py_int_neg_bounds (x : Q) :
  x < 0 -> x <= inject_Z (Py.int x) /\ inject_Z (Py.int x) <= 0.
Proof.
  intros Hx. unfold Py.int.
  assert (E : (0 <=? x) = false) by (apply Qleb_gt; exact Hx). rewrite E.
  split.
  - apply Qle_ceiling.
  - change 0 with (inject_Z 0). rewrite <- Zle_Qle.
    change 0%Z with (Qceiling 0). apply Qceiling_resp_le. lra.
Qed.

Lemma scaled_int_nonneg (x f : Q) :
  0 < f -> 0 <= x ->
  0 <= inject_Z (Py.int (x * f)) / f /\
  inject_Z (Py.int (x * f)) / f <= x /\
  x - inject_Z (Py.int (x * f)) / f < 1 / f.
Proof.
  intros Hf Hx.
  assert (Hxf : 0 <= x * f) by nra.
  destruct (py_int_nonneg_bounds (x * f) Hxf) as (H0 & H1 & H2).
  set (n := inject_Z (Py.int (x * f))) in *.
  assert (E : n / f * f == n) by (field; lra).
  split; [apply Qle_shift_div_l; lra|].
  split.
  - apply Qle_shift_div_r; lra.
  - assert (E1 : 1 / f * f == 1) by (field; lra). nra.
Qed.

Lemma scaled_int_neg (x f : Q) :
  0 < f -> x < 0 -> inject_Z (Py.int (x * f)) / f <= 0.
Proof.
  intros Hf Hx.
  assert (Hxf : x * f < 0) by nra.
  destruct (py_int_neg_bounds (x * f) Hxf) as (_ & H1).
  apply Qle_shift_div_r; lra.
Qed.

(** The unit of the quantity grid of a symbol. *)
Lemma format_qty_cases (sym : string) (q : Q) :
  let f := inject_Z (10 ^ Z.of_nat (_get_qty_precision sym)) in
  0 < f /\ _format_qty sym q == inject_Z (Py.int (q * f)) / f.
Proof.
  cbv zeta. split; [apply pow10_pos|].
  unfold _format_qty. destruct (_get_qty_precision sym) as [|p] eqn:Hp.
  - change (inject_Z (10 ^ Z.of_nat 0)) with 1.
    assert (E : q * 1 == q) by ring.
    assert (E2 : Py.int (q * 1) = Py.int q).
    { unfold Py.int.
      assert (Hb : (0 <=? q * 1) = (0 <=? q)).
      { destruct (0 <=? q) eqn:A.
        - apply Qleb_le. apply Qleb_le in A. lra.
        - apply Qleb_gt. apply Qleb_gt in A. lra. }
      rewrite Hb. destruct (0 <=? q).
      - apply Qfloor_comp. exact E.
      - apply Qceiling_comp. exact E. }
    rewrite E2. field.
  - reflexivity.
Qed.

(** A positive formatted quantity comes from a positive quantity and does
    not exceed it. *)
Lemma format_qty_pos (sym : string) (q : Q) :
  0 < _format_qty sym q -> 0 < q /\ _format_qty sym q <= q.
Proof.
  intros Hpos. destruct (format_qty_cases sym q) as (Hf & E). cbv zeta in *.
  destruct (Qlt_le_dec q 0) as [Hq|Hq].
  - exfalso. rewrite E in Hpos.
    pose proof (scaled_int_neg q _ Hf Hq). lra.
  - destruct (scaled_int_nonneg q _ Hf Hq) as (_ & H1 & _).
    rewrite <- E in H1. split; [lra|exact H1].
Qed.

Lemma mem_In (s : string) (l : list string) : mem s l = true <-> In s l.
Proof.
  unfold mem. rewrite existsb_exists. split.
  - intros (x & Hx & He). apply String.eqb_eq in He. subst x. exact Hx.
  - intros H. exists s. split; [exact H|apply String.eqb_refl].
Qed.

(** X20. [_format_qty] puts a quantity on the grid of the precision [p]
    of its symbol: the result is [n / 10^p] for an integer [n] that is not
    negative for a quantity that is not negative, and not positive for one
    that is not positive. The precision is 0 for the low-priced coins, 8
    for BTC and ETH and 4 for every other coin, the coin being the symbol
    without "/KRW" and "-KRW", in upper case. At precision 0 the result is
    the integer part of the quantity: it is cut off towards zero and
    differs from the quantity by less than 1. *)
Theorem format_qty_lies_on_the_precision_grid :
  forall (sym : string) (q : Q),
    let p := _get_qty_precision sym in
    ((In (coin_of sym) LOW_PRICE_COINS /\ p = 0%nat) \/
     (~ In (coin_of sym) LOW_PRICE_COINS /\
      In (coin_of sym) HIGH_PRICE_COINS /\ p = 8%nat) \/
     (~ In (coin_of sym) LOW_PRICE_COINS /\
      ~ In (coin_of sym) HIGH_PRICE_COINS /\ p = 4%nat)) /\
    exists n : Z,
      _format_qty sym q == inject_Z n / inject_Z (10 ^ Z.of_nat p) /\
      (0 <= q -> (0 <= n)%Z) /\
      (q <= 0 -> (n <= 0)%Z) /\
      (p = 0%nat ->
       _format_qty sym q = inject_Z n /\
       (0 <= q -> inject_Z n <= q /\ q < inject_Z n + 1) /\
       (q <= 0 -> inject_Z n - 1 < q /\ q <= inject_Z n)).
Proof.
  intros sym q p. split.
  - subst p. unfold _get_qty_precision.
    destruct (mem (coin_of sym) LOW_PRICE_COINS) eqn:El.
    + left. split; [apply mem_In; exact El|reflexivity].
    + assert (Hl : ~ In (coin_of sym) LOW_PRICE_COINS).
      { intros H. apply mem_In in H. congruence. }
      destruct (mem (coin_of sym) HIGH_PRICE_COINS) eqn:Eh.
      * right. left. split; [exact Hl|]. split; [apply mem_In; exact Eh|reflexivity].
      * right. right. split; [exact Hl|]. split; [|reflexivity].
        intros H. apply mem_In in H. congruence.
  - destruct (format_qty_cases sym q) as (Hf & E). cbv zeta in *. fold p in Hf, E.
    set (f := inject_Z (10 ^ Z.of_nat p)) in *.
    exists (Py.int (q * f)). split; [exact E|].
    assert (Hnn : 0 <= q -> (0 <= Py.int (q * f))%Z).
    { intros Hq. assert (Hqf : 0 <= q * f) by nra.
      destruct (py_int_nonneg_bounds (q * f) Hqf) as (H0 & _).
      change 0 with (inject_Z 0) in H0. rewrite <- Zle_Qle in H0. exact H0. }
    assert (Hnp : q <= 0 -> (Py.int (q * f) <= 0)%Z).
    { intros Hq. rewrite Zle_Qle. change (inject_Z 0) with 0.
      destruct (Qlt_le_dec q 0) as [Hlt|Hge].
      - assert (Hqf : q * f < 0) by nra.
        destruct (py_int_neg_bounds (q * f) Hqf) as (_ & H1). exact H1.
      - assert (Hqf : 0 <= q * f) by nra.
        destruct (py_int_nonneg_bounds (q * f) Hqf) as (_ & H1 & _). nra. }
    split; [exact Hnn|]. split; [exact Hnp|].
    intros Hp0.
    assert (Hf1 : f == 1).
    { unfold f. rewrite Hp0. reflexivity. }
    assert (Hint : Py.int (q * f) = Py.int q).
    { unfold Py.int.
      assert (Hb : (0 <=? q * f) = (0 <=? q)).
      { destruct (0 <=? q) eqn:A.
        - apply Qleb_le. apply Qleb_le in A. nra.
        - apply Qleb_gt. apply Qleb_gt in A. nra. }
      rewrite Hb. assert (Eq : q * f == q) by (rewrite Hf1; ring).
      destruct (0 <=? q).
      - apply Qfloor_comp. exact Eq.
      - apply Qceiling_comp. exact Eq. }
    rewrite Hint. split.
    { unfold _format_qty. fold p. rewrite Hp0. reflexivity. }
    split.
    + intros Hq. destruct (py_int_nonneg_bounds q Hq) as (_ & H1 & H2).
      split; assumption.
    + intros Hq. unfold Py.int.
      destruct (0 <=? q) eqn:A.
      * apply Qleb_le in A.
        assert (Hz : q == 0) by lra.
        rewrite (Qfloor_comp q 0 Hz). change (inject_Z (Qfloor 0)) with 0. split; lra.
      * pose proof (Qceiling_lt q) as H1. pose proof (Qle_ceiling q) as H2.
        unfold Z.sub in H1. rewrite inject_Z_plus in H1.
        change (inject_Z (- (1))) with (- (1 # 1)) in H1. split; lra.
Qed.

(** The statement above for BTC/KRW (eight decimals) and PEPE/KRW (whole
    coins only). *)
Lemma format_qty_lies_on_the_precision_grid_witness :
  _get_qty_precision "BTC/KRW" = 8%nat /\
  _get_qty_precision "PEPE/KRW" = 0%nat /\
  exists n : Z,
    _format_qty "PEPE/KRW" 1234.9 = inject_Z n /\
    inject_Z n <= 1234.9 /\ 1234.9 < inject_Z n + 1.
Proof.
  split; [reflexivity|]. split; [reflexivity|].
  destruct (format_qty_lies_on_the_precision_grid "PEPE/KRW" 1234.9)
    as (_ & n & _ & _ & _ & H).
  destruct (H eq_refl) as (H1 & H2 & _).
  exists n. split; [exact H1|]. apply H2. vm_compute. discriminate.
Defined.

End Truncation.

Section Selling.

Import PositionManager ExecutionEngine.

Variable cfg : Config.t.
Variable ex : Exchange.

Lemma request_sell_approval_keeps (e : Engine) (sym : string) (pos : Position)
    (price : Q) (reason sell_type : string) (now : Q) :
  let r := _request_sell_approval ex e sym pos price reason sell_type now in
  pm (snd r) = pm e /\ sell_orders (snd r) = sell_orders e /\
  loss_streak (snd r) = loss_streak e.
Proof.
  unfold _request_sell_approval.
  destruct (_is_sl_pending sym e); [cbn; auto|].
  assert (Hh : forall b : bool, let h := (if b then is_sl_held sym now e else (false, e)) in
             pm (snd h) = pm e /\ sell_orders (snd h) = sell_orders e /\
             loss_streak (snd h) = loss_streak e).
  { intros [|]; cbn; [|auto]. unfold is_sl_held.
    destruct (sl_hold_until e !! sym) as [h|]; [|cbn; auto].
    destruct (h <=? now); cbn; auto. }
  specialize (Hh (String.eqb sell_type "sl")). cbv zeta in Hh.
  destruct (if String.eqb sell_type "sl" then is_sl_held sym now e else (false, e))
    as [held e1].
  cbn [fst snd] in Hh. destruct Hh as (H1 & H2 & H3).
  destruct held; [cbn; auto|].
  destruct (telegram_bot ex) as [[|]|]; cbn; auto.
Qed.

Lemma close_position_store (positions : Store) (sym : string) (price : Q) :
  let r := close_position positions sym price in
  snd r = positions \/
  (exists b, fst r = Ok b) /\ snd r = delete sym positions.
Proof.
  unfold close_position. destruct (positions !! sym) as [p|]; [|left; reflexivity].
  destruct (div (price - entry_price p) (entry_price p)); cbn; [right|left]; eauto.
Qed.

Lemma market_sell_effect :
  forall (e : Engine) (sym : string) (pos : Position) (reason : string)
         (ratio : Q) (skip_approval : bool) (now : Q),
    let r := market_sell cfg ex e sym pos reason ratio skip_approval now in
    (sell_orders (snd r) = sell_orders e \/
     exists q,
       sell_orders (snd r) = sell_orders e ++ [(sym, q)] /\
       0 < q /\ q <= _get_actual_balance ex sym /\
       (ratio < 1 -> q <= _get_actual_balance ex sym * ratio)) /\
    (pm (snd r) = pm e \/ pm (snd r) = delete sym (pm e)).
Proof.
  intros e sym pos reason ratio skip_approval now r. subst r.
  unfold market_sell.
  destruct (_get_price ex sym) as [price|]; [|cbn; auto].
  destruct (price <=? 0); [cbn; auto|].
  match goal with
  | |- context [if ?c then _request_sell_approval _ _ _ _ _ _ _ _ else _] =>
      destruct c
  end.
  { pose proof (request_sell_approval_keeps e sym pos price reason "signal" now)
      as (H1 & H2 & _).
    cbv zeta in *. rewrite H1, H2. auto. }
  cbv zeta.
  set (actual := _get_actual_balance ex sym).
  destruct (actual <=? 0) eqn:Ea.
  { pose proof (close_position_store (pm (_remove_sl_pending sym e)) sym price) as Hc.
    cbv zeta in Hc.
    destruct (close_position (pm (_remove_sl_pending sym e)) sym price) as [[b|x] st].
    - cbn [fst snd] in *. cbn. split; [auto|].
      destruct Hc as [-> | (_ & ->)]; cbn; auto.
    - cbn. auto. }
  apply Qleb_gt in Ea.
  set (sell_qty := _format_qty sym (if 1 <=? ratio then actual * 0.9995 else actual * ratio)).
  destruct (sell_qty <=? 0) eqn:Es; [cbn; auto|].
  apply Qleb_gt in Es.
  assert (Hq : sell_qty <= actual /\ (ratio < 1 -> sell_qty <= actual * ratio)).
  { unfold sell_qty in *.
    destruct (format_qty_pos sym
                (if 1 <=? ratio then actual * 0.9995 else actual * ratio) Es)
      as (Hpos & Hle).
    destruct (1 <=? ratio) eqn:Er.
    - apply Qleb_le in Er. split; [nra|]. intros H. lra.
    - apply Qleb_gt in Er. split; [nra|]. intros _. exact Hle. }
  assert (Hsent : forall l : list (string * Q),
            l = sell_orders e ++ [(sym, sell_qty)] ->
            l = sell_orders e \/
            exists q,
              l = sell_orders e ++ [(sym, q)] /\
              0 < q /\ q <= actual /\ (ratio < 1 -> q <= actual * ratio)).
  { intros l H1. right. exists sell_qty. tauto. }
  destruct (create_limit_sell ex sym sell_qty) as [[order|]|x].
  - destruct (_extract_fill_info order price sell_qty) as [[ap aq] oid].
    match goal with
    | |- context [close_position (pm ?e1) sym ap] =>
        set (e2 := e1);
        assert (Hpm : pm e2 = pm e);
        [|assert (Hso : sell_orders e2 = sell_orders e ++ [(sym, sell_qty)])]
    end.
    { unfold e2, _remove_sl_pending, register_trade_result, record_slippage.
      repeat match goal with
             | |- context [if ?c then _ else _] => destruct c
             end; reflexivity. }
    { unfold e2, _remove_sl_pending, register_trade_result, record_slippage.
      repeat match goal with
             | |- context [if ?c then _ else _] => destruct c
             end; reflexivity. }
    pose proof (close_position_store (pm e2) sym ap) as Hc. cbv zeta in Hc.
    destruct (close_position (pm e2) sym ap) as [[b|x] st].
    + cbn [fst snd] in *. cbn [sell_orders pm with_pm].
      split; [apply Hsent; exact Hso|].
      destruct Hc as [-> | (_ & ->)]; rewrite Hpm; auto.
    + cbn [fst snd sell_orders pm _send_error_alert].
      split; [apply Hsent; exact Hso|]. rewrite Hpm. auto.
  - cbn. split; [apply Hsent; reflexivity|auto].
  - cbn. split; [apply Hsent; reflexivity|auto].
Qed.

(** X21. [market_sell] never sells more than the exchange holds: it
    sends at most one order, for a positive quantity that does not exceed
    the balance reported by the exchange (nor that balance times the ratio,
    for a ratio below 1). Whatever happens, the position store is either
    left as it was or loses exactly the record of the symbol; it is left as
    it was whenever the call returns [False]. *)
Theorem market_sell_never_oversells :
  forall (e : Engine) (sym : string) (pos : Position) (reason : string)
         (ratio : Q) (skip_approval : bool) (now : Q),
    let r := market_sell cfg ex e sym pos reason ratio skip_approval now in
    (sell_orders (snd r) = sell_orders e \/
     exists q,
       sell_orders (snd r) = sell_orders e ++ [(sym, q)] /\
       0 < q /\ q <= _get_actual_balance ex sym /\
       (ratio < 1 -> q <= _get_actual_balance ex sym * ratio)) /\
    (pm (snd r) = pm e \/ pm (snd r) = delete sym (pm e)) /\
    (fst r = false -> pm (snd r) = pm e).
Proof.
  intros e sym pos reason ratio skip_approval now r.
  destruct (market_sell_effect e sym pos reason ratio skip_approval now)
    as (Horders & Hstore).
  split; [exact Horders|]. split; [exact Hstore|].
  clear Horders Hstore. subst r. unfold market_sell.
  destruct (_get_price ex sym) as [price|]; [|intros _; reflexivity].
  destruct (price <=? 0); [intros _; reflexivity|].
  match goal with
  | |- context [if ?c then _request_sell_approval _ _ _ _ _ _ _ _ else _] =>
      destruct c
  end.
  { intros _. apply request_sell_approval_keeps. }
  cbv zeta.
  destruct (_get_actual_balance ex sym <=? 0).
  { pose proof (close_position_store (pm (_remove_sl_pending sym e)) sym price) as Hc.
    cbv zeta in Hc.
    destruct (close_position (pm (_remove_sl_pending sym e)) sym price) as [[b|x] st];
      cbn [fst snd]; [intros H; discriminate|intros _; reflexivity]. }
  match goal with
  | |- context [if ?q <=? 0 then (false, e) else _] => destruct (q <=? 0)
  end; [intros _; reflexivity|].
  match goal with
  | |- context [create_limit_sell ex sym ?q] =>
      destruct (create_limit_sell ex sym q) as [[order|]|x];
        [|intros _; reflexivity|intros _; reflexivity]
  end.
  match goal with
  | |- context [_extract_fill_info order price ?q] =>
      destruct (_extract_fill_info order price q) as [[ap aq] oid]
  end.
  match goal with
  | |- context [close_position (pm ?e1) sym ap] =>
      set (e2 := e1); assert (Hpm : pm e2 = pm e)
  end.
  { unfold e2, _remove_sl_pending, register_trade_result, record_slippage.
    repeat match goal with
           | |- context [if ?c then _ else _] => destruct c
           end; reflexivity. }
  destruct (close_position (pm e2) sym ap) as [[b|x] st]; cbn [fst snd];
    [intros H; discriminate|intros _; exact Hpm].
Qed.

End Selling.

Section Approval.

Import PositionManager ExecutionEngine.

Variable ex : Exchange.

(** X22. A sell-approval request never sells and never touches the
    position store. It sends at most one message, and only for a symbol
    that is not already waiting for an answer: the symbol is then marked as
    pending, and until that mark is cleared every further request for the
    symbol, of any kind, returns [True] at once and sends nothing. A
    stop-loss request for a symbol under an unexpired SL hold does the
    same. *)
Theorem sell_approval_is_requested_once :
  forall (e : Engine) (sym : string) (pos : Position) (price : Q)
         (reason sell_type : string) (now : Q),
    let r := _request_sell_approval ex e sym pos price reason sell_type now in
    pm (snd r) = pm e /\ sell_orders (snd r) = sell_orders e /\
    (approval_requests (snd r) = approval_requests e \/
     approval_requests (snd r) = approval_requests e ++ [(sym, sell_type)] /\
     fst r = true /\ _is_sl_pending sym e = false /\
     forall pos2 price2 reason2 sell_type2 now2,
       _request_sell_approval ex (snd r) sym pos2 price2 reason2 sell_type2 now2 =
         (true, snd r)) /\
    (_is_sl_pending sym e = true -> r = (true, e)) /\
    (forall hold_until,
       sell_type = "sl" -> sl_hold_until e !! sym = Some hold_until ->
       now < hold_until -> r = (true, e)).
Proof.
  intros e sym pos price reason sell_type now r.
  pose proof (request_sell_approval_keeps ex e sym pos price reason sell_type now)
    as (K1 & K2 & _).
  cbv zeta in K1, K2. fold r in K1, K2.
  split; [exact K1|]. split; [exact K2|].
  assert (Hpend : forall e0 pos2 price2 reason2 sell_type2 now2,
            _is_sl_pending sym e0 = true ->
            _request_sell_approval ex e0 sym pos2 price2 reason2 sell_type2 now2 =
              (true, e0)).
  { intros e0 pos2 price2 reason2 sell_type2 now2 H0.
    unfold _request_sell_approval. rewrite H0. reflexivity. }
  split; [|split].
  - subst r. unfold _request_sell_approval.
    destruct (_is_sl_pending sym e) eqn:Hp; [left; reflexivity|].
    assert (Hh : forall b : bool,
               approval_requests
                 (snd (if b then is_sl_held sym now e else (false, e))) =
                 approval_requests e /\
               _is_sl_pending sym
                 (snd (if b then is_sl_held sym now e else (false, e))) = false).
    { intros [|]; cbn; [|auto]. unfold is_sl_held.
      destruct (sl_hold_until e !! sym) as [h|]; [|cbn; auto].
      destruct (h <=? now); cbn; auto. }
    specialize (Hh (String.eqb sell_type "sl")).
    destruct (if String.eqb sell_type "sl" then is_sl_held sym now e else (false, e))
      as [held e1].
    cbn [snd] in Hh. destruct Hh as (H1 & H2).
    destruct held; [left; exact H1|].
    destruct (telegram_bot ex) as [[|]|]; cbn [fst snd].
    + right. cbn. rewrite H1. split; [reflexivity|]. split; [reflexivity|].
      split; [reflexivity|].
      assert (Hp2 : _is_sl_pending sym
                      (add_approval_request sym sell_type (_add_sl_pending sym e1)) = true).
      { unfold _is_sl_pending. cbn. apply bool_decide_eq_true.
        apply elem_of_union_r. apply elem_of_singleton. reflexivity. }
      intros pos2 price2 reason2 sell_type2 now2. rewrite Hp2. reflexivity.
    + left. cbn. exact H1.
    + left. cbn. exact H1.
  - intros Hp. subst r. apply Hpend. exact Hp.
  - intros h -> Hh Hlt. subst r. unfold _request_sell_approval.
    destruct (_is_sl_pending sym e); [reflexivity|].
    cbn [String.eqb]. 
    replace (String.eqb "sl" "sl") with true by reflexivity.
    unfold is_sl_held. rewrite Hh.
    assert (E : (h <=? now) = false) by (apply Qleb_gt; exact Hlt).
    rewrite E. reflexivity.
Qed.




End Approval.

Section PositionMultiplier.

Import ExecutionEngine Trading.

(** X24. The dynamic position multiplier is 0 exactly when the
    decision carries a BTC-mode position multiplier that is not positive;
    otherwise it lies between 0.5 and 1.6, whatever the BTC mode and the
    confidence, and it is 1 when no decision (or an empty one) is given. *)
Theorem position_multiplier_zero_or_clamped :
  forall (ai_decision : AiArg),
    let m := _calculate_dynamic_position_multiplier ai_decision in
    (m = 0.0 \/ (0.5 <= m /\ m <= 1.6)) /\
    (m = 0.0 <->
     exists d pm, ai_decision = Dict d /\ d_position_mult d = Some pm /\ pm <= 0) /\
    (ai_of ai_decision = None -> m = 1.0).
Proof.
  intros ai_decision m. subst m.
  assert (Hclamp : forall x, 0.5 <= Py.max 0.5 (Py.min 1.6 x) /\
                             Py.max 0.5 (Py.min 1.6 x) <= 1.6).
  { intros x. unfold Py.max, Py.min.
    destruct (x <? 1.6) eqn:A.
    - apply Qltb_lt in A. destruct (0.5 <? x) eqn:B.
      + apply Qltb_lt in B. lra.
      + lra.
    - destruct (0.5 <? 1.6) eqn:B; [lra|]. exfalso. apply Qltb_ge in B. lra. }
  destruct ai_decision as [| |d]; cbn [_calculate_dynamic_position_multiplier ai_of].
  - split; [right; lra|]. split; [|reflexivity].
    split; [intros H; discriminate|intros (d & pm & H & _); discriminate].
  - split; [right; lra|]. split; [|reflexivity].
    split; [intros H; discriminate|intros (d & pm & H & _); discriminate].
  - cbv zeta.
    set (pm := match d_position_mult d with Some m => m | None => 1.0 end).
    destruct (pm <=? 0) eqn:E.
    + split; [left; reflexivity|]. split; [|intros H; discriminate].
      split; [|reflexivity]. intros _. apply Qleb_le in E.
      destruct (d_position_mult d) as [x|] eqn:Hx.
      * exists d, x. auto.
      * exfalso. unfold pm in E. lra.
    + apply Qleb_gt in E.
      match goal with
      | |- context [Py.max 0.5 (Py.min 1.6 ?x)] => destruct (Hclamp x) as (H1 & H2)
      end.
      split; [right; split; assumption|]. split; [|intros H; discriminate].
      split.
      * intros H0. exfalso. rewrite H0 in H1. lra.
      * intros (d' & x & Hd & Hx & Hle). injection Hd as <-.
        exfalso. unfold pm in E. rewrite Hx in E. lra.
Qed.

End PositionMultiplier.

Section TpSweepQuantities.

Import PositionManager ExecutionEngine Orders.

Variable cfg : Config.t.
Variable ex : Exchange.

Lemma tp_loop_quantities (sym : string) (price initial_qty : Q) (n : nat)
    (order : list nat) :
  forall (i : nat) (s : TpLoop),
    0 <= l_qty s ->
    let r := tp_loop ex sym price initial_qty n i order s in
    0 <= l_qty (snd r) /\ l_qty (snd r) <= l_qty s /\
    pm (l_engine (snd r)) = pm (l_engine s) /\
    exists sold,
      sell_orders (l_engine (snd r)) =
        sell_orders (l_engine s) ++ orders_of sym sold /\
      Forall (fun q => 0 < q) sold /\
      l_qty s - l_qty (snd r) <= total sold /\
      total sold <= l_qty s /\
      ((forall q x, create_limit_sell ex sym q <> Raise x) ->
       l_qty (snd r) == l_qty s - total sold).
Proof.
  induction order as [|k rest IH]; intros i s Hq; cbn [tp_loop].
  - cbn. split; [exact Hq|]. split; [lra|]. split; [reflexivity|].
    exists []. unfold orders_of. cbn [map]. rewrite app_nil_r.
      change (total []) with 0.
      split; [reflexivity|]. split; [constructor|]. split; [lra|].
      split; [lra|]. intros _. lra.
  - destruct (l_levels s !! k) as [lvl|]; [|apply IH; exact Hq].
    destruct (lvl_executed lvl); [apply IH; exact Hq|].
    cbv zeta.
    destruct ((_safe_float (Some (lvl_price lvl)) 0 <=? 0)
              || (_safe_float (Some (lvl_portion lvl)) 0 <=? 0));
      [apply IH; exact Hq|].
    destruct (price <? _safe_float (Some (lvl_price lvl)) 0).
    { cbn. split; [exact Hq|]. split; [lra|]. split; [reflexivity|].
      exists []. unfold orders_of. cbn [map]. rewrite app_nil_r.
      change (total []) with 0.
      split; [reflexivity|]. split; [constructor|]. split; [lra|].
      split; [lra|]. intros _. lra. }
    destruct (i =? n - 1)%nat.
    { cbn. split; [exact Hq|]. split; [lra|]. split; [reflexivity|].
      exists []. unfold orders_of. cbn [map]. rewrite app_nil_r.
      change (total []) with 0.
      split; [reflexivity|]. split; [constructor|]. split; [lra|].
      split; [lra|]. intros _. lra. }
    set (rq := Py.round (initial_qty * _safe_float (Some (lvl_portion lvl)) 0) 6).
    set (sell_qty := if l_qty s <? rq then l_qty s else rq).
    assert (Hsq : sell_qty <= l_qty s).
    { unfold sell_qty. destruct (l_qty s <? rq) eqn:E; [lra|].
      apply Qltb_ge in E. exact E. }
    destruct (sell_qty <=? 0) eqn:Es.
    { match goal with
      | |- context [tp_loop ex sym price initial_qty n (S i) rest ?s1] =>
          specialize (IH (S i) s1 Hq)
      end.
      exact IH. }
    apply Qleb_gt in Es.
    destruct (create_limit_sell ex sym sell_qty) as [o|x] eqn:Hc.
    2:{ cbn. split; [exact Hq|]. split; [lra|]. split; [reflexivity|].
        exists [sell_qty]. split; [reflexivity|].
        split; [repeat constructor; exact Es|].
        change (total [sell_qty]) with (sell_qty + 0).
        split; [lra|]. split; [lra|].
        intros Hno. exfalso. exact (Hno sell_qty x Hc). }
    assert (Hq' : 0 <= l_qty s - sell_qty) by lra.
    match goal with
    | |- context [if _ then (LoopEnd, ?s1) else _] => set (s' := s1)
    end.
    assert (Hs'q : l_qty s' = l_qty s - sell_qty) by reflexivity.
    assert (Hs'e : sell_orders (l_engine s') =
                   sell_orders (l_engine s) ++ [(sym, sell_qty)]) by reflexivity.
    assert (Hs'p : pm (l_engine s') = pm (l_engine s)) by reflexivity.
    clearbody s'.
    destruct (l_qty s - sell_qty <=? 0).
    { cbn [snd]. rewrite Hs'q, Hs'e, Hs'p.
      split; [exact Hq'|]. split; [lra|]. split; [reflexivity|].
      exists [sell_qty]. split; [reflexivity|].
      split; [repeat constructor; exact Es|].
      change (total [sell_qty]) with (sell_qty + 0).
      split; [lra|]. split; [lra|]. intros _. lra. }
    rewrite <- Hs'q in Hq'.
    specialize (IH (S i) s' Hq'). cbv zeta in IH.
    destruct IH as (I1 & I2 & I3 & sold & I4 & I5 & I6 & I8 & I7).
    rewrite Hs'q in I2, I6, I7, I8. rewrite Hs'e in I4. rewrite Hs'p in I3.
    split; [exact I1|]. split; [lra|]. split; [exact I3|].
    exists (sell_qty :: sold). split.
    { rewrite I4. rewrite <- app_assoc. reflexivity. }
    split; [constructor; [exact Es|exact I5]|].
    change (total (sell_qty :: sold)) with (sell_qty + total sold).
    split; [lra|]. split; [lra|].
    intros Hno. specialize (I7 Hno). lra.
Qed.

(** X25. A sweep of the take-profit ladder never sells more than the
    position holds: the stored quantity stays non-negative and never grows,
    every partial order is for a positive quantity, and the partial orders
    of one sweep add up to at most the quantity held before it; when the
    exchange raises on no order they add up to exactly the decrease of the
    stored quantity. Only when the last tier is reached does one more order
    follow, from [market_sell], bounded by the exchange balance. *)
Theorem tp_sweep_sells_at_most_the_held_quantity :
  forall (e : Engine) (sym : string) (pos : Position) (price now : Q),
    0 <= qty pos ->
    let r := _handle_tp_levels cfg ex e sym pos price now in
    let pos' := snd (fst r) in
    0 <= qty pos' /\ qty pos' <= qty pos /\
    exists sold final,
      (sell_orders (snd r) = sell_orders e ++ (orders_of sym sold ++ final)) /\
      Forall (fun q => 0 < q) sold /\
      qty pos - qty pos' <= total sold /\
      total sold <= qty pos /\
      ((forall q x, create_limit_sell ex sym q <> Raise x) ->
       qty pos' == qty pos - total sold) /\
      (fst (fst r) = false -> final = []) /\
      (final = [] \/
       exists q, final = [(sym, q)] /\ 0 < q /\ q <= _get_actual_balance ex sym).
Proof.
  intros e sym pos price now Hq r pos'. subst pos' r.
  assert (Hnone :
    0 <= qty pos /\ qty pos <= qty pos /\
    exists sold final,
      (sell_orders e = sell_orders e ++ (orders_of sym sold ++ final)) /\
      Forall (fun q => 0 < q) sold /\
      qty pos - qty pos <= total sold /\
      total sold <= qty pos /\
      ((forall q x, create_limit_sell ex sym q <> Raise x) ->
       qty pos == qty pos - total sold) /\
      (false = false -> final = []) /\
      (final = [] \/
       exists q, final = [(sym, q)] /\ 0 < q /\ q <= _get_actual_balance ex sym)).
  { split; [exact Hq|]. split; [lra|]. exists [], [].
    unfold orders_of. cbn [map app]. rewrite app_nil_r. change (total []) with 0.
    split; [reflexivity|]. split; [constructor|]. split; [lra|]. split; [lra|].
    split; [intros _; lra|]. split; [reflexivity|]. left. reflexivity. }
  unfold _handle_tp_levels.
  destruct (tp_levels pos) as [|l0 ls] eqn:Hl; [exact Hnone|].
  cbv zeta.
  destruct ((_safe_float (Some (initial_qty pos)) (_safe_float (Some (qty pos)) 0) <=? 0)
            || (_safe_float (Some (qty pos)) 0 <=? 0)); [exact Hnone|].
  match goal with
  | |- context [tp_loop ex sym price ?iq ?n 0 ?order ?s0] =>
      pose proof (tp_loop_quantities sym price iq n order 0%nat s0 Hq) as Hloop;
      cbv zeta in Hloop;
      destruct (tp_loop ex sym price iq n 0 order s0) as [exit s] eqn:Hrun
  end.
  cbn [fst snd l_qty l_engine] in Hloop.
  destruct Hloop as (L1 & L2 & L3 & sold & L4 & L5 & L6 & L7 & L8).
  destruct exit.
  - pose proof (market_sell_effect cfg ex (l_engine s) sym
                  (set_tp_levels (l_levels s)
                     (set_trailing (l_trailing s) (set_qty (l_qty s) pos)))
                  "TP3 익절" 1.0 true now) as (M1 & _).
    cbv zeta in M1.
    destruct (market_sell cfg ex (l_engine s) sym _ "TP3 익절" 1.0 true now)
      as [b e'].
    cbn [fst snd qty set_tp_levels set_trailing set_qty] in *.
    split; [exact L1|]. split; [exact L2|].
    destruct M1 as [M1 | (q & M1 & M2 & M3 & _)].
    + exists sold, []. rewrite app_nil_r, M1, L4.
      split; [reflexivity|]. split; [exact L5|]. split; [exact L6|].
      split; [exact L7|]. split; [exact L8|]. split; [reflexivity|].
      left. reflexivity.
    + exists sold, [(sym, q)]. rewrite M1, L4, <- app_assoc.
      split; [reflexivity|]. split; [exact L5|]. split; [exact L6|].
      split; [exact L7|]. split; [exact L8|]. split; [intros H; discriminate|].
      right. exists q. auto.
  - destruct (l_changed s);
      cbn [fst snd qty set_tp_levels set_trailing set_qty sell_orders with_pm];
      (split; [exact L1|]); (split; [exact L2|]);
      exists sold, []; rewrite app_nil_r, L4;
      (split; [reflexivity|]); (split; [exact L5|]); (split; [exact L6|]);
      (split; [exact L7|]); (split; [exact L8|]); (split; [reflexivity|]);
      left; reflexivity.
Qed.

End TpSweepQuantities.

Lemma tp_sweep_sells_at_most_the_held_quantity_witness :
  let pos := Scenarios.position 100 false false false false 100 in
  let r :=
    ExecutionEngine._handle_tp_levels Scenarios.cfg (Scenarios.exchange 104 100)
      (Scenarios.engine pos) "BTC/KRW" pos 104 0 in
  0 <= PositionManager.qty (snd (fst r)) /\
  PositionManager.qty (snd (fst r)) <= 100.
Proof.
  destruct (tp_sweep_sells_at_most_the_held_quantity Scenarios.cfg
              (Scenarios.exchange 104 100)
              (Scenarios.engine (Scenarios.position 100 false false false false 100))
              "BTC/KRW" (Scenarios.position 100 false false false false 100) 104 0)
    as (H1 & H2 & _).
  - vm_compute. discriminate.
  - split; [exact H1 | exact H2].
Defined.

(** ** Execution engine: the ladder and the sweep together *)

Section LadderSweep.

Import PositionManager ExecutionEngine.

Variable cfg : Config.t.
Variable ex : Exchange.












End LadderSweep.


Section LadderSweepExamples.

Import PositionManager ExecutionEngine Scenarios.


End LadderSweepExamples.

Section Buying.

Import PositionManager ExecutionEngine Trading.

Variable cfg : Config.t.
Variable ex : Exchange.
Variable api : BuyApi.
Variable mkt : RiskManager.Market.

Lemma record_slippage_keeps (sym side : string) (a b c : Q) (oid : option string)
    (e : Engine) :
  pm (record_slippage sym side a b c oid e) = pm e /\
  sell_orders (record_slippage sym side a b c oid e) = sell_orders e.
Proof. unfold record_slippage. destruct (a <=? 0); cbn; auto. Qed.

Lemma extract_fill_info_positive (order : Order) (ep eq : Q) :
  0 < ep -> 0 < eq ->
  0 < fst (fst (_extract_fill_info order ep eq)) /\
  0 < snd (fst (_extract_fill_info order ep eq)).
Proof.
  intros Hep Heq. unfold _extract_fill_info. cbv zeta. cbn [fst snd].
  assert (Hpos : forall (x : option Q) (d : Q), 0 < d ->
            0 < (if nonpositive x then d else _safe_float x d)).
  { intros x d Hd. unfold nonpositive, truthy, or_else, _safe_float.
    destruct x as [v|]; [|exact Hd].
    destruct (v =? 0) eqn:Ez; [exact Hd|].
    destruct (v <=? 0) eqn:El; [exact Hd|]. apply Qleb_gt in El. exact El. }
  split; apply Hpos; assumption.
Qed.

Lemma open_args_shape (d : option Decision) (ai : option AiDecision)
    (entry_price dynamic_mult : Q) :
  let args := snd (open_args cfg d ai entry_price dynamic_mult) in
  a_trailing args =
    Some (mkTrailing false (Some (trailing_trigger cfg)) (Some (trailing_offset cfg))
            (Some entry_price)) /\
  (exists l, a_tp_levels args = Some l /\ length l = 3%nat /\
             Forall (fun lvl => lvl_executed lvl = false) l) /\
  a_dynamic_mult args = dynamic_mult.
Proof.
  unfold open_args. cbv zeta. cbn [snd a_trailing a_tp_levels a_dynamic_mult].
  split; [reflexivity|]. split; [|reflexivity].
  eexists. split; [reflexivity|].
  match goal with
  | |- context [_build_tp_levels ?a ?b ?c] =>
      destruct (build_tp_levels_shape a b c) as (p1 & p2 & p3 & -> & _)
  end.
  split; [reflexivity|]. repeat constructor.
Qed.

(** The buy orders that [market_buy] sends; it sends no sell order. *)
Lemma market_buy_sent :
  forall (e : Engine) (sym : string) (krw_amount : Q) (ai_decision : AiArg)
         (pf_weight : Q) (now : string),
    let r := market_buy cfg ex api e sym krw_amount ai_decision pf_weight now in
    (snd r = [] \/
     exists amount free,
       snd r = [(sym, amount)] /\ krw_free api = Ok free /\
       amount <= free /\ inject_Z (Config.MIN_ORDER_AMOUNT cfg) <= amount) /\
    sell_orders (snd (fst r)) = sell_orders e.
Proof.
  intros e sym krw_amount ai_decision pf_weight now r. subst r.
  unfold market_buy.
  destruct (krw_free api) as [free|x] eqn:Hfree; [|split; [left|]; reflexivity].
  cbv zeta.
  destruct (_ <=? 0); [split; [left|]; reflexivity|].
  match goal with
  | |- context [if free <? ?a then free else ?a] =>
      set (amount := if free <? a then free else a);
      assert (Hamt : amount <= free)
        by (unfold amount; destruct (free <? a) eqn:E;
            [lra|apply Qltb_ge in E; exact E])
  end.
  destruct (amount <? inject_Z (Config.MIN_ORDER_AMOUNT cfg)) eqn:Emin;
    [split; [left|]; reflexivity|].
  apply Qltb_ge in Emin.
  destruct (_get_price ex sym) as [price|]; [|split; [left|]; reflexivity].
  destruct (price <=? 0); [split; [left|]; reflexivity|].
  destruct (_format_qty sym (amount / price) <=? 0); [split; [left|]; reflexivity|].
  assert (Hsent : forall l : list (string * Q), l = [(sym, amount)] ->
            l = [] \/
            exists amount0 free0,
              l = [(sym, amount0)] /\ Ok free = Ok free0 /\
              amount0 <= free0 /\ inject_Z (Config.MIN_ORDER_AMOUNT cfg) <= amount0).
  { intros l ->. right. exists amount, free. auto. }
  destruct (create_limit_buy api sym amount) as [[order|]|x];
    [|split; [apply Hsent|]; reflexivity|split; [apply Hsent|]; reflexivity].
  destruct (mem _ REFUSED); [split; [apply Hsent|]; reflexivity|].
  destruct (_extract_fill_info _ _ _) as [[ap aq] oid].
  destruct (_ || _); [split; [apply Hsent|]; reflexivity|].
  destruct (record_slippage_keeps sym "buy" price ap aq oid e) as (_ & S2).
  destruct ai_decision; cbn [fst snd];
    try destruct (open_args _ _ _ _ _) as [[[[? ?] ?] ?] ?];
    cbn [fst snd sell_orders _send_error_alert with_pm open_position];
    (split; [apply Hsent; reflexivity|exact S2]).
Qed.

(** X26. [market_buy] sends at most one buy order, never for more
    than the free KRW balance and never for less than the minimum order
    amount, and it sends no sell order. When it returns [False] the position
    store is as it was (also when the order had already been sent); when it
    returns [True] it has stored, under the symbol, a position with a
    positive quantity and entry price, at DCA stage 0, with a three-tier
    ladder none of whose tiers is executed and a trailing stop that is not
    armed, and the dynamic multiplier kept in it is positive. *)
Theorem market_buy_spends_within_free_balance :
  forall (e : Engine) (sym : string) (krw_amount : Q) (ai_decision : AiArg)
         (pf_weight : Q) (now : string),
    let r := market_buy cfg ex api e sym krw_amount ai_decision pf_weight now in
    let e' := snd (fst r) in
    (snd r = [] \/
     exists amount free,
       snd r = [(sym, amount)] /\ krw_free api = Ok free /\
       amount <= free /\ inject_Z (Config.MIN_ORDER_AMOUNT cfg) <= amount) /\
    sell_orders e' = sell_orders e /\
    (fst (fst r) = false -> pm e' = pm e) /\
    (fst (fst r) = true ->
     snd r <> [] /\
     exists pos,
       pm e' = <[sym := pos]> (pm e) /\
       0 < qty pos /\ 0 < entry_price pos /\ initial_qty pos = qty pos /\
       dca_stage pos = 0%Z /\ length (tp_levels pos) = 3%nat /\
       Forall (fun lvl => lvl_executed lvl = false) (tp_levels pos) /\
       trailing pos =
         Some (mkTrailing false (Some (trailing_trigger cfg))
                 (Some (trailing_offset cfg)) (Some (entry_price pos))) /\
       dynamic_mult pos = _calculate_dynamic_position_multiplier ai_decision /\
       0 < dynamic_mult pos).
Proof.
  intros e sym krw_amount ai_decision pf_weight now r e'. subst e' r.
  unfold market_buy.
  destruct (krw_free api) as [free|x] eqn:Hfree.
  2:{ cbn. split; [auto|]. split; [auto|]. split; [auto|]. intros H; discriminate. }
  cbv zeta.
  set (dm := _calculate_dynamic_position_multiplier ai_decision).
  destruct (dm <=? 0) eqn:Edm.
  { cbn. split; [auto|]. split; [auto|]. split; [auto|]. intros H; discriminate. }
  apply Qleb_gt in Edm.
  set (amount := if free <? krw_amount * (position_boost cfg * dm)
                 then free else krw_amount * (position_boost cfg * dm)).
  assert (Hamt : amount <= free).
  { unfold amount. destruct (free <? _) eqn:E; [lra|]. apply Qltb_ge in E. exact E. }
  destruct (amount <? inject_Z (Config.MIN_ORDER_AMOUNT cfg)) eqn:Emin.
  { cbn. split; [auto|]. split; [auto|]. split; [auto|]. intros H; discriminate. }
  apply Qltb_ge in Emin.
  destruct (_get_price ex sym) as [price|] eqn:Hprice.
  2:{ cbn. split; [auto|]. split; [auto|]. split; [auto|]. intros H; discriminate. }
  destruct (price <=? 0) eqn:Ep.
  { cbn. split; [auto|]. split; [auto|]. split; [auto|]. intros H; discriminate. }
  apply Qleb_gt in Ep.
  destruct (_format_qty sym (amount / price) <=? 0) eqn:Eq.
  { cbn. split; [auto|]. split; [auto|]. split; [auto|]. intros H; discriminate. }
  apply Qleb_gt in Eq.
  assert (Hsent : [(sym, amount)] = [] \/
            exists amount0 free0,
              [(sym, amount)] = [(sym, amount0)] /\ Ok free = Ok free0 /\
              amount0 <= free0 /\ inject_Z (Config.MIN_ORDER_AMOUNT cfg) <= amount0).
  { right. exists amount, free. auto. }
  destruct (create_limit_buy api sym amount) as [[order|]|x].
  2:{ cbn. split; [exact Hsent|]. split; [auto|]. split; [auto|]. intros H; discriminate. }
  2:{ cbn. split; [exact Hsent|]. split; [auto|]. split; [auto|]. intros H; discriminate. }
  destruct (mem (Retry.lower (opt (b_status order) "")) REFUSED).
  { cbn. split; [exact Hsent|]. split; [auto|]. split; [auto|]. intros H; discriminate. }
  pose proof (extract_fill_info_positive (b_fill order) price
                (_format_qty sym (amount / price)) Ep Eq) as Hfill.
  destruct (_extract_fill_info (b_fill order) price (_format_qty sym (amount / price)))
    as [[ap aq] oid].
  cbn [fst snd] in Hfill. destruct Hfill as (Hap & Haq).
  assert (E1 : (ap <=? 0) = false) by (apply Qleb_gt; exact Hap).
  assert (E2 : (aq <=? 0) = false) by (apply Qleb_gt; exact Haq).
  rewrite E1, E2. cbn [orb].
  destruct (record_slippage_keeps sym "buy" price ap aq oid e) as (S1 & S2).
  set (e1 := record_slippage sym "buy" price ap aq oid e) in *.
  set (dict := match ai_decision with
               | NoDecision => None
               | EmptyDecision => Some None
               | Dict d => Some (Some d)
               end).
  destruct dict as [d|].
  2:{ cbn. split; [exact Hsent|]. split; [auto|]. split; [auto|]. intros H; discriminate. }
  pose proof (open_args_shape d (ai_of ai_decision) ap dm) as Hargs.
  destruct (open_args cfg d (ai_of ai_decision) ap dm) as [[[[ai_tp ai_sl] ai_conf] ai_reason] args].
  cbn [snd] in Hargs. destruct Hargs as (A1 & (l & A2 & A3 & A4) & A5).
  unfold open_position. cbn [fst snd pm sell_orders with_pm].
  split; [exact Hsent|]. split; [exact S2|].
  split; [intros H; discriminate|]. intros _.
  split; [discriminate|].
  eexists. split; [rewrite S1; reflexivity|].
  unfold new_pos. rewrite A1, A2, A5.
  cbn [qty entry_price initial_qty dca_stage tp_levels trailing dynamic_mult].
  repeat split; auto.
Qed.

Lemma add_dca_store (positions : Store) (sym : string) (q p : Q) (now : string) :
  let r := add_dca positions sym q p now in
  (snd r = positions \/
   exists p0 p1,
     positions !! sym = Some p0 /\ snd r = <[sym := p1]> positions /\
     dca_stage p1 = (dca_stage p0 + 1)%Z /\ fst r = Ok true) /\
  (forall p0 b, positions !! sym = Some p0 -> fst r = Ok b ->
     exists p1, snd r !! sym = Some p1 /\ dca_stage p1 = (dca_stage p0 + 1)%Z).
Proof.
  unfold add_dca. destruct (positions !! sym) as [p0|] eqn:Hp.
  2:{ cbn. split; [left; reflexivity|]. intros p0 b H; discriminate. }
  cbv zeta.
  destruct (div (qty p0 * entry_price p0 + q * p) (qty p0 + q)) as [ne|x].
  - cbn [fst snd]. split.
    + right. eexists p0, _. split; [reflexivity|]. split; [reflexivity|].
      split; reflexivity.
    + intros p0' b H _. injection H as <-. eexists. rewrite lookup_insert_eq.
      split; reflexivity.
  - cbn. split; [left; reflexivity|]. intros p0' b _ H; discriminate.
Qed.

(** X27. [dca_buy] sends a buy order only for a position at a stage
    between 0 and 4 that is below both [MAX_DCA_COUNT] and the engine's own
    stage limit, and only when the price has fallen from the entry price by
    at least the drop that opens that stage (2, 4, 6, 9, 12 percent of the
    entry price, or of 1 for an entry price below 1) and the available KRW
    reach the minimum order amount; the order is for the available KRW
    times [BASE_TRADE_RISK_RATIO] times the position boost. It never sells,
    it changes nothing but the position store, and it changes nothing at
    all when it returns [False]; when it returns [True] for a stored
    position, that position has moved to the next stage. *)
Theorem dca_buy_needs_a_drop_and_a_free_stage :
  forall (e : Engine) (sym : string) (pos : Position) (now : string),
    let r := dca_buy cfg ex api mkt e sym pos now in
    let e' := snd (fst r) in
    (snd r <> [] ->
     exists level price avail,
       dca_levels (dca_stage pos) = Some level /\
       (0 <= dca_stage pos <= 4)%Z /\
       (dca_stage pos < Config.MAX_DCA_COUNT cfg)%Z /\
       (dca_stage pos < max_dca_stage cfg)%Z /\
       _get_price ex sym = Some price /\
       price <= entry_price pos - level * Py.max (entry_price pos) 1 /\
       RiskManager.get_available_krw mkt = Ok avail /\
       inject_Z (Config.MIN_ORDER_AMOUNT cfg) <= avail /\
       snd r =
         [(sym, avail * Config.BASE_TRADE_RISK_RATIO cfg * position_boost cfg)]) /\
    (fst (fst r) = false -> e' = e) /\
    (fst (fst r) = true ->
     snd r <> [] /\
     forall p0, pm e !! sym = Some p0 ->
       exists p1, pm e' !! sym = Some p1 /\ dca_stage p1 = (dca_stage p0 + 1)%Z) /\
    e' = with_pm (pm e') e.
Proof.
  intros e sym pos now r e'. subst e' r. unfold dca_buy. cbv zeta.
  assert (Heta : e = with_pm (pm e) e) by (destruct e; reflexivity).
  assert (Hnil : forall b : bool,
    (([] : list (string * Q)) <> [] ->
     exists level price avail,
       dca_levels (dca_stage pos) = Some level /\
       (0 <= dca_stage pos <= 4)%Z /\
       (dca_stage pos < Config.MAX_DCA_COUNT cfg)%Z /\
       (dca_stage pos < max_dca_stage cfg)%Z /\
       _get_price ex sym = Some price /\
       price <= entry_price pos - level * Py.max (entry_price pos) 1 /\
       RiskManager.get_available_krw mkt = Ok avail /\
       inject_Z (Config.MIN_ORDER_AMOUNT cfg) <= avail /\
       ([] : list (string * Q)) =
         [(sym, avail * Config.BASE_TRADE_RISK_RATIO cfg * position_boost cfg)]) /\
    (false = false -> e = e) /\
    (false = true ->
     ([] : list (string * Q)) <> [] /\
     forall p0, pm e !! sym = Some p0 ->
       exists p1, pm e !! sym = Some p1 /\ dca_stage p1 = (dca_stage p0 + 1)%Z) /\
    e = with_pm (pm e) e).
  { intros _. split; [intros H; congruence|]. split; [auto|].
    split; [intros H; discriminate|exact Heta]. }
  specialize (Hnil true).
  unfold _safe_float.
  destruct (entry_price pos <=? 0) eqn:Ee; [exact Hnil|]. apply Qleb_gt in Ee.
  destruct (Config.MAX_DCA_COUNT cfg <=? dca_stage pos)%Z eqn:Em; [exact Hnil|].
  apply Z.leb_gt in Em.
  destruct (dca_levels (dca_stage pos)) as [level|] eqn:Hlevel; [|exact Hnil].
  assert (Hstage : (0 <= dca_stage pos <= 4)%Z).
  { unfold dca_levels in Hlevel.
    destruct (dca_stage pos =? 0)%Z eqn:E0; [apply Z.eqb_eq in E0; lia|].
    destruct (dca_stage pos =? 1)%Z eqn:E1; [apply Z.eqb_eq in E1; lia|].
    destruct (dca_stage pos =? 2)%Z eqn:E2; [apply Z.eqb_eq in E2; lia|].
    destruct (dca_stage pos =? 3)%Z eqn:E3; [apply Z.eqb_eq in E3; lia|].
    destruct (dca_stage pos =? 4)%Z eqn:E4; [apply Z.eqb_eq in E4; lia|].
    discriminate. }
  destruct (max_dca_stage cfg <=? dca_stage pos)%Z eqn:Es; [exact Hnil|].
  apply Z.leb_gt in Es.
  destruct (_get_price ex sym) as [price|] eqn:Hprice; [|exact Hnil].
  destruct (price <=? 0); [exact Hnil|].
  destruct (- level <? (price - entry_price pos) / Py.max (entry_price pos) 1) eqn:Ed;
    [exact Hnil|].
  apply Qltb_ge in Ed.
  assert (Hmax : 1 <= Py.max (entry_price pos) 1).
  { unfold Py.max. destruct (entry_price pos <? 1) eqn:E; [lra|].
    apply Qltb_ge in E. exact E. }
  assert (Hdrop : price <= entry_price pos - level * Py.max (entry_price pos) 1).
  { set (m := Py.max (entry_price pos) 1) in *.
    assert (E : price - entry_price pos == (price - entry_price pos) / m * m)
      by (field; lra).
    assert ((price - entry_price pos) / m * m <= - level * m)
      by (apply Qmult_le_compat_r; lra).
    lra. }
  destruct (RiskManager.get_available_krw mkt) as [avail|x] eqn:Hav; [|exact Hnil].
  destruct (avail <? inject_Z (Config.MIN_ORDER_AMOUNT cfg)) eqn:Ea; [exact Hnil|].
  apply Qltb_ge in Ea.
  set (amount := avail * Config.BASE_TRADE_RISK_RATIO cfg * position_boost cfg).
  assert (Hsent : [(sym, amount)] <> [] ->
     exists level0 price0 avail0,
       Some level = Some level0 /\
       (0 <= dca_stage pos <= 4)%Z /\
       (dca_stage pos < Config.MAX_DCA_COUNT cfg)%Z /\
       (dca_stage pos < max_dca_stage cfg)%Z /\
       Some price = Some price0 /\
       price0 <= entry_price pos - level0 * Py.max (entry_price pos) 1 /\
       Ok avail = Ok avail0 /\
       inject_Z (Config.MIN_ORDER_AMOUNT cfg) <= avail0 /\
       [(sym, amount)] =
         [(sym, avail0 * Config.BASE_TRADE_RISK_RATIO cfg * position_boost cfg)]).
  { intros _. exists level, price, avail. repeat split; auto; lia. }
  destruct (create_limit_buy api sym amount) as [[order|]|x].
  - pose proof (add_dca_store (pm e) sym (Py.round (amount / price) 4) price now)
      as (_ & Hstore).
    cbv zeta in Hstore.
    destruct (add_dca (pm e) sym (Py.round (amount / price) 4) price now)
      as [[b|x] st].
    + cbn [fst snd] in *. split; [exact Hsent|].
      split; [intros H; discriminate|]. split; [|reflexivity].
      intros _. split; [discriminate|].
      intros p0 Hp0. cbn [pm with_pm]. exact (Hstore p0 b Hp0 eq_refl).
    + cbn [fst snd]. split; [exact Hsent|]. split; [auto|].
      split; [intros H; discriminate|exact Heta].
  - cbn [fst snd]. split; [exact Hsent|]. split; [auto|].
    split; [intros H; discriminate|exact Heta].
  - cbn [fst snd]. split; [exact Hsent|]. split; [auto|].
    split; [intros H; discriminate|exact Heta].
Qed.

End Buying.

Lemma market_buy_spends_within_free_balance_witness :
  let r :=
    Trading.market_buy Scenarios.cfg (Scenarios.exchange 100 0)
      TradingScenarios.buy_api TradingScenarios.empty_engine "BTC/KRW" 100000
      Trading.EmptyDecision 0.3 "t0" in
  fst (fst r) = true /\
  exists pos,
    ExecutionEngine.pm (snd (fst r)) = <["BTC/KRW" := pos]> ∅ /\
    0 < PositionManager.qty pos.
Proof.
  destruct (market_buy_spends_within_free_balance Scenarios.cfg
              (Scenarios.exchange 100 0) TradingScenarios.buy_api
              TradingScenarios.empty_engine "BTC/KRW" 100000
              Trading.EmptyDecision 0.3 "t0") as (_ & _ & _ & H).
  assert (Hok : fst (fst (Trading.market_buy Scenarios.cfg (Scenarios.exchange 100 0)
                      TradingScenarios.buy_api TradingScenarios.empty_engine
                      "BTC/KRW" 100000 Trading.EmptyDecision 0.3 "t0")) = true)
    by (vm_compute; reflexivity).
  split; [exact Hok|].
  destruct (H Hok) as (_ & pos & H1 & H2 & _).
  exists pos. split; [exact H1 | exact H2].
Defined.

Lemma dca_buy_needs_a_drop_and_a_free_stage_witness :
  let pos := Scenarios.position 100 false false false false 100 in
  let r :=
    Trading.dca_buy Scenarios.cfg (Scenarios.exchange 97 100)
      TradingScenarios.buy_api Scenarios.mkt (Scenarios.engine pos) "BTC/KRW" pos
      "t1" in
  fst (fst r) = true /\
  snd r = [("BTC/KRW", 500000 * 0.08 * 1.0)] /\
  exists p1,
    ExecutionEngine.pm (snd (fst r)) !! "BTC/KRW" = Some p1 /\
    PositionManager.dca_stage p1 = 1%Z.
Proof.
  destruct (dca_buy_needs_a_drop_and_a_free_stage Scenarios.cfg
              (Scenarios.exchange 97 100) TradingScenarios.buy_api Scenarios.mkt
              (Scenarios.engine (Scenarios.position 100 false false false false 100))
              "BTC/KRW" (Scenarios.position 100 false false false false 100) "t1")
    as (_ & _ & H & _).
  assert (Hok : fst (fst (Trading.dca_buy Scenarios.cfg (Scenarios.exchange 97 100)
                      TradingScenarios.buy_api Scenarios.mkt
                      (Scenarios.engine
                         (Scenarios.position 100 false false false false 100))
                      "BTC/KRW"
                      (Scenarios.position 100 false false false false 100) "t1"))
                = true) by (vm_compute; reflexivity).
  split; [exact Hok|]. split; [vm_compute; reflexivity|].
  destruct (H Hok) as (_ & H2).
  destruct (H2 (Scenarios.position 100 false false false false 100))
    as (p1 & H3 & H4).
  - apply lookup_singleton_eq.
  - exists p1. split; [exact H3|]. rewrite H4. reflexivity.
Defined.

Section Tick.

Import PositionManager ExecutionEngine Trading StoreRel.

Variable cfg : Config.t.
Variable ex : Exchange.
Variable api : BuyApi.
Variable mkt : RiskManager.Market.

Lemma only_touches_refl (sym : string) (m : Store) : only_touches sym m m.
Proof. split; auto. Qed.

Lemma only_touches_trans (sym : string) (a b c : Store) :
  only_touches sym a b -> only_touches sym b c -> only_touches sym a c.
Proof.
  intros (A1 & A2) (B1 & B2). split.
  - intros k Hk. rewrite B1, A1 by exact Hk. reflexivity.
  - auto.
Qed.

Lemma only_touches_delete (sym : string) (m : Store) :
  only_touches sym m (delete sym m).
Proof.
  split.
  - intros k Hk. apply lookup_delete_ne. congruence.
  - rewrite lookup_delete_eq. intros [x Hx]. discriminate.
Qed.

Lemma only_touches_insert (sym : string) (m : Store) (p : Position) :
  is_Some (m !! sym) -> only_touches sym m (<[sym := p]> m).
Proof.
  intros Hs. split.
  - intros k Hk. apply lookup_insert_ne. congruence.
  - intros _. exact Hs.
Qed.

Lemma update_position_touches (m : Store) (sym : string) (p : Position) :
  only_touches sym m (snd (update_position m sym p)).
Proof.
  unfold update_position. destruct (m !! sym) eqn:H; cbn [snd].
  - apply only_touches_insert. rewrite H. eauto.
  - apply only_touches_refl.
Qed.

Lemma shared_touches (sym : string) (p : Position) (e : Engine) :
  only_touches sym (pm e) (pm (shared sym p e)) /\
  sell_orders (shared sym p e) = sell_orders e.
Proof.
  unfold shared. destruct (pm e !! sym) eqn:H; cbn.
  - split; [|reflexivity]. apply only_touches_insert. rewrite H. eauto.
  - split; [|reflexivity]. apply only_touches_refl.
Qed.

Lemma market_sell_touches (e : Engine) (sym : string) (pos : Position)
    (reason : string) (ratio : Q) (skip : bool) (now : Q) :
  only_touches sym (pm e) (pm (snd (market_sell cfg ex e sym pos reason ratio skip now))).
Proof.
  destruct (market_sell_effect cfg ex e sym pos reason ratio skip now)
    as (_ & [-> | ->]).
  - apply only_touches_refl.
  - apply only_touches_delete.
Qed.

Lemma stop_loss_exit_touches (e : Engine) (sym : string) (pos : Position)
    (price : Q) (r1 r2 : string) (now : Q) :
  only_touches sym (pm e) (pm (stop_loss_exit cfg ex e sym pos price r1 r2 now)) /\
  (Config.SEMI_MODE cfg = true ->
   pm (stop_loss_exit cfg ex e sym pos price r1 r2 now) = pm e /\
   sell_orders (stop_loss_exit cfg ex e sym pos price r1 r2 now) = sell_orders e).
Proof.
  unfold stop_loss_exit. destruct (Config.SEMI_MODE cfg).
  - destruct (request_sell_approval_keeps ex e sym pos price r1 "sl" now)
      as (H1 & H2 & _).
    cbv zeta in *. rewrite H1, H2. split; [apply only_touches_refl|auto].
  - split; [apply market_sell_touches|intros H; discriminate].
Qed.

Lemma apply_legacy_exit_touches (e : Engine) (sym : string) (pos : Position)
    (price entry now : Q) :
  let r := _apply_legacy_exit cfg ex e sym pos price entry now in
  only_touches sym (pm e) (pm (snd r)) /\ (fst r = false -> snd r = e).
Proof.
  unfold _apply_legacy_exit. cbv zeta.
  repeat match goal with
         | |- context [if ?c then _ else _] => destruct c
         end; cbn [fst snd];
    (split; [|first [reflexivity | intros H; discriminate]]);
    first [apply only_touches_refl | apply market_sell_touches
          | apply stop_loss_exit_touches].
Qed.

Lemma tp_loop_pm (sym : string) (price initial_qty : Q) (n : nat)
    (order : list nat) :
  forall (i : nat) (s : TpLoop),
    pm (l_engine (snd (tp_loop ex sym price initial_qty n i order s))) =
    pm (l_engine s).
Proof.
  induction order as [|k rest IH]; intros i s; cbn [tp_loop]; [reflexivity|].
  destruct (l_levels s !! k) as [lvl|]; [|apply IH].
  destruct (lvl_executed lvl); [apply IH|]. cbv zeta.
  destruct (_ || _); [apply IH|].
  destruct (price <? _); [reflexivity|].
  destruct (i =? n - 1)%nat; [reflexivity|].
  destruct (_ <=? 0); [rewrite IH; reflexivity|].
  destruct (create_limit_sell ex sym _); [|reflexivity].
  destruct (_ <=? 0); [reflexivity|]. rewrite IH. reflexivity.
Qed.

Lemma handle_tp_levels_touches (e : Engine) (sym : string) (pos : Position)
    (price now : Q) :
  only_touches sym (pm e)
    (pm (snd (_handle_tp_levels cfg ex e sym pos price now))).
Proof.
  unfold _handle_tp_levels.
  destruct (tp_levels pos) as [|l0 ls]; [apply only_touches_refl|].
  cbv zeta. destruct (_ || _); [apply only_touches_refl|].
  match goal with
  | |- context [tp_loop ex sym price ?iq ?n 0 ?order ?s0] =>
      pose proof (tp_loop_pm sym price iq n order 0%nat s0) as Hpm;
      destruct (tp_loop ex sym price iq n 0 order s0) as [exit s]
  end.
  cbn [snd l_engine] in Hpm.
  destruct exit.
  - match goal with
    | |- context [market_sell cfg ex (l_engine s) sym ?p ?r ?ra ?sk now] =>
        pose proof (market_sell_touches (l_engine s) sym p r ra sk now) as Hm;
        destruct (market_sell cfg ex (l_engine s) sym p r ra sk now) as [b e']
    end.
    cbn [snd] in *. rewrite Hpm in Hm. exact Hm.
  - destruct (l_changed s); cbn [snd pm with_pm].
    + rewrite <- Hpm. apply update_position_touches.
    + rewrite Hpm. apply only_touches_refl.
Qed.

Lemma check_trailing_stop_touches (e : Engine) (sym : string) (pos : Position)
    (price : Q) :
  only_touches sym (pm e) (pm (snd (check_trailing_stop e sym pos price))) /\
  sell_orders (snd (check_trailing_stop e sym pos price)) = sell_orders e.
Proof.
  unfold check_trailing_stop.
  destruct (trailing pos) as [tr|]; [|split; [apply only_touches_refl|reflexivity]].
  destruct (negb (tr_enabled tr)); [split; [apply only_touches_refl|reflexivity]|].
  cbv zeta.
  repeat match goal with
         | |- context [if ?c then _ else _] => destruct c
         end;
    try destruct (tr_offset tr);
    cbn [snd pm with_pm sell_orders];
    (split; [first [apply only_touches_refl | apply update_position_touches]
            |reflexivity]).
Qed.

Lemma dca_buy_touches (e : Engine) (sym : string) (pos : Position) (now : string) :
  let r := dca_buy cfg ex api mkt e sym pos now in
  only_touches sym (pm e) (pm (snd (fst r))) /\
  Forall (fun o => fst o = sym) (snd r).
Proof.
  unfold dca_buy. cbv zeta.
  repeat match goal with
         | |- context [if ?c then (false, e, []) else _] => destruct c
         | |- context [match ?c with Some _ => _ | None => (false, e, []) end] =>
             destruct c
         | |- context [match ?c with Ok _ => _ | Raise _ => (false, e, []) end] =>
             destruct c
         end;
    try (cbn [fst snd]; split; [apply only_touches_refl|constructor]).
  match goal with
  | |- context [create_limit_buy api sym ?a] =>
      destruct (create_limit_buy api sym a) as [[o|]|x]
  end;
    try (cbn [fst snd]; split; [apply only_touches_refl|repeat constructor]).
  match goal with
  | |- context [add_dca (pm e) sym ?q ?p now] =>
      pose proof (add_dca_store (pm e) sym q p now) as (Hs & _);
      destruct (add_dca (pm e) sym q p now) as [[b|x] st]
  end;
    cbn [fst snd pm with_pm] in *;
    (split; [|repeat constructor]).
  - destruct Hs as [-> | (p0 & p1 & H0 & -> & _)].
    + apply only_touches_refl.
    + apply only_touches_insert. rewrite H0. eauto.
  - apply only_touches_refl.
Qed.

Lemma check_position_touches (e : Engine) (sym : string) (pos : Position)
    (now : Q) (stamp : string) :
  let r := check_position cfg ex api mkt e sym pos now stamp in
  only_touches sym (pm e) (pm (fst r)) /\
  Forall (fun o => fst o = sym) (snd r).
Proof.
  unfold check_position.
  destruct (_get_price ex sym) as [price|];
    [|cbn; split; [apply only_touches_refl|constructor]].
  destruct (price <=? 0); [cbn; split; [apply only_touches_refl|constructor]|].
  cbv zeta.
  destruct (_safe_float (Some (entry_price pos)) 0 <=? 0);
    [cbn; split; [apply only_touches_refl|constructor]|].
  set (has_levels := match tp_levels pos with [] => false | _ => true end).
  match goal with
  | |- context [match ?x with Some e0 => (e0, []) | None => _ end] =>
      set (early := x)
  end.
  assert (Hearly : forall e1, early = Some e1 -> only_touches sym (pm e) (pm e1)).
  { intros e1. unfold early. destruct has_levels.
    - repeat match goal with
             | |- context [if ?c then _ else _] => destruct c
             end; intros H; try discriminate; injection H as <-;
        apply stop_loss_exit_touches.
    - pose proof (apply_legacy_exit_touches e sym pos price
                    (_safe_float (Some (entry_price pos)) 0) now) as (H1 & _).
      cbv zeta in H1.
      destruct (_apply_legacy_exit cfg ex e sym pos price _ now) as [done e'].
      cbn [snd] in H1. destruct done; intros H; try discriminate.
      injection H as <-. exact H1. }
  destruct early as [e1|].
  { cbn [fst snd]. split; [apply Hearly; reflexivity|constructor]. }
  clear Hearly.
  assert (Htp : only_touches sym (pm e)
                  (pm (snd (if has_levels
                            then _handle_tp_levels cfg ex e sym pos price now
                            else (false, pos, e))))).
  { destruct has_levels; [apply handle_tp_levels_touches|apply only_touches_refl]. }
  destruct (if has_levels then _handle_tp_levels cfg ex e sym pos price now
            else (false, pos, e)) as [[closed pos1] e1].
  cbn [snd] in Htp.
  pose proof (shared_touches sym pos1 e1) as (Hsh & _).
  pose proof (only_touches_trans _ _ _ _ Htp Hsh) as H1.
  destruct closed; [cbn [fst snd]; split; [exact H1|constructor]|].
  pose proof (check_trailing_stop_touches (shared sym pos1 e1) sym pos1 price)
    as (Hts & _).
  pose proof (only_touches_trans _ _ _ _ H1 Hts) as H2.
  destruct (check_trailing_stop (shared sym pos1 e1) sym pos1 price)
    as [[res pos2] e2].
  cbn [snd] in Hts, H2.
  pose proof (shared_touches sym pos2 e2) as (Hsh2 & _).
  pose proof (only_touches_trans _ _ _ _ H2 Hsh2) as H3.
  destruct res as [[|]|x].
  - cbn [fst snd]. split; [|constructor].
    eapply only_touches_trans; [exact H3|]. apply stop_loss_exit_touches.
  - pose proof (dca_buy_touches (shared sym pos2 e2) sym pos2 stamp)
      as (Hd & Hf).
    cbv zeta in Hd, Hf.
    destruct (dca_buy cfg ex api mkt (shared sym pos2 e2) sym pos2 stamp)
      as [[b e3] sent].
    cbn [fst snd] in *. split; [|exact Hf].
    eapply only_touches_trans; [exact H3|exact Hd].
  - cbn [fst snd]. split; [exact H3|constructor].
Qed.

Lemma check_positions_fold (positions : Store) (now : Q) (stamp : string)
    (symbols : list string) :
  forall (acc : Engine * list (string * Q)),
    let r :=
      foldl (fun acc sym =>
               match positions !! sym with
               | None => acc
               | Some pos =>
                   let '(e, sent) :=
                     check_position cfg ex api mkt (fst acc) sym pos now stamp in
                   (e, snd acc ++ sent)
               end) acc symbols in
    (forall k, is_Some (pm (fst r) !! k) -> is_Some (pm (fst acc) !! k)) /\
    (forall k, k ∉ symbols -> pm (fst r) !! k = pm (fst acc) !! k) /\
    exists sent,
      snd r = snd acc ++ sent /\
      Forall (fun o => fst o ∈ symbols /\ is_Some (positions !! fst o)) sent.
Proof.
  induction symbols as [|sym symbols IH]; intros acc; cbn [foldl].
  - split; [auto|]. split; [auto|]. exists []. rewrite app_nil_r.
    split; [reflexivity|constructor].
  - destruct (positions !! sym) as [pos|] eqn:Hpos.
    + pose proof (check_position_touches (fst acc) sym pos now stamp) as (Ht & Hf).
      cbv zeta in Ht, Hf.
      destruct (check_position cfg ex api mkt (fst acc) sym pos now stamp)
        as [e1 sent1].
      cbn [fst snd] in Ht, Hf.
      destruct (IH (e1, snd acc ++ sent1)) as (I1 & I2 & sent & I3 & I4).
      cbn [fst snd] in I1, I2, I3.
      destruct Ht as (T1 & T2).
      split; [|split].
      * intros k Hk. apply I1 in Hk.
        destruct (decide (k = sym)) as [->|Hne]; [auto|].
        rewrite T1 in Hk by exact Hne. exact Hk.
      * intros k Hk. apply not_elem_of_cons in Hk as (Hne & Hk).
        rewrite I2 by exact Hk. apply T1. exact Hne.
      * exists (sent1 ++ sent). rewrite I3, <- app_assoc. split; [reflexivity|].
        apply Forall_app. split.
        -- eapply Forall_impl; [exact Hf|]. cbn. intros o ->.
           split; [apply list_elem_of_here|]. rewrite Hpos. eauto.
        -- eapply Forall_impl; [exact I4|]. cbn. intros o (H1 & H2).
           split; [apply list_elem_of_further; exact H1|exact H2].
    + destruct (IH acc) as (I1 & I2 & sent & I3 & I4).
      split; [exact I1|]. split.
      * intros k Hk. apply not_elem_of_cons in Hk as (_ & Hk). apply I2. exact Hk.
      * exists sent. split; [exact I3|].
        eapply Forall_impl; [exact I4|]. cbn. intros o (H1 & H2).
        split; [apply list_elem_of_further; exact H1|exact H2].
Qed.

(** X28. A tick of [check_positions] never opens a position: every
    symbol stored after it was stored before it, the records of symbols that
    are not walked are left as they were, and every buy order sent during
    the tick is a DCA order for a symbol that was walked and held when the
    tick started. *)
Theorem check_positions_never_opens_a_position :
  forall (e : Engine) (symbols : list string) (now : Q) (stamp : string),
    let r := check_positions cfg ex api mkt e symbols now stamp in
    (forall k, is_Some (pm (fst r) !! k) -> is_Some (pm e !! k)) /\
    (forall k, k ∉ symbols -> pm (fst r) !! k = pm e !! k) /\
    Forall (fun o => fst o ∈ symbols /\ is_Some (pm e !! fst o)) (snd r).
Proof.
  intros e symbols now stamp r. subst r. unfold check_positions.
  destruct (check_positions_fold (pm e) now stamp symbols (e, []))
    as (H1 & H2 & sent & H3 & H4).
  cbn [fst snd] in *. split; [exact H1|]. split; [exact H2|].
  rewrite H3. exact H4.
Qed.

(** X29. In the per-tick check of a position with a take-profit
    ladder the stop-loss comes first: when a current price is available, the
    entry price is positive and the price is at or below a positive SL
    price, or at or below the entry price lowered by a positive AI SL
    ratio, the body does nothing but the stop-loss exit, so no tier of the
    ladder is sold and no DCA order is sent. In SEMI mode that exit sells
    nothing and leaves the store as it is (it can only ask for approval);
    otherwise it is [market_sell] for the whole position without skipping
    the approval step. *)
Theorem check_position_stop_loss_comes_first :
  forall (e : Engine) (sym : string) (pos : Position) (now : Q) (stamp : string)
         (price : Q),
    _get_price ex sym = Some price ->
    0 < entry_price pos ->
    tp_levels pos <> [] ->
    ((exists sl_price, sl pos = Some sl_price /\ 0 < sl_price /\ price <= sl_price) \/
     (0 < ai_sl pos /\ price <= entry_price pos * (1.0 - ai_sl pos))) ->
    let r := check_position cfg ex api mkt e sym pos now stamp in
    snd r = [] /\
    (Config.SEMI_MODE cfg = true ->
     pm (fst r) = pm e /\ sell_orders (fst r) = sell_orders e) /\
    (Config.SEMI_MODE cfg = false ->
     exists reason,
       fst r = snd (market_sell cfg ex e sym pos reason 1.0 false now)).
Proof.
  intros e sym pos now stamp price Hprice Hentry Hlevels Hsl r. subst r.
  unfold check_position. rewrite Hprice.
  pose proof (_get_price_positive ex sym price Hprice) as Hpos.
  assert (E1 : (price <=? 0) = false) by (apply Qleb_gt; exact Hpos).
  rewrite E1. cbv zeta.
  change (_safe_float (Some (entry_price pos)) 0) with (entry_price pos).
  change (_safe_float (Some (ai_sl pos)) 0) with (ai_sl pos).
  assert (E2 : (entry_price pos <=? 0) = false) by (apply Qleb_gt; exact Hentry).
  rewrite E2.
  destruct (tp_levels pos) as [|l0 ls]; [congruence|].
  assert (Hexit : forall r1 r2,
            (Config.SEMI_MODE cfg = true ->
             pm (stop_loss_exit cfg ex e sym pos price r1 r2 now) = pm e /\
             sell_orders (stop_loss_exit cfg ex e sym pos price r1 r2 now) =
               sell_orders e) /\
            (Config.SEMI_MODE cfg = false ->
             exists reason,
               stop_loss_exit cfg ex e sym pos price r1 r2 now =
                 snd (market_sell cfg ex e sym pos reason 1.0 false now))).
  { intros r1 r2. split; [apply stop_loss_exit_touches|].
    intros Hm. unfold stop_loss_exit. rewrite Hm. eexists. reflexivity. }
  destruct ((0 <? _safe_float (sl pos) 0) && (price <=? _safe_float (sl pos) 0)) eqn:Es.
  { cbn [fst snd]. split; [reflexivity|]. apply Hexit. }
  assert (Eai : ((0 <? ai_sl pos)
                 && (price <=? entry_price pos * (1.0 - ai_sl pos))) = true).
  { destruct Hsl as [(sl_price & Hs1 & Hs2 & Hs3) | (Ha1 & Ha2)].
    - exfalso. rewrite Hs1 in Es. cbn [_safe_float] in Es.
      apply andb_false_iff in Es as [Es | Es].
      + apply Qltb_ge in Es. lra.
      + apply Qleb_gt in Es. lra.
    - apply andb_true_iff. split.
      + apply Qltb_lt. exact Ha1.
      + apply Qleb_le. exact Ha2. }
  rewrite Eai. cbn [fst snd]. split; [reflexivity|]. apply Hexit.
Qed.

End Tick.

Lemma check_position_stop_loss_comes_first_witness :
  let pos := Scenarios.position 100 false false false false 100 in
  let r :=
    Trading.check_position Scenarios.cfg (Scenarios.exchange 98 100)
      TradingScenarios.buy_api Scenarios.mkt (Scenarios.engine pos) "BTC/KRW" pos
      0 "t1" in
  snd r = [] /\
  ExecutionEngine.pm (fst r) = ExecutionEngine.pm (Scenarios.engine pos) /\
  ExecutionEngine.sell_orders (fst r) = [].
Proof.
  destruct (check_position_stop_loss_comes_first Scenarios.cfg
              (Scenarios.exchange 98 100) TradingScenarios.buy_api Scenarios.mkt
              (Scenarios.engine (Scenarios.position 100 false false false false 100))
              "BTC/KRW" (Scenarios.position 100 false false false false 100)
              0 "t1" 98) as (H1 & H2 & _).
  - reflexivity.
  - reflexivity.
  - discriminate.
  - right. split; [reflexivity|]. vm_compute. discriminate.
  - split; [exact H1|]. exact (H2 eq_refl).
Defined.

Section Execute.

Import PositionManager ExecutionEngine Trading.

Variable cfg : Config.t.
Variable ex : Exchange.
Variable api : BuyApi.
Variable mkt : RiskManager.Market.

(** X30. [execute] acts on the signals ["buy"] and ["sell"] only. A
    buy signal for a symbol that is already held is refused outside
    aggressive mode, with nothing sent and nothing changed, and so is a sell
    signal for a symbol that is not held. A sell signal in SEMI mode never
    sells: it leaves the store and the sell orders as they are and can only
    ask for approval. No call of [execute] both buys and sells, and a buy
    never spends more than the free KRW balance. *)
Theorem execute_guards_signals :
  forall (e : Engine) (sym final_signal : string) (ai_decision : AiArg)
         (pf_weight now : Q) (stamp : string),
    let r := execute cfg ex api mkt e sym final_signal ai_decision pf_weight now stamp in
    let e' := snd (fst r) in
    (final_signal <> "buy" -> final_signal <> "sell" -> r = (false, e, [])) /\
    (final_signal = "buy" -> Config.AGGRESSIVE_MODE cfg = false ->
     is_Some (pm e !! sym) -> r = (false, e, [])) /\
    (final_signal = "sell" -> pm e !! sym = None -> r = (false, e, [])) /\
    (final_signal = "sell" -> Config.SEMI_MODE cfg = true ->
     pm e' = pm e /\ sell_orders e' = sell_orders e /\ snd r = []) /\
    (snd r = [] \/ sell_orders e' = sell_orders e) /\
    (forall o free, o ∈ snd r -> krw_free api = Ok free -> fst o = sym /\ snd o <= free).
Proof.
  intros e sym final_signal ai_decision pf_weight now stamp r e'. subst e' r.
  unfold execute.
  destruct (String.eqb_spec final_signal "sell") as [Hs|Hs].
  - subst final_signal.
    split; [intros _ H; congruence|].
    split; [intros H; discriminate|].
    unfold get_position.
    destruct (pm e !! sym) as [pos|] eqn:Hpos.
    2:{ cbn. split; [reflexivity|]. split; [auto|]. split; [auto|].
        intros o free Ho. inversion Ho. }
    split; [intros _ H; discriminate|].
    destruct (Config.SEMI_MODE cfg).
    + destruct (_get_price ex sym) as [price|].
      * destruct (request_sell_approval_keeps ex e sym pos price
                    "전략 신호 매도" "signal" now) as (K1 & K2 & _).
        cbv zeta in K1, K2.
        destruct (_request_sell_approval ex e sym pos price _ "signal" now)
          as [b e1].
        cbn [fst snd] in *. split; [auto|]. split; [auto|].
        intros o free Ho. inversion Ho.
      * cbn. split; [auto|]. split; [auto|]. intros o free Ho. inversion Ho.
    + destruct (market_sell cfg ex e sym pos _ 1.0 false now) as [b e1].
      cbn [fst snd]. split; [intros _ H; discriminate|]. split; [auto|].
      intros o free Ho. inversion Ho.
  - split; [|split; [|split; [intros H; congruence|split; [intros H; congruence|]]]].
    + intros Hb _. destruct (String.eqb_spec final_signal "buy"); [congruence|].
      reflexivity.
    + intros -> Hagg Hheld. cbn [String.eqb Ascii.eqb Bool.eqb].
      replace (String.eqb "buy" "buy") with true by reflexivity.
      unfold aggressive. rewrite Hagg. cbn [negb andb].
      unfold has_position. rewrite bool_decide_eq_true_2 by exact Hheld.
      reflexivity.
    + destruct (String.eqb final_signal "buy").
      2:{ cbn. split; [auto|]. intros o free Ho. inversion Ho. }
      destruct (negb (aggressive cfg) && has_position (pm e) sym).
      { cbn. split; [auto|]. intros o free Ho. inversion Ho. }
      destruct (RiskManager.get_trade_amount cfg (pm e) mkt sym pf_weight false
                  None None 0.5) as [krw|x].
      2:{ cbn. split; [auto|]. intros o free Ho. inversion Ho. }
      destruct (market_buy_sent cfg ex api e sym krw ai_decision pf_weight stamp)
        as (B1 & B2).
      cbv zeta in B1, B2.
      destruct (market_buy cfg ex api e sym krw ai_decision pf_weight stamp)
        as [[b e1] sent].
      cbn [fst snd] in *. split; [auto|].
      intros o free Ho Hfree.
      destruct B1 as [-> | (amount & free0 & -> & Hf0 & Hle & _)]; [inversion Ho|].
      apply list_elem_of_singleton in Ho. subst o. cbn.
      rewrite Hfree in Hf0. injection Hf0 as <-. auto.
Qed.

End Execute.

(** ** Concrete runs of the properties above *)

Lemma retry_sleeps_bounded_and_raises_last_error_witness :
  let r := Retry.wrapper (A := nat) 2 1 30 2 (fun _ => Retry.Raised "timeout") in
  fst r = Retry.Error "timeout" /\ length (snd r) = 2%nat /\
  Forall (fun w => w <= 30) (snd r).
Proof.
  destruct (retry_sleeps_bounded_and_raises_last_error nat 2 1 30 2
              (fun _ => Retry.Raised "timeout")) as (_ & _ & H3 & H4).
  split; [reflexivity|]. split; [|exact H3].
  destruct (H4 "timeout" eq_refl) as (H5 & _). exact H5.
Defined.

Lemma remaining_cooldown_agrees_with_can_trade_witness :
  let tripped := CircuitBreaker.record_trade (CircuitBreaker.init 1 3.0 10 30 0)
                   (-100) (-0.1) 0 in
  BreakerMore.get_remaining_cooldown tripped 600 = 20%Z /\
  CircuitBreaker.can_trade tripped 600 = (false, tripped).
Proof.
  destruct (remaining_cooldown_agrees_with_can_trade
              (CircuitBreaker.record_trade (CircuitBreaker.init 1 3.0 10 30 0)
                 (-100) (-0.1) 0) 600) as (_ & _ & H3 & _).
  split; [reflexivity|]. apply H3. reflexivity.
Defined.

Lemma sl_hold_queries_agree_witness :
  let holds := snd (SlHold.set_sl_hold ∅ "BTC/KRW" 4 0) in
  fst (SlHold.is_sl_held holds "BTC/KRW" 3600) = true /\
  fst (SlHold.get_sl_hold_remaining holds "BTC/KRW" 3600) = Some 180%Z /\
  fst (SlHold.is_sl_held holds "BTC/KRW" 14400) = false.
Proof.
  destruct (sl_hold_queries_agree (snd (SlHold.set_sl_hold ∅ "BTC/KRW" 4 0))
              "BTC/KRW" 3600) as (_ & H2 & _).
  split; [|split; reflexivity].
  apply H2. eexists. reflexivity.
Defined.

Lemma close_position_removes_record_unless_entry_price_zero_witness :
  let store : PositionManager.Store :=
    {["ETH/KRW" := Scenarios.position 1 false false false false 100]} in
  PositionManager.close_position
    (snd (PositionManager.open_position store "BTC/KRW" 10 100 0.3 0.02 0.01 0.8 ""
            PositionManager.default_args "t0")) "BTC/KRW" 110 = (Ok true, store) /\
  PositionManager.close_position
    (snd (PositionManager.open_position store "BTC/KRW" 10 0 0.3 0.02 0.01 0.8 ""
            PositionManager.default_args "t0")) "BTC/KRW" 110 =
    (Raise ZeroDivisionError,
     snd (PositionManager.open_position store "BTC/KRW" 10 0 0.3 0.02 0.01 0.8 ""
            PositionManager.default_args "t0")).
Proof.
  split.
  - destruct (close_position_removes_record_unless_entry_price_zero
                {["ETH/KRW" := Scenarios.position 1 false false false false 100]}
                "BTC/KRW" 110) as (_ & _ & _ & H4).
    apply H4; [reflexivity|]. vm_compute. discriminate.
  - destruct (close_position_removes_record_unless_entry_price_zero
                (snd (PositionManager.open_position
                        {["ETH/KRW" := Scenarios.position 1 false false false false 100]}
                        "BTC/KRW" 10 0 0.3 0.02 0.01 0.8 ""
                        PositionManager.default_args "t0"))
                "BTC/KRW" 110) as (_ & _ & H3 & _).
    eapply H3; [apply lookup_insert_eq|]. reflexivity.
Defined.

Lemma market_sell_never_oversells_witness :
  let pos := Scenarios.position 100 true true false false 100 in
  let r :=
    ExecutionEngine.market_sell Scenarios.cfg (Scenarios.exchange 110 60)
      (Scenarios.engine pos) "BTC/KRW" pos "" (1 # 2) true 0 in
  exists q,
    ExecutionEngine.sell_orders (snd r) = [("BTC/KRW", q)] /\
    0 < q /\ q <= 60 * (1 # 2).
Proof.
  destruct (market_sell_never_oversells Scenarios.cfg (Scenarios.exchange 110 60)
              (Scenarios.engine (Scenarios.position 100 true true false false 100))
              "BTC/KRW" (Scenarios.position 100 true true false false 100) ""
              (1 # 2) true 0) as ([H | (q & H1 & H2 & _ & H4)] & _).
  - exfalso. revert H. vm_compute. discriminate.
  - exists q. split; [exact H1|]. split; [exact H2|]. apply H4. reflexivity.
Defined.

Lemma sell_approval_is_requested_once_witness :
  let ex :=
    ExecutionEngine.mkExchange None (fun _ => Ok None) (Ok (fun _ => None))
      (fun _ _ => Ok None) (Some true) false in
  let pos := Scenarios.position 100 false false false false 100 in
  let r :=
    ExecutionEngine._request_sell_approval ex (Scenarios.engine pos) "BTC/KRW" pos
      98 "SL" "sl" 0 in
  ExecutionEngine.approval_requests (snd r) = [("BTC/KRW", "sl")] /\
  ExecutionEngine._request_sell_approval ex (snd r) "BTC/KRW" pos 97 "SL" "sl" 60 =
    (true, snd r).
Proof.
  destruct (sell_approval_is_requested_once
              (ExecutionEngine.mkExchange None (fun _ => Ok None) (Ok (fun _ => None))
                 (fun _ _ => Ok None) (Some true) false)
              (Scenarios.engine (Scenarios.position 100 false false false false 100))
              "BTC/KRW" (Scenarios.position 100 false false false false 100)
              98 "SL" "sl" 0) as (_ & _ & [H | (H1 & _ & _ & H4)] & _).
  - exfalso. revert H. vm_compute. discriminate.
  - split; [exact H1|]. apply H4.
Defined.

Lemma position_multiplier_zero_or_clamped_witness :
  Trading._calculate_dynamic_position_multiplier
    (Trading.Dict
       (Trading.mkDecision (ExecutionEngine.mkAiDecision None 0.9) (Some 0)
          None None None None None None None None)) = 0.0.
Proof.
  destruct (position_multiplier_zero_or_clamped
              (Trading.Dict
                 (Trading.mkDecision (ExecutionEngine.mkAiDecision None 0.9) (Some 0)
                    None None None None None None None None))) as (_ & H & _).
  apply H. eexists _, 0. split; [reflexivity|]. split; [reflexivity|].
  vm_compute. discriminate.
Defined.

Lemma check_positions_never_opens_a_position_witness :
  let pos := Scenarios.position 100 false false false false 100 in
  let r :=
    Trading.check_positions Scenarios.cfg (Scenarios.exchange 97 100)
      TradingScenarios.buy_api Scenarios.mkt (Scenarios.engine pos)
      ["BTC/KRW"; "ETH/KRW"] 0 "t1" in
  ExecutionEngine.pm (fst r) !! "ETH/KRW" = None /\
  Forall (fun o => fst o ∈ ["BTC/KRW"; "ETH/KRW"]) (snd r).
Proof.
  destruct (check_positions_never_opens_a_position Scenarios.cfg
              (Scenarios.exchange 97 100) TradingScenarios.buy_api Scenarios.mkt
              (Scenarios.engine (Scenarios.position 100 false false false false 100))
              ["BTC/KRW"; "ETH/KRW"] 0 "t1") as (H1 & _ & H3).
  split.
  - destruct (ExecutionEngine.pm _ !! "ETH/KRW") eqn:E; [|reflexivity].
    exfalso. destruct (H1 "ETH/KRW") as [x Hx]; [rewrite E; eauto|].
    revert Hx. vm_compute. discriminate.
  - eapply Forall_impl; [exact H3|]. cbn. intros o (H & _). exact H.
Defined.

Lemma execute_guards_signals_witness :
  let pos := Scenarios.position 100 false false false false 100 in
  Trading.execute Scenarios.cfg (Scenarios.exchange 97 100)
    TradingScenarios.buy_api Scenarios.mkt (Scenarios.engine pos) "BTC/KRW" "buy"
    Trading.EmptyDecision 0.3 0 "t1" = (false, Scenarios.engine pos, []).
Proof.
  destruct (execute_guards_signals Scenarios.cfg (Scenarios.exchange 97 100)
              TradingScenarios.buy_api Scenarios.mkt
              (Scenarios.engine (Scenarios.position 100 false false false false 100))
              "BTC/KRW" "buy" Trading.EmptyDecision 0.3 0 "t1") as (_ & H & _).
  apply H; [reflexivity|reflexivity|]. eexists. apply lookup_singleton_eq.
Defined.
